(** * VeraCrypt volume header: a shallow embedding of
    [src/Volume/VolumeHeader.cpp] and the properties of its header codec
    and trial-decryption engine.

    Integers are [Z] with the wrap-around of [size_t] written out, buffers
    are lists of bytes, the header object and the cipher objects it points
    to live in an explicit machine state, and C++ exceptions are an
    outcome of every operation. *)

From Stdlib Require Import ZArith Lia Strings.Byte Strings.String.
From stdpp Require Import base list numbers.

Local Open Scope Z_scope.

(** ** Bytes and big-endian integers *)

#[global] Instance byte_eq_dec : EqDecision byte := Byte.byte_eq_dec.

Definition byte_to_Z (b : byte) : Z := Z.of_N (Byte.to_N b).

Definition byte_of_Z (z : Z) : byte :=
  default Byte.x00 (Byte.of_N (Z.to_N (z mod 256))).

(** The fixed-width integer types the codec is instantiated at. *)
Inductive IntType := uint16 | uint32 | uint64.

Definition sizeof (T : IntType) : Z :=
  match T with uint16 => 2 | uint32 => 4 | uint64 => 8 end.

(** [Endian::Big] followed by the store of the [w] bytes: most significant
    byte first.  A value of type [T] wider than [w] bytes cannot occur in
    the source; here the high part is dropped as a C++ conversion would. *)
Fixpoint to_big_endian (w : nat) (v : Z) : list byte :=
  match w with
  | O => []
  | S w' => byte_of_Z (v / 256 ^ Z.of_nat w') :: to_big_endian w' v
  end.

(** The load of [length bs] bytes followed by [Endian::Big]. *)
Fixpoint of_big_endian (bs : list byte) : Z :=
  match bs with
  | [] => 0
  | b :: rest => byte_to_Z b * 256 ^ Z.of_nat (length rest) + of_big_endian rest
  end.

(** ** Exceptions and outcomes *)

Inductive Exception :=
| ParameterIncorrect
| PasswordEmpty
| HigherVersionRequired
| UnsupportedTrueCryptFormat
| UnsupportedSectorSize
| OutOfRange
| Malformed. (* named by the codec section of the specification; the source never throws it *)

(** An operation returns, throws, or touches memory outside the buffer it
    was given ([Fault]: undefined behaviour in C++). *)
Inductive Outcome (A : Type) :=
| Ok (a : A)
| Throw (e : Exception)
| Fault.
Arguments Ok {A} a.
Arguments Throw {A} e.
Arguments Fault {A}.

Definition obind {A B} (o : Outcome A) (k : A -> Outcome B) : Outcome B :=
  match o with
  | Ok a => k a
  | Throw e => Throw e
  | Fault => Fault
  end.

Declare Scope outcome_scope.
Delimit Scope outcome_scope with outcome.
Notation "'let?' x ':=' c 'in' k" := (obind c (fun x => k))
  (at level 10, x pattern, c at level 100, k at level 200) : outcome_scope.

(** ** Buffers *)

Definition Size (buf : list byte) : Z := Z.of_nat (length buf).

(** The bytes [off, off + n) of a buffer, whatever the bounds. *)
Definition sub (off n : Z) (buf : list byte) : list byte :=
  take (Z.to_nat n) (drop (Z.to_nat off) buf).

(** The buffer with [bs] stored from byte [off] on. *)
Definition splice (off : Z) (bs buf : list byte) : list byte :=
  take (Z.to_nat off) buf ++ bs ++ drop (Z.to_nat off + length bs) buf.

(** Modelled from the spec: the buffer class of the repository (Buffer.h) is
    not among the sources.  A buffer is a fixed-size byte container;
    [GetRange] yields a bounded view and range operations fail with
    [OutOfRange] for invalid spans. *)
Definition GetRange (buf : list byte) (off n : Z) : Outcome (list byte) :=
  if decide (0 <= off /\ 0 <= n /\ off + n <= Size buf)
  then Ok (sub off n buf)
  else Throw OutOfRange.

(** Modelled from the spec: [CopyFrom] stores the source at the start of the
    fixed-size destination and is a range operation: a source longer than
    the destination is an invalid span. *)
Definition CopyFrom (dst src : list byte) : Outcome (list byte) :=
  if decide (Size src <= Size dst)
  then Ok (splice 0 src dst)
  else Throw OutOfRange.

(** Modelled from the spec: [Zero] overwrites every byte with zero. *)
Definition Zero (buf : list byte) : list byte :=
  replicate (length buf) Byte.x00.

(** [buf[i]]: the unchecked index operator. *)
Definition at_index (buf : list byte) (i : nat) : Outcome byte :=
  match buf !! i with
  | Some b => Ok b
  | None => Fault
  end.

(** ** The endian codec (VolumeHeader.cpp lines 267-285 and 400-409) *)

(** [size_t] arithmetic: 64 bits, wrapping. *)
Definition size_t_modulus : Z := 2 ^ 64.
Definition size_t_add (a b : Z) : Z := (a + b) mod size_t_modulus.

(** The load [*reinterpret_cast<const T *> (header.Get() + at)]: in C++ it is
    performed whatever [at] is; it is a [Fault] unless the [sizeof T] bytes
    lie inside the buffer. *)
Definition load (T : IntType) (header : list byte) (at_ : Z) : Outcome Z :=
  if decide (0 <= at_ /\ at_ + sizeof T <= Size header)
  then Ok (of_big_endian (sub at_ (sizeof T) header))
  else Fault.

(** The store [*reinterpret_cast<T *> (header.Get() + at) = Endian::Big (entry)]. *)
Definition store (T : IntType) (entry : Z) (header : list byte) (at_ : Z)
  : Outcome (list byte) :=
  if decide (0 <= at_ /\ at_ + sizeof T <= Size header)
  then Ok (splice at_ (to_big_endian (Z.to_nat (sizeof T)) entry) header)
  else Fault.

Local Open Scope outcome_scope.

(** [DeserializeEntry <T> (header, offset)]: returns the value and the
    advanced offset. *)
Definition DeserializeEntry (T : IntType) (header : list byte) (offset : Z)
  : Outcome (Z * Z) :=
  let offset := size_t_add offset (sizeof T) in
  if decide (offset > Size header) then Throw ParameterIncorrect
  else
    let? v := load T header (offset - sizeof T) in
    Ok (v, offset).

(** [DeserializeEntryAt <T> (header, offset)]. *)
Definition DeserializeEntryAt (T : IntType) (header : list byte) (offset : Z)
  : Outcome Z :=
  if decide (offset > Size header) then Throw ParameterIncorrect
  else load T header offset.

(** [SerializeEntry (entry, header, offset)]: returns the buffer and the
    advanced offset. *)
Definition SerializeEntry (T : IntType) (entry : Z) (header : list byte)
  (offset : Z) : Outcome (list byte * Z) :=
  let offset := size_t_add offset (sizeof T) in
  if decide (offset > Size header) then Throw ParameterIncorrect
  else
    let? header := store T entry header (offset - sizeof T) in
    Ok (header, offset).

(** ** The data model *)

(** [VolumeType::Enum]. *)
Inductive VolumeType := Unknown | Normal | Hidden.

(** The encryption modes: the source tells [EncryptionModeXTS] from every
    other (legacy) mode by [typeid]. *)
Inductive ModeType := EncryptionModeXTS | EncryptionModeLegacy (id : nat).

Definition is_XTS (m : ModeType) : bool :=
  match m with EncryptionModeXTS => true | EncryptionModeLegacy _ => false end.

(** What [VolumeHeader.cpp] takes from the rest of the repository: the
    cipher catalogue, the key-derivation functions, [Crc32], and the
    constants of [VolumeHeader.h] and of the build whose values the layout
    table of the specification does not fix. *)
Class Environment := {
  (** the dynamic types of [EncryptionAlgorithm] objects *)
  EAType : Type;
  (** [EncryptionAlgorithm::GetKeySize] *)
  GetKeySize : EAType -> Z;
  (** [EncryptionAlgorithm::IsModeSupported] *)
  IsModeSupported : EAType -> ModeType -> bool;
  (** [EncryptionMode::GetKeySize] *)
  Mode_GetKeySize : ModeType -> Z;
  (** [EncryptionAlgorithm::Encrypt], in place, of an algorithm of the given
      type and key, bound to a mode of the given type and key *)
  Cipher_Encrypt : EAType -> list byte -> ModeType -> list byte -> list byte -> list byte;
  (** [EncryptionAlgorithm::Decrypt], likewise *)
  Cipher_Decrypt : EAType -> list byte -> ModeType -> list byte -> list byte -> list byte;
  (** [EncryptionAlgorithm::GetLargestKeySize (EncryptionAlgorithm::GetAvailableAlgorithms ())] *)
  LargestKeySize : Z;
  (** the key-derivation functions *)
  Pkcs5Kdf : Type;
  (** [Pkcs5Kdf::GetName] *)
  GetName : Pkcs5Kdf -> string;
  (** [Pkcs5Kdf::DeriveKey]: the new contents of the key buffer of the given
      size, from password, pim and salt *)
  DeriveKey : Pkcs5Kdf -> Z -> list byte -> Z -> list byte -> list byte;
  (** [Crc32::ProcessBuffer] *)
  Crc32_ProcessBuffer : list byte -> Z;
  CurrentHeaderVersion : Z;
  MinAllowedHeaderVersion : Z;
  CurrentRequiredMinProgramVersion : Z;
  (** [Version::Number ()] *)
  Version_Number : Z;
  LegacyEncryptionModeKeyAreaSize : Z;
  (** whether one of TC_WINDOWS, TC_LINUX, TC_MACOSX is defined *)
  LargeSectorPlatform : bool }.

(** Modelled from the spec: the layout constants of [VolumeHeader.h] and of
    the common headers, which are not among the sources, with the values of
    the layout table (section 6) and of invariant I3. *)
Definition SaltOffset : Z := 0.
Definition SaltSize : Z := 64.
Definition EncryptedHeaderDataOffset : Z := SaltOffset + SaltSize.
Definition TC_HEADER_OFFSET_MAGIC : Z := 64.
Definition TC_HEADER_OFFSET_HEADER_CRC : Z := 252.
Definition TC_HEADER_OFFSET_KEY_AREA : Z := 256.
Definition DataAreaKeyOffset : Z := TC_HEADER_OFFSET_KEY_AREA - TC_HEADER_OFFSET_MAGIC.
Definition DataKeyAreaMaxSize : Z := 256.
Definition TC_SECTOR_SIZE_LEGACY : Z := 512.
Definition TC_MIN_VOLUME_SECTOR_SIZE : Z := 512.
Definition TC_MAX_VOLUME_SECTOR_SIZE : Z := 4096.
Definition ENCRYPTION_DATA_UNIT_SIZE : Z := 512.

(** An [EncryptionMode] object: its dynamic type and the key [SetKey] gave it. *)
Record EncryptionMode := mkMode {
  mode_type : ModeType;
  mode_key : list byte }.

Section Header.

Context {env : Environment}.

(** An [EncryptionAlgorithm] object: its dynamic type, the key [SetKey] gave
    it and the mode object [SetMode] bound, a pointer into the store. *)
Record EncryptionAlgorithm := mkEA {
  ea_type : EAType;
  ea_key : list byte;
  ea_mode : option nat }.

(** The header object.  [EA] is a shared pointer into the store of
    algorithm objects; a key-derivation function has no mutable state and
    is held by value. *)
Record VolumeHeader := mkVolumeHeader {
  HeaderSize : Z;
  EncryptedHeaderDataSize : Z;
  EA : option nat;
  Pkcs5 : option Pkcs5Kdf;
  HeaderVersion : Z;
  RequiredMinProgramVersion : Z;
  VolumeKeyAreaCrc32 : Z;
  VolumeCreationTime : Z;
  HeaderCreationTime : Z;
  mVolumeType : VolumeType;
  HiddenVolumeDataSize : Z;
  VolumeDataSize : Z;
  EncryptedAreaStart : Z;
  EncryptedAreaLength : Z;
  Flags : Z;
  SectorSize : Z;
  Salt : list byte;
  HeaderKey : list byte;
  DataAreaKey : list byte }.

Definition set_HeaderSize (v : Z) (h : VolumeHeader) : VolumeHeader :=
  mkVolumeHeader v (EncryptedHeaderDataSize h) (EA h) (Pkcs5 h)
    (HeaderVersion h) (RequiredMinProgramVersion h) (VolumeKeyAreaCrc32 h)
    (VolumeCreationTime h) (HeaderCreationTime h) (mVolumeType h)
    (HiddenVolumeDataSize h) (VolumeDataSize h) (EncryptedAreaStart h)
    (EncryptedAreaLength h) (Flags h) (SectorSize h) (Salt h) (HeaderKey h)
    (DataAreaKey h).

Definition set_EncryptedHeaderDataSize (v : Z) (h : VolumeHeader) : VolumeHeader :=
  mkVolumeHeader (HeaderSize h) v (EA h) (Pkcs5 h) (HeaderVersion h)
    (RequiredMinProgramVersion h) (VolumeKeyAreaCrc32 h) (VolumeCreationTime
    h) (HeaderCreationTime h) (mVolumeType h) (HiddenVolumeDataSize h)
    (VolumeDataSize h) (EncryptedAreaStart h) (EncryptedAreaLength h) (Flags
    h) (SectorSize h) (Salt h) (HeaderKey h) (DataAreaKey h).

Definition set_EA (v : option nat) (h : VolumeHeader) : VolumeHeader :=
  mkVolumeHeader (HeaderSize h) (EncryptedHeaderDataSize h) v (Pkcs5 h)
    (HeaderVersion h) (RequiredMinProgramVersion h) (VolumeKeyAreaCrc32 h)
    (VolumeCreationTime h) (HeaderCreationTime h) (mVolumeType h)
    (HiddenVolumeDataSize h) (VolumeDataSize h) (EncryptedAreaStart h)
    (EncryptedAreaLength h) (Flags h) (SectorSize h) (Salt h) (HeaderKey h)
    (DataAreaKey h).

Definition set_Pkcs5 (v : option Pkcs5Kdf) (h : VolumeHeader) : VolumeHeader :=
  mkVolumeHeader (HeaderSize h) (EncryptedHeaderDataSize h) (EA h) v
    (HeaderVersion h) (RequiredMinProgramVersion h) (VolumeKeyAreaCrc32 h)
    (VolumeCreationTime h) (HeaderCreationTime h) (mVolumeType h)
    (HiddenVolumeDataSize h) (VolumeDataSize h) (EncryptedAreaStart h)
    (EncryptedAreaLength h) (Flags h) (SectorSize h) (Salt h) (HeaderKey h)
    (DataAreaKey h).

Definition set_HeaderVersion (v : Z) (h : VolumeHeader) : VolumeHeader :=
  mkVolumeHeader (HeaderSize h) (EncryptedHeaderDataSize h) (EA h) (Pkcs5 h)
    v (RequiredMinProgramVersion h) (VolumeKeyAreaCrc32 h)
    (VolumeCreationTime h) (HeaderCreationTime h) (mVolumeType h)
    (HiddenVolumeDataSize h) (VolumeDataSize h) (EncryptedAreaStart h)
    (EncryptedAreaLength h) (Flags h) (SectorSize h) (Salt h) (HeaderKey h)
    (DataAreaKey h).

Definition set_RequiredMinProgramVersion (v : Z) (h : VolumeHeader) : VolumeHeader :=
  mkVolumeHeader (HeaderSize h) (EncryptedHeaderDataSize h) (EA h) (Pkcs5 h)
    (HeaderVersion h) v (VolumeKeyAreaCrc32 h) (VolumeCreationTime h)
    (HeaderCreationTime h) (mVolumeType h) (HiddenVolumeDataSize h)
    (VolumeDataSize h) (EncryptedAreaStart h) (EncryptedAreaLength h) (Flags
    h) (SectorSize h) (Salt h) (HeaderKey h) (DataAreaKey h).

Definition set_VolumeKeyAreaCrc32 (v : Z) (h : VolumeHeader) : VolumeHeader :=
  mkVolumeHeader (HeaderSize h) (EncryptedHeaderDataSize h) (EA h) (Pkcs5 h)
    (HeaderVersion h) (RequiredMinProgramVersion h) v (VolumeCreationTime h)
    (HeaderCreationTime h) (mVolumeType h) (HiddenVolumeDataSize h)
    (VolumeDataSize h) (EncryptedAreaStart h) (EncryptedAreaLength h) (Flags
    h) (SectorSize h) (Salt h) (HeaderKey h) (DataAreaKey h).

Definition set_VolumeCreationTime (v : Z) (h : VolumeHeader) : VolumeHeader :=
  mkVolumeHeader (HeaderSize h) (EncryptedHeaderDataSize h) (EA h) (Pkcs5 h)
    (HeaderVersion h) (RequiredMinProgramVersion h) (VolumeKeyAreaCrc32 h) v
    (HeaderCreationTime h) (mVolumeType h) (HiddenVolumeDataSize h)
    (VolumeDataSize h) (EncryptedAreaStart h) (EncryptedAreaLength h) (Flags
    h) (SectorSize h) (Salt h) (HeaderKey h) (DataAreaKey h).

Definition set_HeaderCreationTime (v : Z) (h : VolumeHeader) : VolumeHeader :=
  mkVolumeHeader (HeaderSize h) (EncryptedHeaderDataSize h) (EA h) (Pkcs5 h)
    (HeaderVersion h) (RequiredMinProgramVersion h) (VolumeKeyAreaCrc32 h)
    (VolumeCreationTime h) v (mVolumeType h) (HiddenVolumeDataSize h)
    (VolumeDataSize h) (EncryptedAreaStart h) (EncryptedAreaLength h) (Flags
    h) (SectorSize h) (Salt h) (HeaderKey h) (DataAreaKey h).

Definition set_mVolumeType (v : VolumeType) (h : VolumeHeader) : VolumeHeader :=
  mkVolumeHeader (HeaderSize h) (EncryptedHeaderDataSize h) (EA h) (Pkcs5 h)
    (HeaderVersion h) (RequiredMinProgramVersion h) (VolumeKeyAreaCrc32 h)
    (VolumeCreationTime h) (HeaderCreationTime h) v (HiddenVolumeDataSize h)
    (VolumeDataSize h) (EncryptedAreaStart h) (EncryptedAreaLength h) (Flags
    h) (SectorSize h) (Salt h) (HeaderKey h) (DataAreaKey h).

Definition set_HiddenVolumeDataSize (v : Z) (h : VolumeHeader) : VolumeHeader :=
  mkVolumeHeader (HeaderSize h) (EncryptedHeaderDataSize h) (EA h) (Pkcs5 h)
    (HeaderVersion h) (RequiredMinProgramVersion h) (VolumeKeyAreaCrc32 h)
    (VolumeCreationTime h) (HeaderCreationTime h) (mVolumeType h) v
    (VolumeDataSize h) (EncryptedAreaStart h) (EncryptedAreaLength h) (Flags
    h) (SectorSize h) (Salt h) (HeaderKey h) (DataAreaKey h).

Definition set_VolumeDataSize (v : Z) (h : VolumeHeader) : VolumeHeader :=
  mkVolumeHeader (HeaderSize h) (EncryptedHeaderDataSize h) (EA h) (Pkcs5 h)
    (HeaderVersion h) (RequiredMinProgramVersion h) (VolumeKeyAreaCrc32 h)
    (VolumeCreationTime h) (HeaderCreationTime h) (mVolumeType h)
    (HiddenVolumeDataSize h) v (EncryptedAreaStart h) (EncryptedAreaLength
    h) (Flags h) (SectorSize h) (Salt h) (HeaderKey h) (DataAreaKey h).

Definition set_EncryptedAreaStart (v : Z) (h : VolumeHeader) : VolumeHeader :=
  mkVolumeHeader (HeaderSize h) (EncryptedHeaderDataSize h) (EA h) (Pkcs5 h)
    (HeaderVersion h) (RequiredMinProgramVersion h) (VolumeKeyAreaCrc32 h)
    (VolumeCreationTime h) (HeaderCreationTime h) (mVolumeType h)
    (HiddenVolumeDataSize h) (VolumeDataSize h) v (EncryptedAreaLength h)
    (Flags h) (SectorSize h) (Salt h) (HeaderKey h) (DataAreaKey h).

Definition set_EncryptedAreaLength (v : Z) (h : VolumeHeader) : VolumeHeader :=
  mkVolumeHeader (HeaderSize h) (EncryptedHeaderDataSize h) (EA h) (Pkcs5 h)
    (HeaderVersion h) (RequiredMinProgramVersion h) (VolumeKeyAreaCrc32 h)
    (VolumeCreationTime h) (HeaderCreationTime h) (mVolumeType h)
    (HiddenVolumeDataSize h) (VolumeDataSize h) (EncryptedAreaStart h) v
    (Flags h) (SectorSize h) (Salt h) (HeaderKey h) (DataAreaKey h).

Definition set_Flags (v : Z) (h : VolumeHeader) : VolumeHeader :=
  mkVolumeHeader (HeaderSize h) (EncryptedHeaderDataSize h) (EA h) (Pkcs5 h)
    (HeaderVersion h) (RequiredMinProgramVersion h) (VolumeKeyAreaCrc32 h)
    (VolumeCreationTime h) (HeaderCreationTime h) (mVolumeType h)
    (HiddenVolumeDataSize h) (VolumeDataSize h) (EncryptedAreaStart h)
    (EncryptedAreaLength h) v (SectorSize h) (Salt h) (HeaderKey h)
    (DataAreaKey h).

Definition set_SectorSize (v : Z) (h : VolumeHeader) : VolumeHeader :=
  mkVolumeHeader (HeaderSize h) (EncryptedHeaderDataSize h) (EA h) (Pkcs5 h)
    (HeaderVersion h) (RequiredMinProgramVersion h) (VolumeKeyAreaCrc32 h)
    (VolumeCreationTime h) (HeaderCreationTime h) (mVolumeType h)
    (HiddenVolumeDataSize h) (VolumeDataSize h) (EncryptedAreaStart h)
    (EncryptedAreaLength h) (Flags h) v (Salt h) (HeaderKey h) (DataAreaKey
    h).

Definition set_Salt (v : list byte) (h : VolumeHeader) : VolumeHeader :=
  mkVolumeHeader (HeaderSize h) (EncryptedHeaderDataSize h) (EA h) (Pkcs5 h)
    (HeaderVersion h) (RequiredMinProgramVersion h) (VolumeKeyAreaCrc32 h)
    (VolumeCreationTime h) (HeaderCreationTime h) (mVolumeType h)
    (HiddenVolumeDataSize h) (VolumeDataSize h) (EncryptedAreaStart h)
    (EncryptedAreaLength h) (Flags h) (SectorSize h) v (HeaderKey h)
    (DataAreaKey h).

Definition set_HeaderKey (v : list byte) (h : VolumeHeader) : VolumeHeader :=
  mkVolumeHeader (HeaderSize h) (EncryptedHeaderDataSize h) (EA h) (Pkcs5 h)
    (HeaderVersion h) (RequiredMinProgramVersion h) (VolumeKeyAreaCrc32 h)
    (VolumeCreationTime h) (HeaderCreationTime h) (mVolumeType h)
    (HiddenVolumeDataSize h) (VolumeDataSize h) (EncryptedAreaStart h)
    (EncryptedAreaLength h) (Flags h) (SectorSize h) (Salt h) v (DataAreaKey
    h).

Definition set_DataAreaKey (v : list byte) (h : VolumeHeader) : VolumeHeader :=
  mkVolumeHeader (HeaderSize h) (EncryptedHeaderDataSize h) (EA h) (Pkcs5 h)
    (HeaderVersion h) (RequiredMinProgramVersion h) (VolumeKeyAreaCrc32 h)
    (VolumeCreationTime h) (HeaderCreationTime h) (mVolumeType h)
    (HiddenVolumeDataSize h) (VolumeDataSize h) (EncryptedAreaStart h)
    (EncryptedAreaLength h) (Flags h) (SectorSize h) (Salt h) (HeaderKey h)
    v.

(** ** The machine state and its monad *)

(** The calls the search-ordering property counts. *)
Inductive Call :=
| DeriveKeyCall (pkcs5 : Pkcs5Kdf)
| DeserializeCall (header : list byte).

(** The header object the methods run on, the store of the algorithm and
    mode objects that shared pointers point into, and the calls made so
    far, oldest first. *)
Record Machine := mkMachine {
  this : VolumeHeader;
  algorithms : list EncryptionAlgorithm;
  modes : list EncryptionMode;
  calls : list Call }.

(** A method: it leaves a machine state behind also when it throws. *)
Definition M (A : Type) : Type := Machine -> Outcome A * Machine.

Definition ret {A} (a : A) : M A := fun s => (Ok a, s).

Definition bind {A B} (c : M A) (k : A -> M B) : M B :=
  fun s =>
    match c s with
    | (Ok a, s') => k a s'
    | (Throw e, s') => (Throw e, s')
    | (Fault, s') => (Fault, s')
    end.

Definition throw {A} (e : Exception) : M A := fun s => (Throw e, s).

Definition fault {A} : M A := fun s => (Fault, s).

Definition lift {A} (o : Outcome A) : M A := fun s => (o, s).

Definition get_this : M VolumeHeader := fun s => (Ok (this s), s).

Definition assign (f : VolumeHeader -> VolumeHeader) : M unit :=
  fun s => (Ok tt, mkMachine (f (this s)) (algorithms s) (modes s) (calls s)).

Definition record (c : Call) : M unit :=
  fun s => (Ok tt, mkMachine (this s) (algorithms s) (modes s) (calls s ++ [c])).

End Header.

Declare Scope method_scope.
Delimit Scope method_scope with method.
Notation "'do' x <- c ; k" := (bind c (fun x => k))
  (at level 10, x pattern, c at level 100, k at level 200) : method_scope.
Notation "c ;; k" := (bind c (fun _ => k))
  (at level 100, k at level 200, right associativity) : method_scope.

Local Open Scope method_scope.

Section Methods.

Context {env : Environment}.

(** ** The store of cipher objects

    A null or dangling pointer dereferenced is a [Fault]. *)

Definition deref_ea (p : nat) : M EncryptionAlgorithm :=
  fun s => (match algorithms s !! p with Some e => Ok e | None => Fault end, s).

Definition deref_mode (p : nat) : M EncryptionMode :=
  fun s => (match modes s !! p with Some m => Ok m | None => Fault end, s).

Definition put_ea (p : nat) (e : EncryptionAlgorithm) : M unit :=
  fun s => (Ok tt, mkMachine (this s) (<[p := e]> (algorithms s)) (modes s) (calls s)).

Definition put_mode (p : nat) (m : EncryptionMode) : M unit :=
  fun s => (Ok tt, mkMachine (this s) (algorithms s) (<[p := m]> (modes s)) (calls s)).

Definition new_ea (e : EncryptionAlgorithm) : M nat :=
  fun s => (Ok (length (algorithms s)),
            mkMachine (this s) (algorithms s ++ [e]) (modes s) (calls s)).

Definition new_mode (m : EncryptionMode) : M nat :=
  fun s => (Ok (length (modes s)),
            mkMachine (this s) (algorithms s) (modes s ++ [m]) (calls s)).

(** [ea->GetKeySize ()] *)
Definition EA_GetKeySize (ea : nat) : M Z :=
  do e <- deref_ea ea; ret (GetKeySize (ea_type e)).

(** [ea->SetKey (key)] *)
Definition EA_SetKey (ea : nat) (key : list byte) : M unit :=
  do e <- deref_ea ea; put_ea ea (mkEA (ea_type e) key (ea_mode e)).

(** [ea->SetMode (mode)] *)
Definition EA_SetMode (ea mode : nat) : M unit :=
  do e <- deref_ea ea; put_ea ea (mkEA (ea_type e) (ea_key e) (Some mode)).

(** [ea->GetMode ()] *)
Definition EA_GetMode (ea : nat) : M (option nat) :=
  do e <- deref_ea ea; ret (ea_mode e).

(** [ea->GetNew ()]: a fresh object of the same dynamic type. *)
Definition EA_GetNew (ea : nat) : M nat :=
  do e <- deref_ea ea; new_ea (mkEA (ea_type e) [] None).

(** [typeid] of the mode object *)
Definition Mode_typeid (mode : nat) : M ModeType :=
  do m <- deref_mode mode; ret (mode_type m).

(** [mode->SetKey (key)] *)
Definition Mode_SetKey (mode : nat) (key : list byte) : M unit :=
  do m <- deref_mode mode; put_mode mode (mkMode (mode_type m) key).

(** [mode->GetNew ()] *)
Definition Mode_GetNew (mode : nat) : M nat :=
  do m <- deref_mode mode; new_mode (mkMode (mode_type m) []).

(** The bound mode of an algorithm object; the catalogue's cipher needs one. *)
Definition bound_mode (e : EncryptionAlgorithm) : M EncryptionMode :=
  match ea_mode e with
  | Some q => deref_mode q
  | None => fault
  end.

(** [ea->Encrypt (data)], in place: the new contents of [data]. *)
Definition EA_Encrypt (ea : nat) (data : list byte) : M (list byte) :=
  do e <- deref_ea ea;
  do m <- bound_mode e;
  ret (Cipher_Encrypt (ea_type e) (ea_key e) (mode_type m) (mode_key m) data).

(** [ea->Decrypt (data)], in place. *)
Definition EA_Decrypt (ea : nat) (data : list byte) : M (list byte) :=
  do e <- deref_ea ea;
  do m <- bound_mode e;
  ret (Cipher_Decrypt (ea_type e) (ea_key e) (mode_type m) (mode_key m) data).

(** [pkcs5->DeriveKey (headerKey, password, pim, salt)]: the new contents of
    [headerKey]. *)
Definition Pkcs5_DeriveKey (pkcs5 : Pkcs5Kdf) (headerKey password : list byte)
  (pim : Z) (salt : list byte) : M (list byte) :=
  record (DeriveKeyCall pkcs5);;
  ret (DeriveKey pkcs5 (Size headerKey) password pim salt).

(** ** Construction (lines 26-50 and 411-420) *)

Definition uint32_sub (a b : Z) : Z := (a - b) mod 2 ^ 32.

(** [VolumeHeader::Init] *)
Definition Init : M unit :=
  assign (set_VolumeKeyAreaCrc32 0);;
  assign (set_VolumeCreationTime 0);;
  assign (set_HeaderCreationTime 0);;
  assign (set_mVolumeType Unknown);;
  assign (set_HiddenVolumeDataSize 0);;
  assign (set_VolumeDataSize 0);;
  assign (set_EncryptedAreaStart 0);;
  assign (set_EncryptedAreaLength 0);;
  assign (set_Flags 0);;
  assign (set_SectorSize 0).

(** [VolumeHeader::VolumeHeader (size)], on the storage of the new object. *)
Definition VolumeHeader_new (size : Z) : M unit :=
  Init;;
  assign (set_HeaderSize size);;
  assign (set_EncryptedHeaderDataSize (uint32_sub size EncryptedHeaderDataOffset)).

(** [VolumeHeader::SetSize] *)
Definition SetSize (headerSize : Z) : M unit :=
  assign (set_HeaderSize headerSize);;
  do h <- get_this;
  assign (set_EncryptedHeaderDataSize (uint32_sub (HeaderSize h) EncryptedHeaderDataOffset)).

(** [VolumeHeader::GetSize] *)
Definition GetSize : M Z :=
  do h <- get_this; ret (HeaderSize h).

(** [VolumeHeader::GetLargestSerializedKeySize].  Key sizes are tens of
    bytes: their [size_t] sums and products are written without the
    modulus, here and below. *)
Definition GetLargestSerializedKeySize : Z :=
  let largestKey := LargestKeySize in
  if decide (LegacyEncryptionModeKeyAreaSize + largestKey > largestKey * 2)
  then LegacyEncryptionModeKeyAreaSize + largestKey
  else largestKey * 2.

(** The check of the sector size that [Create], [Deserialize] and
    [Serialize] repeat. *)
Definition SectorSize_invalid (SectorSize : Z) : bool :=
  bool_decide (SectorSize < TC_MIN_VOLUME_SECTOR_SIZE)
  || bool_decide (SectorSize > TC_MAX_VOLUME_SECTOR_SIZE)
  || negb (SectorSize mod ENCRYPTION_DATA_UNIT_SIZE =? 0).

(** ** Deserialize (lines 160-265) *)

(** [header[i] != c] *)
Definition differs (header : list byte) (i : nat) (c : byte) : Outcome bool :=
  (let? b := at_index header i in Ok (negb (Byte.eqb b c)))%outcome.

(** The short-circuit [||] and [&&]. *)
Definition or_else (a b : Outcome bool) : Outcome bool :=
  (let? x := a in if x then Ok true else b)%outcome.

Definition and_then (a : bool) (b : Outcome bool) : Outcome bool :=
  if a then b else Ok false.

Definition magic_differs (header : list byte) (c0 c1 c2 c3 : byte) : Outcome bool :=
  or_else (differs header 0 c0)
    (or_else (differs header 1 c1)
       (or_else (differs header 2 c2) (differs header 3 c3))).

(** The comparison of the header checksum with the stored one (lines
    186-188), its left operand first. *)
Definition header_crc_differs (header : list byte) : Outcome bool :=
  (let? range := GetRange header 0 (TC_HEADER_OFFSET_HEADER_CRC - TC_HEADER_OFFSET_MAGIC) in
   let? stored := DeserializeEntryAt uint32 header (TC_HEADER_OFFSET_HEADER_CRC - TC_HEADER_OFFSET_MAGIC) in
   Ok (negb (Crc32_ProcessBuffer range =? stored)))%outcome.

(** [VolumeHeader::Deserialize (header, ea, mode, truecryptMode)].  [ea]
    and [mode] are passed by reference: the result carries their values at
    the return.  The [printf] calls write to standard output only and are
    left out. *)
Definition Deserialize (header : list byte) (ea mode : nat) (truecryptMode : bool)
  : M (bool * (nat * nat)) :=
  record (DeserializeCall header);;
  do h <- get_this;
  if decide (Size header <> EncryptedHeaderDataSize h) then throw ParameterIncorrect
  else
  do wrong <- lift (and_then truecryptMode (magic_differs header "T" "R" "U" "E"));
  if wrong : bool then ret (false, (ea, mode)) else
  do wrong <- lift (and_then (negb truecryptMode) (magic_differs header "V" "E" "R" "A"));
  if wrong : bool then ret (false, (ea, mode)) else
  let offset := 4 in
  do (headerVersion, offset) <- lift (DeserializeEntry uint16 header offset);
  assign (set_HeaderVersion headerVersion);;
  if decide (headerVersion < MinAllowedHeaderVersion) then ret (false, (ea, mode))
  else
  if decide (headerVersion > CurrentHeaderVersion) then throw HigherVersionRequired
  else
  do wrong <- lift (and_then (bool_decide (headerVersion >= 4)) (header_crc_differs header));
  if wrong : bool then ret (false, (ea, mode)) else
  do (requiredMinProgramVersion, offset) <- lift (DeserializeEntry uint16 header offset);
  assign (set_RequiredMinProgramVersion requiredMinProgramVersion);;
  if negb truecryptMode && bool_decide (requiredMinProgramVersion > Version_Number)
  then throw HigherVersionRequired
  else
  (if truecryptMode
   then
     if bool_decide (requiredMinProgramVersion < 0x600)
        || bool_decide (requiredMinProgramVersion > 0x71a)
     then throw UnsupportedTrueCryptFormat
     else assign (set_RequiredMinProgramVersion CurrentRequiredMinProgramVersion)
   else ret tt);;
  do (volumeKeyAreaCrc32, offset) <- lift (DeserializeEntry uint32 header offset);
  assign (set_VolumeKeyAreaCrc32 volumeKeyAreaCrc32);;
  do (v, offset) <- lift (DeserializeEntry uint64 header offset);
  assign (set_VolumeCreationTime v);;
  do (v, offset) <- lift (DeserializeEntry uint64 header offset);
  assign (set_HeaderCreationTime v);;
  do (hiddenVolumeDataSize, offset) <- lift (DeserializeEntry uint64 header offset);
  assign (set_HiddenVolumeDataSize hiddenVolumeDataSize);;
  assign (set_mVolumeType (if decide (hiddenVolumeDataSize <> 0) then Hidden else Normal));;
  do (v, offset) <- lift (DeserializeEntry uint64 header offset);
  assign (set_VolumeDataSize v);;
  do (v, offset) <- lift (DeserializeEntry uint64 header offset);
  assign (set_EncryptedAreaStart v);;
  do (v, offset) <- lift (DeserializeEntry uint64 header offset);
  assign (set_EncryptedAreaLength v);;
  do (v, offset) <- lift (DeserializeEntry uint32 header offset);
  assign (set_Flags v);;
  do (sectorSize, offset) <- lift (DeserializeEntry uint32 header offset);
  assign (set_SectorSize sectorSize);;
  let sectorSize := if decide (headerVersion < 5) then TC_SECTOR_SIZE_LEGACY else sectorSize in
  (if decide (headerVersion < 5) then assign (set_SectorSize TC_SECTOR_SIZE_LEGACY) else ret tt);;
  if SectorSize_invalid sectorSize then throw ParameterIncorrect else
  if negb LargeSectorPlatform && negb (sectorSize =? TC_SECTOR_SIZE_LEGACY)
  then throw UnsupportedSectorSize
  else
  let offset := DataAreaKeyOffset in
  do range <- lift (GetRange header offset DataKeyAreaMaxSize);
  if negb (volumeKeyAreaCrc32 =? Crc32_ProcessBuffer range) then ret (false, (ea, mode))
  else
  do range <- lift (GetRange header offset DataKeyAreaMaxSize);
  do h <- get_this;
  do key <- lift (CopyFrom (DataAreaKey h) range);
  assign (set_DataAreaKey key);;
  do ea <- EA_GetNew ea;
  do mode <- Mode_GetNew mode;
  do type <- Mode_typeid mode;
  (if is_XTS type
   then
     do n <- EA_GetKeySize ea;
     do range <- lift (GetRange header offset n);
     EA_SetKey ea range;;
     do n <- EA_GetKeySize ea;
     do range <- lift (GetRange header (offset + n) n);
     Mode_SetKey mode range
   else
     do range <- lift (GetRange header offset (Mode_GetKeySize type));
     Mode_SetKey mode range;;
     do n <- EA_GetKeySize ea;
     do range <- lift (GetRange header (offset + LegacyEncryptionModeKeyAreaSize) n);
     EA_SetKey ea range);;
  EA_SetMode ea mode;;
  ret (true, (ea, mode)).

(** ** Serialize (lines 357-398) *)

(** [header[i] = c] *)
Definition set_index (header : list byte) (i : nat) (c : byte) : Outcome (list byte) :=
  if decide (i < length header)%nat then Ok (<[i := c]> header) else Fault.

(** [VolumeHeader::Serialize (header)], a const method: the new contents of
    the buffer from the header object. *)
Definition Serialize (h : VolumeHeader) (header : list byte) : Outcome (list byte) :=
  (if decide (Size header <> EncryptedHeaderDataSize h) then Throw ParameterIncorrect
   else
   let header := Zero header in
   let? header := set_index header 0 "V" in
   let? header := set_index header 1 "E" in
   let? header := set_index header 2 "R" in
   let? header := set_index header 3 "A" in
   let offset := 4 in
   let? view := GetRange header DataAreaKeyOffset (Size (DataAreaKey h)) in
   let? view := CopyFrom view (DataAreaKey h) in
   let header := splice DataAreaKeyOffset view header in
   let headerVersion := CurrentHeaderVersion in
   let? (header, offset) := SerializeEntry uint16 headerVersion header offset in
   let? (header, offset) := SerializeEntry uint16 (RequiredMinProgramVersion h) header offset in
   let? range := GetRange header DataAreaKeyOffset DataKeyAreaMaxSize in
   let? (header, offset) := SerializeEntry uint32 (Crc32_ProcessBuffer range) header offset in
   let reserved64 := 0 in
   let? (header, offset) := SerializeEntry uint64 reserved64 header offset in
   let? (header, offset) := SerializeEntry uint64 reserved64 header offset in
   let? (header, offset) := SerializeEntry uint64 (HiddenVolumeDataSize h) header offset in
   let? (header, offset) := SerializeEntry uint64 (VolumeDataSize h) header offset in
   let? (header, offset) := SerializeEntry uint64 (EncryptedAreaStart h) header offset in
   let? (header, offset) := SerializeEntry uint64 (EncryptedAreaLength h) header offset in
   let? (header, offset) := SerializeEntry uint32 (Flags h) header offset in
   if SectorSize_invalid (SectorSize h) then Throw ParameterIncorrect
   else
   let? (header, offset) := SerializeEntry uint32 (SectorSize h) header offset in
   let offset := TC_HEADER_OFFSET_HEADER_CRC - TC_HEADER_OFFSET_MAGIC in
   let? range := GetRange header 0 (TC_HEADER_OFFSET_HEADER_CRC - TC_HEADER_OFFSET_MAGIC) in
   let? (header, offset) := SerializeEntry uint32 (Crc32_ProcessBuffer range) header offset in
   Ok header)%outcome.

(** ** EncryptNew, Encrypt and Create (lines 52-86 and 287-343) *)

(** The null check of a shared pointer about to be dereferenced. *)
Definition nonnull (p : option nat) : M nat :=
  match p with
  | Some q => ret q
  | None => fault
  end.

(** Lines 292-312 and 322-342, which [EncryptNew] and [Encrypt] share word
    for word but for the salt and the header key: the new contents of the
    header buffer.  A buffer written before a throw is not returned. *)
Definition encrypt_header (newHeaderBuffer salt headerKey : list byte) : M (list byte) :=
  do h <- get_this;
  do EA <- nonnull (EA h);
  do bound <- EA_GetMode EA;
  do bound <- nonnull bound;
  do mode <- Mode_GetNew bound;
  do ea <- EA_GetNew EA;
  do type <- Mode_typeid mode;
  (if is_XTS type
   then
     do n <- EA_GetKeySize EA;
     do range <- lift (GetRange headerKey n n);
     Mode_SetKey mode range;;
     do n <- EA_GetKeySize ea;
     do range <- lift (GetRange headerKey 0 n);
     EA_SetKey ea range
   else
     do range <- lift (GetRange headerKey 0 (Mode_GetKeySize type));
     Mode_SetKey mode range;;
     do n <- EA_GetKeySize ea;
     do range <- lift (GetRange headerKey LegacyEncryptionModeKeyAreaSize n);
     EA_SetKey ea range);;
  EA_SetMode ea mode;;
  do newHeaderBuffer <- lift (CopyFrom newHeaderBuffer salt);
  do headerData <- lift (GetRange newHeaderBuffer EncryptedHeaderDataOffset (EncryptedHeaderDataSize h));
  do headerData <- lift (Serialize h headerData);
  do headerData <- EA_Encrypt ea headerData;
  ret (splice EncryptedHeaderDataOffset headerData newHeaderBuffer).

(** [VolumeHeader::EncryptNew (newHeaderBuffer, newSalt, newHeaderKey, newPkcs5Kdf)] *)
Definition EncryptNew (newHeaderBuffer newSalt newHeaderKey : list byte)
  (newPkcs5Kdf : option Pkcs5Kdf) : M (list byte) :=
  do h <- get_this;
  if decide (Size newHeaderBuffer <> HeaderSize h \/ Size newSalt <> SaltSize)
  then throw ParameterIncorrect
  else
  do newHeaderBuffer <- encrypt_header newHeaderBuffer newSalt newHeaderKey;
  (match newPkcs5Kdf with
   | Some _ => assign (set_Pkcs5 newPkcs5Kdf)
   | None => ret tt
   end);;
  ret newHeaderBuffer.

(** [VolumeHeader::Encrypt (newHeaderBuffer)] *)
Definition Encrypt (newHeaderBuffer : list byte) : M (list byte) :=
  do h <- get_this;
  if decide (Size newHeaderBuffer <> HeaderSize h) then throw ParameterIncorrect
  else encrypt_header newHeaderBuffer (Salt h) (HeaderKey h).

(** [VolumeHeaderCreationOptions] *)
Record VolumeHeaderCreationOptions := mkOptions {
  opt_DataKey : list byte;
  opt_EA : nat;
  opt_HeaderKey : list byte;
  opt_Kdf : option Pkcs5Kdf;
  opt_Salt : list byte;
  opt_SectorSize : Z;
  opt_VolumeDataSize : Z;
  opt_VolumeDataStart : Z;
  opt_Type : VolumeType }.

Definition VolumeType_eqb (a b : VolumeType) : bool :=
  match a, b with
  | Unknown, Unknown | Normal, Normal | Hidden, Hidden => true
  | _, _ => false
  end.

(** [VolumeHeader::Create (headerBuffer, options)] *)
Definition Create (headerBuffer : list byte) (options : VolumeHeaderCreationOptions)
  : M (list byte) :=
  do n <- EA_GetKeySize (opt_EA options);
  if decide (Size (opt_DataKey options) <> n * 2 \/ Size (opt_Salt options) <> SaltSize)
  then throw ParameterIncorrect
  else
  let headerBuffer := Zero headerBuffer in
  assign (set_HeaderVersion CurrentHeaderVersion);;
  assign (set_RequiredMinProgramVersion CurrentRequiredMinProgramVersion);;
  do h <- get_this;
  assign (set_DataAreaKey (Zero (DataAreaKey h)));;
  do h <- get_this;
  do key <- lift (CopyFrom (DataAreaKey h) (opt_DataKey options));
  assign (set_DataAreaKey key);;
  assign (set_VolumeCreationTime 0);;
  assign (set_HiddenVolumeDataSize
            (if VolumeType_eqb (opt_Type options) Hidden
             then opt_VolumeDataSize options else 0));;
  assign (set_VolumeDataSize (opt_VolumeDataSize options));;
  assign (set_EncryptedAreaStart (opt_VolumeDataStart options));;
  assign (set_EncryptedAreaLength (opt_VolumeDataSize options));;
  assign (set_SectorSize (opt_SectorSize options));;
  if SectorSize_invalid (opt_SectorSize options) then throw ParameterIncorrect
  else
  assign (set_EA (Some (opt_EA options)));;
  do mode <- new_mode (mkMode EncryptionModeXTS []);
  EA_SetMode (opt_EA options) mode;;
  EncryptNew headerBuffer (opt_Salt options) (opt_HeaderKey options) (opt_Kdf options).

(** ** Decrypt (lines 88-158) *)

(** [SecureBuffer (size)] *)
Definition SecureBuffer (size : Z) : list byte := replicate (Z.to_nat size) Byte.x00.

(** [kdf && (kdf->GetName () != pkcs5->GetName ())] *)
Definition other_kdf (kdf : option Pkcs5Kdf) (pkcs5 : Pkcs5Kdf) : bool :=
  match kdf with
  | Some kdf => negb (String.eqb (GetName kdf) (GetName pkcs5))
  | None => false
  end.

Section Loops.

Variables (encryptedData : list byte) (truecryptMode : bool) (header : list byte).

(** The body of the innermost loop (lines 112-152): whether [Decrypt]
    returned true there, and the loop variable [mode] of the enclosing
    loop, which line 119 assigns.  The scratch buffer [header] is
    overwritten in full by line 129 each time and is not threaded. *)
Definition Decrypt_algorithm (pkcs5 : Pkcs5Kdf) (headerKey : list byte) (mode ea : nat)
  : M (bool * nat) :=
  do e <- deref_ea ea;
  do type <- Mode_typeid mode;
  if negb (IsModeSupported (ea_type e) type) then ret (false, mode)
  else
  do mode <-
    (if is_XTS type
     then
       do n <- EA_GetKeySize ea;
       do range <- lift (GetRange headerKey 0 n);
       EA_SetKey ea range;;
       do mode <- Mode_GetNew mode;
       do n <- EA_GetKeySize ea;
       do range <- lift (GetRange headerKey n n);
       Mode_SetKey mode range;;
       ret mode
     else
       do n <- EA_GetKeySize ea;
       do range <- lift (GetRange headerKey LegacyEncryptionModeKeyAreaSize n);
       EA_SetKey ea range;;
       ret mode);
  EA_SetMode ea mode;;
  do h <- get_this;
  do range <- lift (GetRange encryptedData EncryptedHeaderDataOffset (EncryptedHeaderDataSize h));
  do header <- lift (CopyFrom header range);
  do header <- EA_Decrypt ea header;
  do (ok, (ea, mode')) <- Deserialize header ea mode truecryptMode;
  if ok : bool
  then
    do h <- get_this;
    do key <- lift (CopyFrom (HeaderKey h) headerKey);
    assign (set_HeaderKey key);;
    assign (set_EA (Some ea));;
    assign (set_Pkcs5 (Some pkcs5));;
    ret (true, mode')
  else ret (false, mode').

(** [foreach (ea, encryptionAlgorithms)] *)
Fixpoint Decrypt_algorithms (pkcs5 : Pkcs5Kdf) (headerKey : list byte) (mode : nat)
  (encryptionAlgorithms : list nat) : M bool :=
  match encryptionAlgorithms with
  | [] => ret false
  | ea :: rest =>
      do (returned, mode) <- Decrypt_algorithm pkcs5 headerKey mode ea;
      if returned : bool then ret true
      else Decrypt_algorithms pkcs5 headerKey mode rest
  end.

(** [foreach (mode, encryptionModes)] *)
Fixpoint Decrypt_modes (pkcs5 : Pkcs5Kdf) (headerKey : list byte)
  (encryptionAlgorithms encryptionModes : list nat) : M bool :=
  match encryptionModes with
  | [] => ret false
  | mode :: rest =>
      do type <- Mode_typeid mode;
      (if negb (is_XTS type)
       then
         do range <- lift (GetRange headerKey 0 (Mode_GetKeySize type));
         Mode_SetKey mode range
       else ret tt);;
      do returned <- Decrypt_algorithms pkcs5 headerKey mode encryptionAlgorithms;
      if returned : bool then ret true
      else Decrypt_modes pkcs5 headerKey encryptionAlgorithms rest
  end.

(** [foreach (pkcs5, keyDerivationFunctions)] *)
Fixpoint Decrypt_kdfs (password : list byte) (pim : Z) (kdf : option Pkcs5Kdf)
  (salt headerKey : list byte) (encryptionAlgorithms encryptionModes : list nat)
  (keyDerivationFunctions : list Pkcs5Kdf) : M bool :=
  match keyDerivationFunctions with
  | [] => ret false
  | pkcs5 :: rest =>
      if other_kdf kdf pkcs5
      then Decrypt_kdfs password pim kdf salt headerKey
             encryptionAlgorithms encryptionModes rest
      else
        do headerKey <- Pkcs5_DeriveKey pkcs5 headerKey password pim salt;
        do returned <- Decrypt_modes pkcs5 headerKey encryptionAlgorithms encryptionModes;
        if returned : bool then ret true
        else Decrypt_kdfs password pim kdf salt headerKey
               encryptionAlgorithms encryptionModes rest
  end.

End Loops.

(** [VolumeHeader::Decrypt].  The [puts], [printf] and [Hexdump] calls of
    lines 134-146 write to standard output only and are left out. *)
Definition Decrypt (encryptedData password : list byte) (pim : Z)
  (kdf : option Pkcs5Kdf) (truecryptMode : bool)
  (keyDerivationFunctions : list Pkcs5Kdf)
  (encryptionAlgorithms encryptionModes : list nat) : M bool :=
  if decide (Size password < 1) then throw PasswordEmpty
  else
  do salt <- lift (GetRange encryptedData SaltOffset SaltSize);
  do h <- get_this;
  do s <- lift (CopyFrom (Salt h) salt);
  assign (set_Salt s);;
  do h <- get_this;
  let header := SecureBuffer (EncryptedHeaderDataSize h) in
  let headerKey := SecureBuffer GetLargestSerializedKeySize in
  Decrypt_kdfs encryptedData truecryptMode header password pim kdf salt headerKey
    encryptionAlgorithms encryptionModes keyDerivationFunctions.

End Methods.

(** ** The wire fields of a plaintext header

    The value a read of width [T] finds at byte [off] of a header that
    holds it, and the offsets at which [Deserialize] reads (4, then the
    widths of the fields in the order of lines 178-225). *)

Definition field (T : IntType) (off : Z) (header : list byte) : Z :=
  of_big_endian (sub off (sizeof T) header).

Definition wire_HeaderVersion := field uint16 4.
Definition wire_RequiredMinProgramVersion := field uint16 6.
Definition wire_VolumeKeyAreaCrc32 := field uint32 8.
Definition wire_VolumeCreationTime := field uint64 12.
Definition wire_HeaderCreationTime := field uint64 20.
Definition wire_HiddenVolumeDataSize := field uint64 28.
Definition wire_VolumeDataSize := field uint64 36.
Definition wire_EncryptedAreaStart := field uint64 44.
Definition wire_EncryptedAreaLength := field uint64 52.
Definition wire_Flags := field uint32 60.
Definition wire_SectorSize := field uint32 64.
Definition wire_HeaderCrc := field uint32 (TC_HEADER_OFFSET_HEADER_CRC - TC_HEADER_OFFSET_MAGIC).

(** The magic of the mode: "TRUE" in TrueCrypt mode, "VERA" otherwise. *)
Definition magic (truecryptMode : bool) : list byte :=
  if truecryptMode then ["T"; "R"; "U"; "E"]%byte else ["V"; "E"; "R"; "A"]%byte.

Definition magic_matches (truecryptMode : bool) (header : list byte) : Prop :=
  sub 0 4 header = magic truecryptMode.

Section Wire.

Context {env : Environment}.

(** The checksum of bytes [0, 188) against the one stored at 188. *)
Definition header_crc_matches (header : list byte) : Prop :=
  Crc32_ProcessBuffer (sub 0 (TC_HEADER_OFFSET_HEADER_CRC - TC_HEADER_OFFSET_MAGIC) header)
  = wire_HeaderCrc header.

(** The checksum of the key area against the stored [VolumeKeyAreaCrc32]. *)
Definition key_crc_matches (header : list byte) : Prop :=
  wire_VolumeKeyAreaCrc32 header
  = Crc32_ProcessBuffer (sub DataAreaKeyOffset DataKeyAreaMaxSize header).

(** The gate of lines 195-203 on the minimum program version. *)
Definition program_version_accepted (truecryptMode : bool) (header : list byte) : Prop :=
  if truecryptMode
  then 0x600 <= wire_RequiredMinProgramVersion header <= 0x71a
  else wire_RequiredMinProgramVersion header <= Version_Number.

(** The sector size after the coercion of lines 226-227. *)
Definition coerced_SectorSize (header : list byte) : Z :=
  if decide (wire_HeaderVersion header < 5) then TC_SECTOR_SIZE_LEGACY
  else wire_SectorSize header.

(** The gate of lines 236-239, compiled in on the other platforms only. *)
Definition platform_accepts (sectorSize : Z) : Prop :=
  LargeSectorPlatform = true \/ sectorSize = TC_SECTOR_SIZE_LEGACY.

(** The checks of lines 165-244 in their order, on a header that holds
    its fields: the four at which [Deserialize] returns false, each after
    those before it have passed. *)
Definition version_in_range (header : list byte) : Prop :=
  MinAllowedHeaderVersion <= wire_HeaderVersion header <= CurrentHeaderVersion.

Definition gates_passed (truecryptMode : bool) (header : list byte) : Prop :=
  magic_matches truecryptMode header
  /\ version_in_range header
  /\ (4 <= wire_HeaderVersion header -> header_crc_matches header)
  /\ program_version_accepted truecryptMode header
  /\ SectorSize_invalid (coerced_SectorSize header) = false
  /\ platform_accepts (coerced_SectorSize header).

Definition rejected (truecryptMode : bool) (header : list byte) : Prop :=
  ~ magic_matches truecryptMode header
  \/ (magic_matches truecryptMode header
      /\ wire_HeaderVersion header < MinAllowedHeaderVersion)
  \/ (magic_matches truecryptMode header /\ version_in_range header
      /\ 4 <= wire_HeaderVersion header /\ ~ header_crc_matches header)
  \/ (gates_passed truecryptMode header /\ ~ key_crc_matches header).

Definition accepted (truecryptMode : bool) (header : list byte) : Prop :=
  gates_passed truecryptMode header /\ key_crc_matches header.

End Wire.


(** ** What Deserialize and the trial engine bind

    The header object after the assignments of lines 178-227, from a header
    that holds its fields. *)
Definition parsed `{env : Environment} (truecryptMode : bool) (header : list byte)
  (h : VolumeHeader) : VolumeHeader :=
  set_SectorSize (coerced_SectorSize header)
    (set_Flags (wire_Flags header)
       (set_EncryptedAreaLength (wire_EncryptedAreaLength header)
          (set_EncryptedAreaStart (wire_EncryptedAreaStart header)
             (set_VolumeDataSize (wire_VolumeDataSize header)
                (set_mVolumeType
                   (if decide (wire_HiddenVolumeDataSize header <> 0) then Hidden else Normal)
                   (set_HiddenVolumeDataSize (wire_HiddenVolumeDataSize header)
                      (set_HeaderCreationTime (wire_HeaderCreationTime header)
                         (set_VolumeCreationTime (wire_VolumeCreationTime header)
                            (set_VolumeKeyAreaCrc32 (wire_VolumeKeyAreaCrc32 header)
                               (set_RequiredMinProgramVersion
                                  (if truecryptMode then CurrentRequiredMinProgramVersion
                                   else wire_RequiredMinProgramVersion header)
                                  (set_HeaderVersion (wire_HeaderVersion header) h))))))))))).

(** The key layout of property P6 of the specification, in its words: for
    XTS the key material is the cipher key followed by the tweak key, each
    of the key size of the algorithm; for a legacy mode the mode key comes
    first and the cipher key lies at [LegacyEncryptionModeKeyAreaSize]. *)
Definition layout_cipher_key `{env : Environment} (m : ModeType) (e : EAType)
  (material : list byte) : list byte :=
  if is_XTS m then sub 0 (GetKeySize e) material
  else sub LegacyEncryptionModeKeyAreaSize (GetKeySize e) material.

Definition layout_mode_key `{env : Environment} (m : ModeType) (e : EAType)
  (material : list byte) : list byte :=
  if is_XTS m then sub (GetKeySize e) (GetKeySize e) material
  else sub 0 (Mode_GetKeySize m) material.

(** Key material of [n] bytes holds the keys of the layout. *)
Definition keys_fit `{env : Environment} (m : ModeType) (e : EAType) (n : Z) : Prop :=
  0 <= GetKeySize e
  /\ if is_XTS m then GetKeySize e + GetKeySize e <= n
     else 0 <= Mode_GetKeySize m <= n
          /\ 0 <= LegacyEncryptionModeKeyAreaSize
          /\ LegacyEncryptionModeKeyAreaSize + GetKeySize e <= n.

(** ** The search of the trial engine

    The plaintext [Decrypt] hands to [Deserialize] for a candidate: the
    encrypted area of the blob, decrypted by the algorithm and the mode
    keyed from the header key by the layout of the mode. *)
Definition trial `{env : Environment} (encryptedData : list byte) (n : Z)
  (headerKey : list byte) (m : ModeType) (e : EAType) : list byte :=
  Cipher_Decrypt e (layout_cipher_key m e headerKey) m (layout_mode_key m e headerKey)
    (sub EncryptedHeaderDataOffset n encryptedData).

(** A candidate is passed over: the algorithm does not support the mode
    ([continue], line 113), or [Deserialize] returns false on its
    plaintext. *)
Definition passed `{env : Environment} (truecryptMode : bool) (encryptedData : list byte)
  (n : Z) (headerKey : list byte) (m : ModeType) (e : EAType) : Prop :=
  IsModeSupported e m = true ->
  rejected truecryptMode (trial encryptedData n headerKey m e).

(** The dynamic types of the objects behind two pointers. *)
Definition ea_type_at `{env : Environment} (s : Machine) (p : nat) : option EAType :=
  ea_type <$> algorithms s !! p.

Definition mode_type_at `{env : Environment} (s : Machine) (q : nat) : option ModeType :=
  mode_type <$> modes s !! q.

(** What a candidate that does not match leaves of a machine state:
    the sizes, [EA], [Pkcs5], [Salt], [HeaderKey] and [DataAreaKey] of the
    header object, and the dynamic type of every cipher object. *)
Record kept `{env : Environment} (s s' : Machine) : Prop := mk_kept {
  kept_HeaderSize : HeaderSize (this s') = HeaderSize (this s);
  kept_DataSize : EncryptedHeaderDataSize (this s') = EncryptedHeaderDataSize (this s);
  kept_EA : EA (this s') = EA (this s);
  kept_Pkcs5 : Pkcs5 (this s') = Pkcs5 (this s);
  kept_Salt : Salt (this s') = Salt (this s);
  kept_HeaderKey : HeaderKey (this s') = HeaderKey (this s);
  kept_DataAreaKey : DataAreaKey (this s') = DataAreaKey (this s);
  kept_ea_types : forall p t, ea_type_at s p = Some t -> ea_type_at s' p = Some t;
  kept_mode_types : forall q t, mode_type_at s q = Some t -> mode_type_at s' q = Some t }.

(** What [Decrypt] leaves of the header object as long as no candidate
    has matched: the sizes, [EA], [Pkcs5], [Salt] and [HeaderKey]. *)
Definition unlatched `{env : Environment} (s s' : Machine) : Prop :=
  HeaderSize (this s') = HeaderSize (this s)
  /\ EncryptedHeaderDataSize (this s') = EncryptedHeaderDataSize (this s)
  /\ EA (this s') = EA (this s)
  /\ Pkcs5 (this s') = Pkcs5 (this s)
  /\ Salt (this s') = Salt (this s)
  /\ HeaderKey (this s') = HeaderKey (this s).

(** What the matching candidate leaves: the fields parsed from its
    plaintext [p], the key area in [DataAreaKey], the header key in
    [HeaderKey], the key-derivation function in [Pkcs5], and in [EA] a
    fresh algorithm bound to a fresh mode, both keyed from the key area by
    the layout of the mode. *)
Definition latched `{env : Environment} (truecryptMode : bool) (pkcs5 : Pkcs5Kdf)
  (headerKey p : list byte) (m : ModeType) (e : EAType) (s s' : Machine) : Prop :=
  exists (h : VolumeHeader) (ea mode : nat),
    this s'
    = set_Pkcs5 (Some pkcs5)
        (set_EA (Some ea)
           (set_HeaderKey (splice 0 headerKey (HeaderKey (this s)))
              (set_DataAreaKey
                 (splice 0 (sub DataAreaKeyOffset DataKeyAreaMaxSize p)
                    (DataAreaKey (this s)))
                 (parsed truecryptMode p h))))
    /\ HeaderSize h = HeaderSize (this s)
    /\ EncryptedHeaderDataSize h = EncryptedHeaderDataSize (this s)
    /\ Salt h = Salt (this s)
    /\ algorithms s' !! ea
       = Some (mkEA e (layout_cipher_key m e (drop (Z.to_nat DataAreaKeyOffset) p))
                 (Some mode))
    /\ modes s' !! mode
       = Some (mkMode m (layout_mode_key m e (drop (Z.to_nat DataAreaKeyOffset) p))).

(** A mode object of the type, keyed for a legacy mode as line 108 does. *)
Definition mode_ready `{env : Environment} (headerKey : list byte) (t : ModeType)
  (s : Machine) (mode : nat) : Prop :=
  exists m, modes s !! mode = Some m /\ mode_type m = t
            /\ (is_XTS t = false -> mode_key m = sub 0 (Mode_GetKeySize t) headerKey).

(** The calls of the three loops when no candidate returns true, in the
    order of the loops: the key-derivation function outermost, then the
    mode, the algorithm innermost. *)
Definition tried_algorithms `{env : Environment} (encryptedData : list byte) (n : Z)
  (headerKey : list byte) (m : ModeType) (es : list EAType) : list Call :=
  map (fun e => DeserializeCall (trial encryptedData n headerKey m e))
    (filter (fun e => IsModeSupported e m = true) es).

Definition tried_modes `{env : Environment} (encryptedData : list byte) (n : Z)
  (headerKey : list byte) (ms : list ModeType) (es : list EAType) : list Call :=
  flat_map (fun m => tried_algorithms encryptedData n headerKey m es) ms.

(** The header key [Decrypt] derives with a key-derivation function. *)
Definition derived `{env : Environment} (pkcs5 : Pkcs5Kdf) (password : list byte)
  (pim : Z) (salt : list byte) : list byte :=
  DeriveKey pkcs5 GetLargestSerializedKeySize password pim salt.

(** Every candidate of a key-derivation function the loop does not skip
    (line 100) is passed over. *)
Definition kdf_passed `{env : Environment} (truecryptMode : bool) (encryptedData : list byte)
  (n : Z) (password : list byte) (pim : Z) (kdf : option Pkcs5Kdf) (salt : list byte)
  (ms : list ModeType) (es : list EAType) (k : Pkcs5Kdf) : Prop :=
  other_kdf kdf k = false ->
  Forall (fun m => Forall (passed truecryptMode encryptedData n
                             (derived k password pim salt) m) es) ms.

Definition tried_kdfs `{env : Environment} (encryptedData : list byte) (n : Z)
  (password : list byte) (pim : Z) (kdf : option Pkcs5Kdf) (salt : list byte)
  (ks : list Pkcs5Kdf) (ms : list ModeType) (es : list EAType) : list Call :=
  flat_map
    (fun k =>
       if other_kdf kdf k then []
       else DeriveKeyCall k
            :: tried_modes encryptedData n (derived k password pim salt) ms es)
    ks.

(** The calls of a kind among the calls recorded. *)
Definition is_DeriveKey `{env : Environment} (c : Call) : bool :=
  match c with DeriveKeyCall _ => true | DeserializeCall _ => false end.

Definition is_Deserialize `{env : Environment} (c : Call) : bool :=
  match c with DeriveKeyCall _ => false | DeserializeCall _ => true end.

Definition DeriveKey_calls `{env : Environment} (cs : list Call) : nat :=
  length (List.filter is_DeriveKey cs).

Definition Deserialize_calls `{env : Environment} (cs : list Call) : nat :=
  length (List.filter is_Deserialize cs).

(** The key-derivation functions line 100 does not skip. *)
Definition visited `{env : Environment} (kdf : option Pkcs5Kdf) (ks : list Pkcs5Kdf)
  : list Pkcs5Kdf :=
  List.filter (fun k => negb (other_kdf kdf k)) ks.

(** The number of candidates of the modes and the algorithms that line
    113 skips. *)
Fixpoint skipped `{env : Environment} (ms : list ModeType) (es : list EAType) : nat :=
  match ms with
  | [] => 0
  | m :: ms' =>
      length (List.filter (fun e => negb (IsModeSupported e m)) es) + skipped ms' es
  end.

(** The part of the innermost loop body after the decryption of the
    candidate (lines 132-152), on the plaintext [p]. *)
Definition trial_tail `{env : Environment} (truecryptMode : bool) (pkcs5 : Pkcs5Kdf)
  (headerKey p : list byte) (ea mode : nat) : M (bool * nat) :=
  (do (ok, (ea, mode')) <- Deserialize p ea mode truecryptMode;
   if ok : bool
   then
     do h <- get_this;
     do key <- lift (CopyFrom (HeaderKey h) headerKey);
     assign (set_HeaderKey key);;
     assign (set_EA (Some ea));;
     assign (set_Pkcs5 (Some pkcs5));;
     ret (true, mode')
   else ret (false, mode'))%method.

(** The loop variable [mode] and the machine state once lines 115-127 have
    keyed the candidate: the algorithm object rekeyed in place and bound to
    the mode, which for XTS is a fresh clone. *)
Definition keyed `{env : Environment} (headerKey : list byte) (s : Machine) (ea mode : nat)
  (e : EncryptionAlgorithm) (m : EncryptionMode) : nat * Machine :=
  let mode1 := if is_XTS (mode_type m) then length (modes s) else mode in
  (mode1,
   mkMachine (this s)
     (<[ea := mkEA (ea_type e) (layout_cipher_key (mode_type m) (ea_type e) headerKey)
                (Some mode1)]> (algorithms s))
     (if is_XTS (mode_type m)
      then modes s ++ [mkMode (mode_type m)
                         (layout_mode_key (mode_type m) (ea_type e) headerKey)]
      else modes s)
     (calls s)).

(** ** The contracts of the collaborators

    What the header code relies on from the catalogue: a checksum is a
    [uint32]; [DeriveKey] fills the key buffer; the ciphers work in place;
    no key is larger than the largest, and the key of a legacy mode fits
    the legacy key area. *)
Record Contracts `{env : Environment} : Prop := mk_Contracts {
  Crc32_range : forall bs, 0 <= Crc32_ProcessBuffer bs < 2 ^ 32;
  DeriveKey_size : forall k n password pim salt,
    0 <= n -> Size (DeriveKey k n password pim salt) = n;
  Encrypt_size : forall e key m mkey data,
    Size (Cipher_Encrypt e key m mkey data) = Size data;
  Decrypt_size : forall e key m mkey data,
    Size (Cipher_Decrypt e key m mkey data) = Size data;
  KeySize_range : forall e, 0 <= GetKeySize e <= LargestKeySize;
  LargestKeySize_nonneg : 0 <= LargestKeySize;
  LegacyArea_nonneg : 0 <= LegacyEncryptionModeKeyAreaSize;
  ModeKeySize_range : forall m,
    is_XTS m = false -> 0 <= Mode_GetKeySize m <= LegacyEncryptionModeKeyAreaSize }.

(** ** Reasoning about methods *)

(** [wp c Q s]: the outcome of method [c] from state [s] and the state it
    leaves satisfy [Q]. *)
Definition wp `{env : Environment} {A} (c : M A) (Q : Outcome A -> Machine -> Prop)
  (s : Machine) : Prop :=
  Q (c s).1 (c s).2.

(** ** A reference environment

    A small catalogue to run the methods on: two algorithm types of 32-byte
    keys, two key-derivation functions, an additive stream cipher, and the
    CRC-32 of section 4.2 of the specification. *)

Module Reference.

Inductive Algorithm := AES | Serpent.

Inductive Kdf := Sha512 | Whirlpool.

Definition byte_add (k : Z) (b : byte) : byte := byte_of_Z (byte_to_Z b + k).

Definition byte_sub (k : Z) (b : byte) : byte := byte_of_Z (byte_to_Z b - k).

Definition sum (bs : list byte) : Z := foldr (fun b acc => byte_to_Z b + acc) 0 bs.

(** The pad of the stream cipher, from the algorithm, its key, the mode and
    its key. *)
Definition pad (a : Algorithm) (key : list byte) (m : ModeType) (mkey : list byte) : Z :=
  (match a with AES => 1 | Serpent => 2 end)
  + 3 * sum key
  + (match m with EncryptionModeXTS => 0 | EncryptionModeLegacy id => 1 + Z.of_nat id end)
  + 5 * sum mkey.

Definition encrypt (a : Algorithm) (key : list byte) (m : ModeType) (mkey data : list byte)
  : list byte :=
  map (byte_add (pad a key m mkey)) data.

Definition decrypt (a : Algorithm) (key : list byte) (m : ModeType) (mkey data : list byte)
  : list byte :=
  map (byte_sub (pad a key m mkey)) data.

Definition name (k : Kdf) : string :=
  match k with Sha512 => "HMAC-SHA-512" | Whirlpool => "HMAC-Whirlpool" end.

Definition derive (k : Kdf) (size : Z) (password : list byte) (pim : Z) (salt : list byte)
  : list byte :=
  map (fun i => byte_of_Z ((match k with Sha512 => 7 | Whirlpool => 12 end)
                           * (Z.of_nat i + 1) + sum password + pim + sum salt))
      (seq 0 (Z.to_nat size)).

(** Modelled from the spec: [Crc32] is not among the sources; the CRC-32 of
    section 4.2, reflected polynomial 0xEDB88320, initial value and final
    xor 0xFFFFFFFF. *)
Definition crc_shift (c : Z) : Z :=
  if Z.testbit c 0 then Z.lxor (Z.shiftr c 1) 0xEDB88320 else Z.shiftr c 1.

Definition crc_update (c : Z) (b : byte) : Z :=
  Nat.iter 8 crc_shift (Z.lxor c (byte_to_Z b)).

Definition crc32 (bs : list byte) : Z :=
  Z.lxor (fold_left crc_update bs 0xFFFFFFFF) 0xFFFFFFFF mod 2 ^ 32.

Definition environment : Environment := {|
  EAType := Algorithm;
  GetKeySize := fun _ => 32;
  IsModeSupported := fun a m =>
    match a, m with
    | Serpent, EncryptionModeLegacy _ => false
    | _, _ => true
    end;
  Mode_GetKeySize := fun _ => 16;
  Cipher_Encrypt := encrypt;
  Cipher_Decrypt := decrypt;
  LargestKeySize := 32;
  Pkcs5Kdf := Kdf;
  GetName := name;
  DeriveKey := derive;
  Crc32_ProcessBuffer := crc32;
  CurrentHeaderVersion := 5;
  MinAllowedHeaderVersion := 1;
  CurrentRequiredMinProgramVersion := 0x10b;
  Version_Number := 0x126;
  LegacyEncryptionModeKeyAreaSize := 32;
  LargeSectorPlatform := true |}.

End Reference.

(** ** Sample inputs

    A header object as its constructor and the allocations of its buffers
    leave it, a store with one object of each kind, and plaintext headers
    written field by field, on the reference environment. *)

Module Sample.

#[local] Existing Instance Reference.environment.

Definition zeros (n : nat) : list byte := replicate n Byte.x00.

(** The header object of a 512-byte header: the fields of [Init], the two
    sizes of the constructor, and zeroed buffers of [SaltSize],
    [GetLargestSerializedKeySize ()] and [DataKeyAreaMaxSize] bytes. *)
Definition blank : VolumeHeader :=
  mkVolumeHeader 512 448 None None 0 0 0 0 0 Unknown 0 0 0 0 0 0
    (zeros 64) (zeros 64) (zeros 256).

(** The store: an AES and a Serpent object, an XTS and a legacy mode
    object, none keyed. *)
Definition store_algorithms : list EncryptionAlgorithm :=
  [mkEA Reference.AES [] None; mkEA Reference.Serpent [] None].

Definition store_modes : list EncryptionMode :=
  [mkMode EncryptionModeXTS []; mkMode (EncryptionModeLegacy 0) []].

Definition fresh : Machine := mkMachine blank store_algorithms store_modes [].

(** The big-endian bytes of a value of the width. *)
Definition be (T : IntType) (v : Z) : list byte := to_big_endian (Z.to_nat (sizeof T)) v.

(** Key material: the bytes 1, 2, ..., 64, then zeros up to the 256 bytes of
    the key area. *)
Definition keys : list byte :=
  map (fun i => byte_of_Z (Z.of_nat i)) (seq 1 64) ++ zeros 192.

(** The first 188 bytes of a plaintext header, by the offsets at which
    [Deserialize] reads them. *)
Definition fields (m : list byte) (headerVersion requiredMinProgramVersion keyCrc
  hidden volumeDataSize areaStart areaLength flags sectorSize : Z) : list byte :=
  m ++ be uint16 headerVersion ++ be uint16 requiredMinProgramVersion ++ be uint32 keyCrc
    ++ be uint64 0 ++ be uint64 0 ++ be uint64 hidden ++ be uint64 volumeDataSize
    ++ be uint64 areaStart ++ be uint64 areaLength ++ be uint32 flags ++ be uint32 sectorSize
    ++ zeros 120.

(** A plaintext header of 448 bytes: the fields, their checksum plus
    [headerCrcOff], and the key area; the checksum of the key area plus
    [keyCrcOff] is the one stored. *)
Definition plaintext (m : list byte) (headerVersion requiredMinProgramVersion : Z)
  (hidden volumeDataSize areaStart areaLength flags sectorSize : Z)
  (keyCrcOff headerCrcOff : Z) : list byte :=
  let f := fields m headerVersion requiredMinProgramVersion
             (Reference.crc32 keys + keyCrcOff)
             hidden volumeDataSize areaStart areaLength flags sectorSize in
  f ++ be uint32 (Reference.crc32 f + headerCrcOff) ++ keys.

(** A well-formed header of version 5 for a normal volume of 4096-byte
    sectors. *)
Definition good : list byte :=
  plaintext (magic false) 5 0x10b 0 1048576 131072 1048576 0 4096 0 0.

(** The same header, of version 4. *)
Definition version4 : list byte :=
  plaintext (magic false) 4 0x10b 0 1048576 131072 1048576 0 4096 0 0.

(** The same header with the checksum of the key area off by one. *)
Definition bad_key_crc : list byte :=
  plaintext (magic false) 5 0x10b 0 1048576 131072 1048576 0 4096 1 0.

(** Version 4 with the checksum of the key area off by one. *)
Definition version4_bad_key_crc : list byte :=
  plaintext (magic false) 4 0x10b 0 1048576 131072 1048576 0 4096 1 0.

(** A header with the checksum of the key area off by one and a sector
    size of zero. *)
Definition bad_key_crc_sector0 : list byte :=
  plaintext (magic false) 5 0x10b 0 1048576 131072 1048576 0 0 1 0.

(** A header of a sector size that is no multiple of 512. *)
Definition sector1000 : list byte :=
  plaintext (magic false) 5 0x10b 0 1048576 131072 1048576 0 1000 0 0.

(** A header whose [HeaderVersion] is above the current one. *)
Definition version6 : list byte :=
  plaintext (magic false) 6 0x10b 0 1048576 131072 1048576 0 4096 0 0.

(** A header that asks for a program newer than [Version::Number ()],
    with the checksum of the key area off by one. *)
Definition newer_program_bad_key_crc : list byte :=
  plaintext (magic false) 5 0xffff 0 1048576 131072 1048576 0 4096 1 0.

(** A password, another that differs in its last character, a pim and a
    salt. *)
Definition password : list byte := ["p"; "w"]%byte.

Definition wrong_password : list byte := ["p"; "x"]%byte.

Definition pim : Z := 7.

Definition salt : list byte := map (fun i => byte_of_Z (3 * Z.of_nat i)) (seq 0 64).

(** The blob of a plaintext header: the salt, then the header encrypted by
    the algorithm and mode keyed from the header key that the
    key-derivation function derives from [password], [pim] and [salt]. *)
Definition blob_of (k : Reference.Kdf) (e : Reference.Algorithm) (m : ModeType)
  (p : list byte) : list byte :=
  let headerKey := derived k password pim salt in
  salt ++ Cipher_Encrypt e (layout_cipher_key m e headerKey) m
            (layout_mode_key m e headerKey) p.

(** The well-formed header under Whirlpool, AES and the legacy mode. *)
Definition blob : list byte :=
  blob_of Reference.Whirlpool Reference.AES (EncryptionModeLegacy 0) good.

(** A header of version 6 under SHA-512, AES and XTS. *)
Definition blob_version6 : list byte :=
  blob_of Reference.Sha512 Reference.AES EncryptionModeXTS version6.

End Sample.

(** * Properties *)

(** ** Bytes and big-endian integers *)

Lemma byte_to_Z_range (b : byte) : 0 <= byte_to_Z b < 256.
Proof.
  unfold byte_to_Z. pose proof (Byte.to_N_bounded b). lia.
Qed.

Lemma byte_to_of_Z (z : Z) : byte_to_Z (byte_of_Z z) = z mod 256.
Proof.
  unfold byte_to_Z, byte_of_Z.
  pose proof (Z.mod_pos_bound z 256 ltac:(lia)) as Hz.
  destruct (Byte.of_N (Z.to_N (z mod 256))) as [b|] eqn:E.
  - apply Byte.to_of_N in E. simpl. rewrite E. lia.
  - apply Byte.of_N_None_iff in E. lia.
Qed.

Lemma byte_of_to_Z (b : byte) : byte_of_Z (byte_to_Z b) = b.
Proof.
  unfold byte_of_Z. pose proof (byte_to_Z_range b).
  rewrite Z.mod_small by lia. unfold byte_to_Z.
  rewrite N2Z.id, Byte.of_to_N. reflexivity.
Qed.

Lemma length_to_big_endian (w : nat) (v : Z) : length (to_big_endian w v) = w.
Proof. induction w; simpl; congruence. Qed.

Lemma of_to_big_endian (w : nat) (v : Z) :
  of_big_endian (to_big_endian w v) = v mod 256 ^ Z.of_nat w.
Proof.
  induction w as [|w IH].
  - simpl. rewrite Z.mod_1_r. reflexivity.
  - cbn [to_big_endian of_big_endian].
    rewrite length_to_big_endian, IH, byte_to_of_Z.
    replace (Z.of_nat (S w)) with (Z.of_nat w + 1) by lia.
    rewrite Z.pow_add_r, Z.pow_1_r by lia.
    assert (0 < 256 ^ Z.of_nat w) by (apply Z.pow_pos_nonneg; lia).
    rewrite Z.rem_mul_r by lia. lia.
Qed.

Lemma of_big_endian_range (bs : list byte) :
  0 <= of_big_endian bs < 256 ^ Z.of_nat (length bs).
Proof.
  induction bs as [|b bs IH].
  - simpl. lia.
  - cbn [of_big_endian length].
    replace (Z.of_nat (S (length bs))) with (Z.of_nat (length bs) + 1) by lia.
    rewrite Z.pow_add_r, Z.pow_1_r by lia.
    pose proof (byte_to_Z_range b). nia.
Qed.

(** A value of the width survives the store and the load. *)
Lemma big_endian_roundtrip (T : IntType) (v : Z) :
  0 <= v < 2 ^ (8 * sizeof T) ->
  of_big_endian (to_big_endian (Z.to_nat (sizeof T)) v) = v.
Proof.
  intros Hv. rewrite of_to_big_endian.
  apply Z.mod_small.
  replace (256 ^ Z.of_nat (Z.to_nat (sizeof T))) with (2 ^ (8 * sizeof T))
    by (destruct T; reflexivity).
  exact Hv.
Qed.

(** ** Buffers *)

Lemma Size_nonneg (buf : list byte) : 0 <= Size buf.
Proof. unfold Size. lia. Qed.

Lemma Size_app (a b : list byte) : Size (a ++ b) = Size a + Size b.
Proof. unfold Size. rewrite length_app. lia. Qed.

Lemma Size_sub (off n : Z) (buf : list byte) :
  0 <= off -> 0 <= n -> off + n <= Size buf -> Size (sub off n buf) = n.
Proof.
  unfold Size, sub. intros. rewrite length_take, length_drop. lia.
Qed.

Lemma Size_splice (off : Z) (bs buf : list byte) :
  0 <= off -> off + Size bs <= Size buf -> Size (splice off bs buf) = Size buf.
Proof.
  unfold Size, splice. intros.
  rewrite !length_app, length_take, length_drop. lia.
Qed.

Lemma Size_Zero (buf : list byte) : Size (Zero buf) = Size buf.
Proof. unfold Size, Zero. rewrite length_replicate. reflexivity. Qed.

Lemma Size_to_big_endian (T : IntType) (v : Z) :
  Size (to_big_endian (Z.to_nat (sizeof T)) v) = sizeof T.
Proof. unfold Size. rewrite length_to_big_endian. destruct T; reflexivity. Qed.

Lemma sizeof_pos (T : IntType) : 0 < sizeof T <= 8.
Proof. destruct T; simpl; lia. Qed.

(** Reading back what was spliced in. *)
Lemma sub_splice_same (off : Z) (bs buf : list byte) :
  0 <= off -> off + Size bs <= Size buf ->
  sub off (Size bs) (splice off bs buf) = bs.
Proof.
  unfold Size, sub, splice. intros.
  rewrite drop_app_length' by (rewrite length_take; lia).
  rewrite Nat2Z.id. apply take_app_length.
Qed.

(** ** The reference environment *)

Lemma Reference_contracts : @Contracts Reference.environment.
Proof.
  constructor; cbn.
  - intros bs. unfold Reference.crc32. apply Z.mod_pos_bound. lia.
  - intros k n password pim salt Hn. unfold Reference.derive, Size.
    rewrite length_map, length_seq. lia.
  - intros. unfold Reference.encrypt, Size. rewrite length_map. reflexivity.
  - intros. unfold Reference.decrypt, Size. rewrite length_map. reflexivity.
  - intros. lia.
  - lia.
  - lia.
  - intros. lia.
Qed.

(** The check value of CRC-32. *)
Lemma Reference_crc32_check :
  Reference.crc32 ["1"; "2"; "3"; "4"; "5"; "6"; "7"; "8"; "9"]%byte = 0xCBF43926.
Proof. vm_compute. reflexivity. Qed.

(** ** The endian codec *)

Lemma size_t_add_small (a b : Z) :
  0 <= a -> 0 <= b -> a + b < size_t_modulus -> size_t_add a b = a + b.
Proof. intros. unfold size_t_add. apply Z.mod_small. lia. Qed.

Lemma DeserializeEntry_no_wrap (T : IntType) (header : list byte) (offset : Z) :
  0 <= offset -> offset + sizeof T < size_t_modulus ->
  DeserializeEntry T header offset
  = if decide (offset + sizeof T > Size header) then Throw ParameterIncorrect
    else Ok (of_big_endian (sub offset (sizeof T) header), offset + sizeof T).
Proof.
  intros H0 H1. unfold DeserializeEntry, load.
  pose proof (sizeof_pos T).
  rewrite size_t_add_small by lia.
  destruct (decide (offset + sizeof T > Size header)); [reflexivity|].
  replace (offset + sizeof T - sizeof T) with offset by lia.
  destruct (decide _) as [_|Hn]; [reflexivity | lia].
Qed.

Lemma SerializeEntry_no_wrap (T : IntType) (entry : Z) (header : list byte) (offset : Z) :
  0 <= offset -> offset + sizeof T < size_t_modulus ->
  SerializeEntry T entry header offset
  = if decide (offset + sizeof T > Size header) then Throw ParameterIncorrect
    else Ok (splice offset (to_big_endian (Z.to_nat (sizeof T)) entry) header,
             offset + sizeof T).
Proof.
  intros H0 H1. unfold SerializeEntry, store.
  pose proof (sizeof_pos T).
  rewrite size_t_add_small by lia.
  destruct (decide (offset + sizeof T > Size header)); [reflexivity|].
  replace (offset + sizeof T - sizeof T) with offset by lia.
  destruct (decide _) as [_|Hn]; [reflexivity | lia].
Qed.

(** C6, as amended.  For every buffer, every width and every offset whose
    advance does not wrap around [size_t], the advancing operations
    [DeserializeEntry] and [SerializeEntry] advance the offset by [sizeof T]
    before the access, throw [ParameterIncorrect] exactly when the advanced
    offset exceeds the buffer length, and otherwise read or write the
    [sizeof T] bytes before the advanced offset, inside the buffer, the
    write leaving the length as it is: neither is ever a [Fault]. *)
Theorem codec_advancing_bounds_checked
  (T : IntType) (entry : Z) (header : list byte) (offset : Z) :
  0 <= offset -> offset + sizeof T < size_t_modulus ->
  (DeserializeEntry T header offset
   = if decide (offset + sizeof T > Size header) then Throw ParameterIncorrect
     else Ok (of_big_endian (sub offset (sizeof T) header), offset + sizeof T))
  /\ (SerializeEntry T entry header offset
      = if decide (offset + sizeof T > Size header) then Throw ParameterIncorrect
        else Ok (splice offset (to_big_endian (Z.to_nat (sizeof T)) entry) header,
                 offset + sizeof T))
  /\ DeserializeEntry T header offset <> Fault
  /\ SerializeEntry T entry header offset <> Fault
  /\ (forall header', SerializeEntry T entry header offset = Ok (header', offset + sizeof T) ->
      Size header' = Size header).
Proof.
  intros H0 H1.
  rewrite DeserializeEntry_no_wrap, SerializeEntry_no_wrap by assumption.
  repeat split; try (destruct (decide _); discriminate).
  intros header'. destruct (decide _) as [|Hle]; [discriminate|].
  intros [= <-]. apply Size_splice; [assumption|].
  rewrite Size_to_big_endian. lia.
Qed.

Lemma codec_advancing_bounds_checked_witness :
  DeserializeEntry uint16 ["001"; "002"; "003"]%byte 1 = Ok (515, 3)
  /\ SerializeEntry uint16 515 [x00; x00; x00] 1 = Ok ([x00; "002"; "003"]%byte, 3).
Proof.
  pose proof (codec_advancing_bounds_checked uint16 515 ["001"; "002"; "003"]%byte 1
                ltac:(lia) ltac:(vm_compute; reflexivity)) as [Hd _].
  pose proof (codec_advancing_bounds_checked uint16 515 [x00; x00; x00] 1
                ltac:(lia) ltac:(vm_compute; reflexivity)) as [_ [Hs _]].
  split; [exact Hd | exact Hs].
Defined.

(** C6, as stated, fails.  At offset 2 of a 4-byte buffer the check of
    [DeserializeEntryAt] passes and the 4-byte load runs past the end; and
    the error of the advancing read is [ParameterIncorrect], not the
    [Malformed] of the specification. *)
Lemma codec_explicit_offset_reads_past_end :
  DeserializeEntryAt uint32 [x00; x00; x00; x00] 2 = Fault
  /\ size_t_add 0 (sizeof uint16) > Size []
  /\ DeserializeEntry uint16 [] 0 = Throw ParameterIncorrect
  /\ DeserializeEntry uint16 [] 0 <> Throw Malformed.
Proof. repeat split; discriminate. Qed.

(** The advance itself can wrap: from the last offset of [size_t] the check
    passes and the load lies before the buffer. *)
Lemma codec_advance_wraps :
  DeserializeEntry uint16 [x00; x00] (size_t_modulus - 1) = Fault.
Proof. reflexivity. Qed.

(** [DeserializeEntryAt] is checked against the start of the load only. *)
Lemma DeserializeEntryAt_in_bounds (T : IntType) (header : list byte) (offset : Z) :
  0 <= offset -> offset + sizeof T <= Size header ->
  DeserializeEntryAt T header offset = Ok (of_big_endian (sub offset (sizeof T) header)).
Proof.
  intros H0 H1. unfold DeserializeEntryAt, load. pose proof (sizeof_pos T).
  destruct (decide (offset > Size header)); [lia|].
  destruct (decide _); [reflexivity | lia].
Qed.

(** ** The trial-decryption engine: the empty password *)

Section EmptyPassword.

Context {env : Environment}.

(** C9.  Whatever the blob and the lists, [Decrypt] with the empty password
    throws [PasswordEmpty] and leaves the machine as it was: no field of
    the header object is assigned, [Salt] included, and no call of
    [DeriveKey] is recorded. *)
Theorem Decrypt_empty_password
  (encryptedData : list byte) (pim : Z) (kdf : option Pkcs5Kdf) (truecryptMode : bool)
  (keyDerivationFunctions : list Pkcs5Kdf)
  (encryptionAlgorithms encryptionModes : list nat) (s : Machine) :
  Decrypt encryptedData [] pim kdf truecryptMode keyDerivationFunctions
    encryptionAlgorithms encryptionModes s
  = (Throw PasswordEmpty, s).
Proof. reflexivity. Qed.

End EmptyPassword.

(** ** Stepping through a method *)

Section Stepping.

Context {env : Environment}.

Lemma wp_run {A} (c : M A) (Q : Outcome A -> Machine -> Prop) (s : Machine) o s' :
  c s = (o, s') -> wp c Q s <-> Q o s'.
Proof. unfold wp. intros ->. reflexivity. Qed.

Lemma wp_bind {A B} (c : M A) (k : A -> M B) (Q : Outcome B -> Machine -> Prop) s :
  wp c (fun o s' => match o with
                    | Ok a => wp (k a) Q s'
                    | Throw e => Q (Throw e) s'
                    | Fault => Q Fault s'
                    end) s
  -> wp (bind c k) Q s.
Proof. unfold wp, bind. destruct (c s) as [[a|e|] s']; exact id. Qed.

Lemma wp_ret {A} (a : A) (Q : Outcome A -> Machine -> Prop) s :
  Q (Ok a) s -> wp (ret a) Q s.
Proof. exact id. Qed.

Lemma wp_throw {A} (e : Exception) (Q : Outcome A -> Machine -> Prop) s :
  Q (Throw e) s -> wp (throw e) Q s.
Proof. exact id. Qed.

Lemma wp_fault {A} (Q : Outcome A -> Machine -> Prop) s :
  Q Fault s -> wp fault Q s.
Proof. exact id. Qed.

Lemma wp_lift {A} (o : Outcome A) (Q : Outcome A -> Machine -> Prop) s :
  Q o s -> wp (lift o) Q s.
Proof. exact id. Qed.

Lemma wp_get_this (Q : Outcome VolumeHeader -> Machine -> Prop) s :
  Q (Ok (this s)) s -> wp get_this Q s.
Proof. exact id. Qed.

Lemma wp_assign f (Q : Outcome unit -> Machine -> Prop) s :
  Q (Ok tt) (mkMachine (f (this s)) (algorithms s) (modes s) (calls s))
  -> wp (assign f) Q s.
Proof. exact id. Qed.

Lemma wp_record c (Q : Outcome unit -> Machine -> Prop) s :
  Q (Ok tt) (mkMachine (this s) (algorithms s) (modes s) (calls s ++ [c]))
  -> wp (record c) Q s.
Proof. exact id. Qed.

Lemma wp_deref_ea p (Q : Outcome EncryptionAlgorithm -> Machine -> Prop) s :
  Q (match algorithms s !! p with Some e => Ok e | None => Fault end) s
  -> wp (deref_ea p) Q s.
Proof. exact id. Qed.

Lemma wp_deref_mode p (Q : Outcome EncryptionMode -> Machine -> Prop) s :
  Q (match modes s !! p with Some e => Ok e | None => Fault end) s
  -> wp (deref_mode p) Q s.
Proof. exact id. Qed.

Lemma wp_deref_ea_cases p (Q : Outcome EncryptionAlgorithm -> Machine -> Prop) s :
  (forall e, algorithms s !! p = Some e -> Q (Ok e) s) ->
  (algorithms s !! p = None -> Q Fault s) ->
  wp (deref_ea p) Q s.
Proof.
  intros H1 H2. apply wp_deref_ea. destruct (algorithms s !! p); auto.
Qed.

Lemma wp_deref_mode_cases p (Q : Outcome EncryptionMode -> Machine -> Prop) s :
  (forall m, modes s !! p = Some m -> Q (Ok m) s) ->
  (modes s !! p = None -> Q Fault s) ->
  wp (deref_mode p) Q s.
Proof.
  intros H1 H2. apply wp_deref_mode. destruct (modes s !! p); auto.
Qed.

Lemma wp_put_ea p e (Q : Outcome unit -> Machine -> Prop) s :
  Q (Ok tt) (mkMachine (this s) (<[p := e]> (algorithms s)) (modes s) (calls s))
  -> wp (put_ea p e) Q s.
Proof. exact id. Qed.

Lemma wp_put_mode p m (Q : Outcome unit -> Machine -> Prop) s :
  Q (Ok tt) (mkMachine (this s) (algorithms s) (<[p := m]> (modes s)) (calls s))
  -> wp (put_mode p m) Q s.
Proof. exact id. Qed.

Lemma wp_new_ea e (Q : Outcome nat -> Machine -> Prop) s :
  Q (Ok (length (algorithms s)))
    (mkMachine (this s) (algorithms s ++ [e]) (modes s) (calls s))
  -> wp (new_ea e) Q s.
Proof. exact id. Qed.

Lemma wp_new_mode m (Q : Outcome nat -> Machine -> Prop) s :
  Q (Ok (length (modes s)))
    (mkMachine (this s) (algorithms s) (modes s ++ [m]) (calls s))
  -> wp (new_mode m) Q s.
Proof. exact id. Qed.

Lemma wp_eq {A} (c : M A) (s : Machine) (o : Outcome A) (s' : Machine) :
  wp c (fun o' s'' => o' = o /\ s'' = s') s -> c s = (o, s').
Proof. unfold wp. destruct (c s) as [o' s'']. simpl. intros [-> ->]. reflexivity. Qed.

Lemma wp_of_eq {A} (c : M A) (Q : Outcome A -> Machine -> Prop) s o s' :
  c s = (o, s') -> Q o s' -> wp c Q s.
Proof. unfold wp. intros ->. auto. Qed.

Lemma wp_mono {A} (c : M A) (Q Q' : Outcome A -> Machine -> Prop) s :
  (forall o s', Q o s' -> Q' o s') -> wp c Q s -> wp c Q' s.
Proof. unfold wp. auto. Qed.

End Stepping.

(** The projections and setters of the machine state, reduced on a state
    written out. *)
Ltac state_simpl :=
  cbn [this algorithms modes calls
       HeaderSize EncryptedHeaderDataSize EA Pkcs5 HeaderVersion
       RequiredMinProgramVersion VolumeKeyAreaCrc32 VolumeCreationTime
       HeaderCreationTime mVolumeType HiddenVolumeDataSize VolumeDataSize
       EncryptedAreaStart EncryptedAreaLength Flags SectorSize Salt HeaderKey
       DataAreaKey
       set_HeaderSize set_EncryptedHeaderDataSize set_EA set_Pkcs5
       set_HeaderVersion set_RequiredMinProgramVersion set_VolumeKeyAreaCrc32
       set_VolumeCreationTime set_HeaderCreationTime set_mVolumeType
       set_HiddenVolumeDataSize set_VolumeDataSize set_EncryptedAreaStart
       set_EncryptedAreaLength set_Flags set_SectorSize set_Salt set_HeaderKey
       set_DataAreaKey
       ea_type ea_key ea_mode mode_type mode_key].

(** One step of a method whose state is written out. *)
Ltac wp_step :=
  lazymatch goal with
  | |- wp (bind (Deserialize _ _ _ _) _) _ _ => fail
  | |- wp (bind (Decrypt_algorithms _ _ _ _ _ _ _) _) _ _ => fail
  | |- wp (bind _ _) _ _ => apply wp_bind
  | |- wp (ret _) _ _ => apply wp_ret; cbn beta iota
  | |- wp (throw _) _ _ => apply wp_throw; cbn beta iota
  | |- wp fault _ _ => apply wp_fault; cbn beta iota
  | |- wp get_this _ _ => apply wp_get_this; state_simpl; cbn beta iota
  | |- wp (assign _) _ _ => apply wp_assign; state_simpl; cbn beta iota
  | |- wp (record _) _ _ => apply wp_record; state_simpl; cbn beta iota
  | |- wp (deref_ea _) _ _ =>
      apply wp_deref_ea_cases; state_simpl; [intros ? ? | intros ?]; cbn beta iota
  | |- wp (deref_mode _) _ _ =>
      apply wp_deref_mode_cases; state_simpl; [intros ? ? | intros ?]; cbn beta iota
  | |- wp (put_ea _ _) _ _ => apply wp_put_ea; state_simpl; cbn beta iota
  | |- wp (put_mode _ _) _ _ => apply wp_put_mode; state_simpl; cbn beta iota
  | |- wp (new_ea _) _ _ => apply wp_new_ea; state_simpl; cbn beta iota
  | |- wp (new_mode _) _ _ => apply wp_new_mode; state_simpl; cbn beta iota
  | |- wp (lift (Ok _)) _ _ => apply wp_lift; cbn beta iota
  | |- wp (lift (Throw _)) _ _ => apply wp_lift; cbn beta iota
  | |- wp (lift Fault) _ _ => apply wp_lift; cbn beta iota
  | |- wp (let _ := _ in _) _ _ => cbv zeta
  end.

(** ** Reads of a header that holds its fields *)

Lemma DeserializeEntry_at (T : IntType) (header : list byte) (offset offset' : Z) :
  0 <= offset -> offset' = offset + sizeof T -> offset' < size_t_modulus ->
  offset' <= Size header ->
  DeserializeEntry T header offset = Ok (field T offset header, offset').
Proof.
  intros H0 -> H1 H2. rewrite DeserializeEntry_no_wrap by assumption.
  destruct (decide _); [lia | reflexivity].
Qed.

Lemma GetRange_in (buf : list byte) (off n : Z) :
  0 <= off -> 0 <= n -> off + n <= Size buf ->
  GetRange buf off n = Ok (sub off n buf).
Proof.
  intros. unfold GetRange. destruct (decide _); [reflexivity | lia].
Qed.

Lemma CopyFrom_in (dst src : list byte) :
  Size src <= Size dst -> CopyFrom dst src = Ok (splice 0 src dst).
Proof.
  intros. unfold CopyFrom. destruct (decide _); [reflexivity | lia].
Qed.

Lemma Byte_eqb_decide (a b : byte) : Byte.eqb a b = bool_decide (a = b).
Proof.
  destruct (Byte.eqb a b) eqn:E.
  - apply Byte.byte_dec_bl in E. subst. symmetry. apply bool_decide_eq_true_2. reflexivity.
  - apply Byte.eqb_false in E. symmetry. apply bool_decide_eq_false_2. assumption.
Qed.

Lemma magic_differs_in (header : list byte) (c0 c1 c2 c3 : byte) :
  4 <= Size header ->
  magic_differs header c0 c1 c2 c3
  = Ok (negb (bool_decide (sub 0 4 header = [c0; c1; c2; c3]))).
Proof.
  unfold Size. intros H.
  destruct header as [|b0 [|b1 [|b2 [|b3 rest]]]]; simpl in H; try lia.
  unfold magic_differs, differs, or_else, at_index, sub. simpl.
  rewrite !Byte_eqb_decide, take_0.
  repeat case_bool_decide; simplify_eq; simpl; congruence.
Qed.

Section Reads.

Context {env : Environment}.

Lemma header_crc_differs_in (header : list byte) :
  TC_HEADER_OFFSET_HEADER_CRC - TC_HEADER_OFFSET_MAGIC + 4 <= Size header ->
  header_crc_differs header
  = Ok (negb (Crc32_ProcessBuffer
                (sub 0 (TC_HEADER_OFFSET_HEADER_CRC - TC_HEADER_OFFSET_MAGIC) header)
              =? wire_HeaderCrc header)).
Proof.
  intros H. unfold header_crc_differs.
  change (TC_HEADER_OFFSET_HEADER_CRC - TC_HEADER_OFFSET_MAGIC) with 188 in *.
  rewrite GetRange_in by lia. cbn [obind].
  rewrite DeserializeEntryAt_in_bounds by (simpl; lia). reflexivity.
Qed.

(** The two magic checks of lines 165-175 together. *)
Lemma magic_checks (header : list byte) (truecryptMode : bool) :
  4 <= Size header ->
  and_then truecryptMode (magic_differs header "T" "R" "U" "E")
  = Ok (truecryptMode && negb (bool_decide (sub 0 4 header = magic truecryptMode)))
  /\ and_then (negb truecryptMode) (magic_differs header "V" "E" "R" "A")
     = Ok (negb truecryptMode && negb (bool_decide (sub 0 4 header = magic truecryptMode))).
Proof.
  intros H. unfold and_then, magic.
  destruct truecryptMode; simpl; rewrite ?magic_differs_in by assumption; auto.
Qed.

End Reads.

Lemma splice_full (bs buf : list byte) : Size bs = Size buf -> splice 0 bs buf = bs.
Proof.
  unfold Size, splice. intros H. simpl.
  rewrite drop_ge by lia. apply app_nil_r.
Qed.

Lemma Size_SecureBuffer `{env : Environment} (n : Z) : 0 <= n -> Size (SecureBuffer n) = n.
Proof. intros. unfold Size, SecureBuffer. rewrite length_replicate. lia. Qed.

(** Bounds on offsets of the layout. *)
Ltac layout_lia :=
  unfold DataAreaKeyOffset, DataKeyAreaMaxSize, TC_HEADER_OFFSET_KEY_AREA,
    TC_HEADER_OFFSET_MAGIC, TC_HEADER_OFFSET_HEADER_CRC, EncryptedHeaderDataOffset,
    SaltOffset, SaltSize, size_t_modulus in *;
  lia.

(** A read of known outcome, in a header whose size is bounded below in the
    context. *)
Ltac wp_read :=
  lazymatch goal with
  | |- wp (lift (DeserializeEntry ?T ?h ?o)) _ _ =>
      let o' := eval cbv in (o + sizeof T) in
      rewrite (DeserializeEntry_at T h o o')
        by first [reflexivity | unfold size_t_modulus; lia];
      apply wp_lift; cbn beta iota
  | |- wp (lift (GetRange ?b ?o ?n)) _ _ =>
      rewrite (GetRange_in b o n) by layout_lia;
      apply wp_lift; cbn beta iota
  | |- wp (lift (CopyFrom ?d ?r)) _ _ =>
      rewrite (CopyFrom_in d r)
        by (rewrite ?Size_sub, ?Size_SecureBuffer by layout_lia; layout_lia);
      apply wp_lift; cbn beta iota
  end.

(** A case split on what the method branches on. *)
Ltac wp_case :=
  lazymatch goal with
  | |- wp (lift (and_then ?b _)) _ _ => unfold and_then at 1; destruct b eqn:?
  | |- wp (lift ?o) _ _ => destruct o as [?|?|] eqn:?; apply wp_lift; cbn beta iota
  | |- wp (if ?b then _ else _) _ _ =>
      first [ match goal with H : b = _ |- _ => rewrite H end | destruct b eqn:? ]
  | |- wp (match ?x with _ => _ end) _ _ => destruct x eqn:?
  | |- match ?x with _ => _ end => destruct x eqn:?; cbn beta iota
  | |- wp (EA_GetNew _) _ _ => unfold EA_GetNew
  | |- wp (EA_GetKeySize _) _ _ => unfold EA_GetKeySize
  | |- wp (EA_SetKey _ _) _ _ => unfold EA_SetKey
  | |- wp (EA_SetMode _ _) _ _ => unfold EA_SetMode
  | |- wp (EA_GetMode _) _ _ => unfold EA_GetMode
  | |- wp (Mode_GetNew _) _ _ => unfold Mode_GetNew
  | |- wp (Mode_SetKey _ _) _ _ => unfold Mode_SetKey
  | |- wp (Mode_typeid _) _ _ => unfold Mode_typeid
  | |- wp (bound_mode _) _ _ => unfold bound_mode; state_simpl
  | |- wp (EA_Encrypt _ _) _ _ => unfold EA_Encrypt
  | |- wp (EA_Decrypt _ _) _ _ => unfold EA_Decrypt
  | |- wp (nonnull _) _ _ => unfold nonnull
  end.

Lemma lookup_snoc {A} (l : list A) (x : A) : (l ++ [x]) !! length l = Some x.
Proof. apply list_lookup_middle. reflexivity. Qed.

Lemma insert_snoc {A} (l : list A) (x y : A) : <[length l := y]> (l ++ [x]) = l ++ [y].
Proof.
  replace (length l) with (length l + 0)%nat at 1 by lia.
  rewrite insert_app_r. reflexivity.
Qed.

Lemma sub_drop (k off n : Z) (buf : list byte) :
  0 <= k -> 0 <= off ->
  sub off n (drop (Z.to_nat k) buf) = sub (k + off) n buf.
Proof.
  intros. unfold sub. rewrite drop_drop. f_equal. f_equal. lia.
Qed.

(** What is known of the store, brought to bear on a lookup just made. *)
Ltac store_facts :=
  repeat match goal with
  | H : (?l ++ [?x]) !! length ?l = _ |- _ => rewrite lookup_snoc in H
  | H : <[?i := ?x]> ?l !! ?i = _ |- _ =>
      rewrite list_lookup_insert_eq in H
        by (rewrite ?length_insert, ?length_app; simpl; lia)
  | H : Some _ = Some _ |- _ => injection H as <-
  | H : Some _ = None |- _ => discriminate H
  | H : None = Some _ |- _ => discriminate H
  | H1 : ?l !! ?p = Some _, H2 : ?l !! ?p = None |- _ => rewrite H1 in H2; discriminate H2
  | H1 : ?l !! ?p = Some ?a, H2 : ?l !! ?p = Some ?b |- _ =>
      rewrite H1 in H2; injection H2 as <-
  end.

Ltac wp_all := repeat (first [wp_step | wp_case]).
Ltac wp_store := repeat (first [wp_step; store_facts; state_simpl | wp_read | wp_case]).
Ltac wp_known := repeat (first [wp_step | wp_read | wp_case]).

(** The reads of [Deserialize] under their names. *)
Ltac fold_wire :=
  change (field uint16 4) with wire_HeaderVersion in *;
  change (field uint16 6) with wire_RequiredMinProgramVersion in *;
  change (field uint32 8) with wire_VolumeKeyAreaCrc32 in *;
  change (field uint64 12) with wire_VolumeCreationTime in *;
  change (field uint64 20) with wire_HeaderCreationTime in *;
  change (field uint64 28) with wire_HiddenVolumeDataSize in *;
  change (field uint64 36) with wire_VolumeDataSize in *;
  change (field uint64 44) with wire_EncryptedAreaStart in *;
  change (field uint64 52) with wire_EncryptedAreaLength in *;
  change (field uint32 60) with wire_Flags in *;
  change (field uint32 64) with wire_SectorSize in *.

(** The start of [Deserialize] on a header of at least 448 bytes whose
    magic matches. *)
Ltac Deserialize_start Hlen Hmagic :=
  let Hm1 := fresh in
  let Hm2 := fresh in
  lazymatch type of Hmagic with
  | magic_matches ?tc ?header =>
      destruct (magic_checks header tc ltac:(lia)) as [Hm1 Hm2];
      unfold magic_matches in Hmagic;
      rewrite (bool_decide_eq_true_2 _ Hmagic), andb_false_r in Hm1, Hm2;
      unfold Deserialize; rewrite Hm1, Hm2; clear Hm1 Hm2;
      rewrite header_crc_differs_in
        by (change (TC_HEADER_OFFSET_HEADER_CRC - TC_HEADER_OFFSET_MAGIC) with 188; lia)
  end.

(** Two machine states compared field by field. *)
Ltac state_norm :=
  cbv [this algorithms modes calls
       HeaderSize EncryptedHeaderDataSize EA Pkcs5 HeaderVersion
       RequiredMinProgramVersion VolumeKeyAreaCrc32 VolumeCreationTime
       HeaderCreationTime mVolumeType HiddenVolumeDataSize VolumeDataSize
       EncryptedAreaStart EncryptedAreaLength Flags SectorSize Salt HeaderKey
       DataAreaKey
       set_HeaderSize set_EncryptedHeaderDataSize set_EA set_Pkcs5
       set_HeaderVersion set_RequiredMinProgramVersion set_VolumeKeyAreaCrc32
       set_VolumeCreationTime set_HeaderCreationTime set_mVolumeType
       set_HiddenVolumeDataSize set_VolumeDataSize set_EncryptedAreaStart
       set_EncryptedAreaLength set_Flags set_SectorSize set_Salt set_HeaderKey
       set_DataAreaKey parsed].

(** The machine state written out, field by field. *)
Ltac destruct_state s :=
  destruct s as [[hHeaderSize hDataSize hEA hPkcs5 hHeaderVersion hMinProgram
                  hKeyAreaCrc hVolumeTime hHeaderTime hType hHidden hVolumeData
                  hAreaStart hAreaLength hFlags hSectorSize hSalt hHeaderKey
                  hDataAreaKey] algs mds cls].

Lemma SectorSize_invalid_true (x : Z) :
  SectorSize_invalid x = true <-> (x < 512 \/ x > 4096 \/ x mod 512 <> 0).
Proof.
  unfold SectorSize_invalid.
  change TC_MIN_VOLUME_SECTOR_SIZE with 512.
  change TC_MAX_VOLUME_SECTOR_SIZE with 4096.
  change ENCRYPTION_DATA_UNIT_SIZE with 512.
  rewrite !orb_true_iff, !bool_decide_eq_true, negb_true_iff, Z.eqb_neq. tauto.
Qed.

Lemma SectorSize_invalid_false (x : Z) :
  SectorSize_invalid x = false <-> (512 <= x <= 4096 /\ x mod 512 = 0).
Proof.
  pose proof (SectorSize_invalid_true x) as H.
  destruct (SectorSize_invalid x).
  - split; [discriminate|]. intros Hx.
    assert (x < 512 \/ x > 4096 \/ x mod 512 <> 0) by (apply H; reflexivity). lia.
  - split; [|reflexivity]. intros _.
    assert (~ (x < 512 \/ x > 4096 \/ x mod 512 <> 0)) by (rewrite <- H; discriminate).
    lia.
Qed.

Lemma GetRange_outcome (buf : list byte) (off n : Z) :
  GetRange buf off n = Ok (sub off n buf) \/ GetRange buf off n = Throw OutOfRange.
Proof. unfold GetRange. destruct (decide _); auto. Qed.

Lemma CopyFrom_outcome (dst src : list byte) :
  CopyFrom dst src = Ok (splice 0 src dst) \/ CopyFrom dst src = Throw OutOfRange.
Proof. unfold CopyFrom. destruct (decide _); auto. Qed.

Lemma GetRange_Ok (buf : list byte) (off n : Z) r :
  GetRange buf off n = Ok r -> r = sub off n buf.
Proof. destruct (GetRange_outcome buf off n) as [-> | ->]; congruence. Qed.

Lemma CopyFrom_Ok (dst src : list byte) r :
  CopyFrom dst src = Ok r -> r = splice 0 src dst.
Proof. destruct (CopyFrom_outcome dst src) as [-> | ->]; congruence. Qed.

Lemma GetRange_Throw (buf : list byte) (off n : Z) e :
  GetRange buf off n = Throw e -> e = OutOfRange.
Proof. destruct (GetRange_outcome buf off n) as [-> | ->]; congruence. Qed.

Lemma GetRange_Fault (buf : list byte) (off n : Z) : GetRange buf off n <> Fault.
Proof. destruct (GetRange_outcome buf off n) as [-> | ->]; congruence. Qed.

Lemma CopyFrom_Throw (dst src : list byte) e :
  CopyFrom dst src = Throw e -> e = OutOfRange.
Proof. destruct (CopyFrom_outcome dst src) as [-> | ->]; congruence. Qed.

Lemma CopyFrom_Fault (dst src : list byte) : CopyFrom dst src <> Fault.
Proof. destruct (CopyFrom_outcome dst src) as [-> | ->]; congruence. Qed.

(** The conditions of the path taken, as propositions. *)
Ltac path_facts :=
  repeat match goal with
  | H : SectorSize_invalid _ = true |- _ => apply SectorSize_invalid_true in H
  | H : SectorSize_invalid _ = false |- _ => apply SectorSize_invalid_false in H
  | H : bool_decide _ = true |- _ => apply bool_decide_eq_true_1 in H
  | H : bool_decide _ = false |- _ => apply bool_decide_eq_false_1 in H
  | H : _ && _ = true |- _ => apply andb_true_iff in H; destruct H
  | H : _ && _ = false |- _ => apply andb_false_iff in H; destruct H
  | H : _ || _ = true |- _ => apply orb_true_iff in H; destruct H
  | H : _ || _ = false |- _ => apply orb_false_iff in H; destruct H
  | H : negb _ = true |- _ => apply negb_true_iff in H
  | H : negb _ = false |- _ => apply negb_false_iff in H
  | H : (_ =? _) = true |- _ => apply Z.eqb_eq in H
  | H : (_ =? _) = false |- _ => apply Z.eqb_neq in H
  | H : GetRange _ _ _ = Ok _ |- _ => apply GetRange_Ok in H; subst
  | H : CopyFrom _ _ = Ok _ |- _ => apply CopyFrom_Ok in H; subst
  | H : GetRange _ _ _ = Throw _ |- _ => apply GetRange_Throw in H; subst
  | H : CopyFrom _ _ = Throw _ |- _ => apply CopyFrom_Throw in H; subst
  | H : GetRange _ _ _ = Fault |- _ => destruct (GetRange_Fault _ _ _ H)
  | H : CopyFrom _ _ = Fault |- _ => destruct (CopyFrom_Fault _ _ H)
  | H : true = false |- _ => discriminate H
  | H : false = true |- _ => discriminate H
  | H : decide _ = _ |- _ => clear H
  end.

(** ** Deserialize *)

(** The checks as propositions, unfolded. *)
Ltac unfold_checks :=
  unfold rejected, accepted, gates_passed, version_in_range, header_crc_matches,
    key_crc_matches, program_version_accepted, platform_accepts,
    coerced_SectorSize in *;
  change TC_SECTOR_SIZE_LEGACY with 512 in *.

Ltac solve_check :=
  repeat match goal with
         | |- _ /\ _ => split
         | |- _ -> _ => intro
         end;
  first [assumption | lia | congruence | tauto
        | apply SectorSize_invalid_false; lia
        | (left; assumption) | (right; lia) | (right; assumption) | (left; lia)].

(** Every way of being rejected contradicts the path taken. *)
Ltac refute_rejected :=
  intros [?|[?|[?|?]]]; exfalso;
  repeat match goal with H : _ /\ _ |- _ => destruct H end;
  path_facts;
  repeat match goal with H : _ \/ _ |- _ => destruct H end;
  solve [first [lia | congruence | tauto]].

Section DeserializeVerdict.

Context {env : Environment}.

(** C2, as amended.  On a header of the size of the header object that
    holds its fields, [Deserialize] returns false, throwing nothing and
    leaving its two references as they were, exactly when one of the four
    checks fails after those before it have passed: the magic differs; or
    the magic matches and [HeaderVersion] is below
    [MinAllowedHeaderVersion]; or the version is in range and at least 4
    and the header checksum differs; or every gate up to the sector size
    has passed (the minimum program version and the sector size among
    them) and the checksum of the key area differs.  And when the magic
    matches, a [HeaderVersion] not below the minimum and above
    [CurrentHeaderVersion] throws [HigherVersionRequired]. *)
Theorem Deserialize_returns_false_exactly
  (header : list byte) (ea mode : nat) (truecryptMode : bool) (s : Machine) :
  Size header = EncryptedHeaderDataSize (this s) ->
  DataAreaKeyOffset + DataKeyAreaMaxSize <= Size header ->
  wp (Deserialize header ea mode truecryptMode)
     (fun o s' =>
        (o = Ok (false, (ea, mode)) <-> rejected truecryptMode header)
        /\ (forall r, o = Ok (false, r) -> r = (ea, mode))
        /\ (magic_matches truecryptMode header ->
            MinAllowedHeaderVersion <= wire_HeaderVersion header ->
            wire_HeaderVersion header > CurrentHeaderVersion ->
            o = Throw HigherVersionRequired)) s.
Proof.
  intros Hsize Hlen.
  destruct_state s. cbn [this EncryptedHeaderDataSize] in Hsize.
  change (DataAreaKeyOffset + DataKeyAreaMaxSize) with 448 in Hlen.
  destruct (decide (sub 0 4 header = magic truecryptMode)) as [Hmagic|Hmagic];
    fold (magic_matches truecryptMode header) in Hmagic.
  - pose proof Hmagic as Hmagic'.
    Deserialize_start Hlen Hmagic.
    destruct truecryptMode; cbn [negb andb] in *.
    all: wp_known.
    all: state_simpl; fold_wire; path_facts.
    all: try (exfalso; first [lia | tauto]).
    all: unfold_checks.
    all: try destruct (decide (wire_HeaderVersion header < 5)); try lia.
    all: (split; [split|split]).
    all: try discriminate.
    all: try (intros r [= <-]; reflexivity).
    all: try (intros _; reflexivity).
    all: try (intros; exfalso; lia).
    all: try (intros _;
         first [ (right; left; solve [solve_check])
               | (right; right; left; solve [solve_check])
               | (right; right; right; solve [solve_check]) ]).
    all: refute_rejected.
  - assert (Hrej : rejected truecryptMode header) by (left; assumption).
    destruct (magic_checks header truecryptMode ltac:(lia)) as [Hm1 Hm2].
    unfold magic_matches in Hmagic.
    rewrite (bool_decide_eq_false_2 _ Hmagic) in Hm1, Hm2.
    unfold Deserialize. rewrite Hm1, Hm2.
    destruct truecryptMode; cbn [negb andb] in *.
    all: wp_known.
    all: try (exfalso; first [lia | tauto]).
    all: split; [split; [intros _; assumption | reflexivity]|].
    all: split; [intros r [= <-]; reflexivity|].
    all: intros Hm; exfalso; apply Hmagic, Hm.
Qed.

End DeserializeVerdict.

Ltac by_computation := vm_compute; first [reflexivity | congruence].

Lemma Deserialize_returns_false_exactly_witness :
  Size Sample.bad_key_crc = EncryptedHeaderDataSize (this Sample.fresh)
  /\ DataAreaKeyOffset + DataKeyAreaMaxSize <= Size Sample.bad_key_crc
  /\ (Deserialize (env := Reference.environment) Sample.bad_key_crc 0 0 false Sample.fresh).1
     = Ok (false, (0%nat, 0%nat)).
Proof.
  assert (H1 : Size Sample.bad_key_crc = EncryptedHeaderDataSize (this Sample.fresh))
    by reflexivity.
  assert (H2 : DataAreaKeyOffset + DataKeyAreaMaxSize <= Size Sample.bad_key_crc)
    by (vm_compute; discriminate).
  split; [exact H1|]. split; [exact H2|].
  pose proof (Deserialize_returns_false_exactly (env := Reference.environment)
                Sample.bad_key_crc 0 0 false Sample.fresh H1 H2) as H.
  unfold wp in H. destruct H as [[_ H] _]. apply H.
  right; right; right.
  unfold gates_passed, magic_matches, version_in_range, header_crc_matches,
    program_version_accepted, platform_accepts, key_crc_matches.
  repeat apply conj; try (vm_compute; congruence).
  left. reflexivity.
Defined.

(** C2, as stated, fails.  A header of version 5 with the right magic and
    header checksum, a sector size of zero and a checksum of the key area
    that differs: the claim has [Deserialize] return false for the key
    area; the sector size is checked first and [ParameterIncorrect] is
    thrown. *)
Lemma Deserialize_key_crc_mismatch_throws :
  Size Sample.bad_key_crc_sector0 = 448
  /\ magic_matches false Sample.bad_key_crc_sector0
  /\ wire_HeaderVersion Sample.bad_key_crc_sector0 = 5
  /\ @header_crc_matches Reference.environment Sample.bad_key_crc_sector0
  /\ ~ @key_crc_matches Reference.environment Sample.bad_key_crc_sector0
  /\ (Deserialize (env := Reference.environment) Sample.bad_key_crc_sector0 0 0 false
        Sample.fresh).1
     = Throw ParameterIncorrect.
Proof.
  repeat apply conj; vm_compute; congruence.
Qed.

Section DeserializeProperties.

Context {env : Environment}.

(** C5.  On a header that holds its fields and passes the earlier checks
    (magic, version gates, header checksum, minimum program version),
    [Deserialize] leaves in [SectorSize] the constant 512 when
    [HeaderVersion] is below 5, whatever the wire holds, and the wire value
    otherwise; and it throws [ParameterIncorrect] exactly when that sector
    size is outside [512, 4096] or not a multiple of 512. *)
Theorem Deserialize_sector_size_coercion
  (header : list byte) (ea mode : nat) (truecryptMode : bool) (s : Machine) :
  Size header = EncryptedHeaderDataSize (this s) ->
  DataAreaKeyOffset + DataKeyAreaMaxSize <= Size header ->
  magic_matches truecryptMode header ->
  version_in_range header ->
  (4 <= wire_HeaderVersion header -> header_crc_matches header) ->
  program_version_accepted truecryptMode header ->
  wp (Deserialize header ea mode truecryptMode)
     (fun o s' =>
        (wire_HeaderVersion header < 5 -> SectorSize (this s') = 512)
        /\ (~ wire_HeaderVersion header < 5 ->
            SectorSize (this s') = wire_SectorSize header)
        /\ (o = Throw ParameterIncorrect
            <-> (SectorSize (this s') < 512 \/ SectorSize (this s') > 4096
                 \/ SectorSize (this s') mod 512 <> 0))) s.
Proof.
  intros Hsize Hlen Hmagic Hver Hcrc Hprog.
  destruct_state s. cbn [this EncryptedHeaderDataSize] in Hsize.
  change (DataAreaKeyOffset + DataKeyAreaMaxSize) with 448 in Hlen.
  Deserialize_start Hlen Hmagic.
  unfold header_crc_matches, program_version_accepted, version_in_range in *.
  destruct truecryptMode; cbn [negb andb] in *.
  all: wp_known.
  all: state_simpl; fold_wire; path_facts.
  all: try (exfalso; first [lia | tauto]).
  all: change TC_SECTOR_SIZE_LEGACY with 512 in *.
  all: split; [try lia; reflexivity|]; split; [try lia; reflexivity|].
  all: split; [try discriminate; intros _; lia | try reflexivity; intros; exfalso; lia].
Qed.

End DeserializeProperties.

Lemma Deserialize_sector_size_coercion_witness :
  Size Sample.version4 = EncryptedHeaderDataSize (this Sample.fresh)
  /\ wire_HeaderVersion Sample.version4 = 4
  /\ wire_SectorSize Sample.version4 = 4096
  /\ SectorSize
       (this (Deserialize (env := Reference.environment) Sample.version4 0 0 false
                Sample.fresh).2)
     = 512.
Proof.
  assert (H1 : Size Sample.version4 = EncryptedHeaderDataSize (this Sample.fresh))
    by reflexivity.
  assert (Hv : wire_HeaderVersion Sample.version4 = 4) by by_computation.
  repeat apply conj; [exact H1 | exact Hv | by_computation |].
  apply (Deserialize_sector_size_coercion (env := Reference.environment)
           Sample.version4 0 0 false Sample.fresh H1);
    [by_computation | by_computation | split; by_computation | intros _; by_computation
    | by_computation | rewrite Hv; reflexivity].
Defined.

Section DeserializeFrame.

Context {env : Environment}.

Lemma wp_conj {A} (c : M A) (Q1 Q2 : Outcome A -> Machine -> Prop) s :
  wp c Q1 s -> wp c Q2 s -> wp c (fun o s' => Q1 o s' /\ Q2 o s') s.
Proof. unfold wp. auto. Qed.

(** Whatever the header and the outcome, [Deserialize] records its call and
    leaves the sizes, [EA], [Pkcs5], [Salt] and [HeaderKey] of the header
    object as they were. *)
Lemma Deserialize_frame (header : list byte) (ea mode : nat) (truecryptMode : bool) s :
  wp (Deserialize header ea mode truecryptMode)
     (fun o s' =>
        HeaderSize (this s') = HeaderSize (this s)
        /\ EncryptedHeaderDataSize (this s') = EncryptedHeaderDataSize (this s)
        /\ EA (this s') = EA (this s)
        /\ Pkcs5 (this s') = Pkcs5 (this s)
        /\ Salt (this s') = Salt (this s)
        /\ HeaderKey (this s') = HeaderKey (this s)
        /\ calls s' = calls s ++ [DeserializeCall header]) s.
Proof.
  destruct_state s. unfold Deserialize.
  wp_all.
  all: state_simpl; repeat split; reflexivity.
Qed.

(** When it returns false, the references, [DataAreaKey] and the store of
    cipher objects are as they were too. *)
Lemma Deserialize_false_frame (header : list byte) (ea mode : nat) (truecryptMode : bool) s :
  wp (Deserialize header ea mode truecryptMode)
     (fun o s' =>
        forall r, o = Ok (false, r) ->
        r = (ea, mode)
        /\ DataAreaKey (this s') = DataAreaKey (this s)
        /\ algorithms s' = algorithms s
        /\ modes s' = modes s) s.
Proof.
  destruct_state s. unfold Deserialize.
  wp_all.
  all: intros r; try discriminate.
  all: intros [= <-]; state_simpl; repeat split; reflexivity.
Qed.

(** When it returns true, the volume type is the one the hidden volume
    size tells (invariant I6). *)
Lemma Deserialize_true_VolumeType (header : list byte) (ea mode : nat)
  (truecryptMode : bool) s :
  wp (Deserialize header ea mode truecryptMode)
     (fun o s' =>
        forall r, o = Ok (true, r) ->
        (mVolumeType (this s') = Hidden <-> HiddenVolumeDataSize (this s') <> 0)) s.
Proof.
  destruct_state s. unfold Deserialize.
  wp_all.
  all: intros r; try discriminate.
  all: intros _; state_simpl.
  all: match goal with
       | |- context [decide (?x <> 0)] => destruct (decide (x <> 0))
       end.
  all: split; intros; first [assumption | reflexivity | discriminate | contradiction].
Qed.

(** The outcome on a rejected header. *)
Lemma Deserialize_rejected (header : list byte) (ea mode : nat) (truecryptMode : bool) s :
  Size header = EncryptedHeaderDataSize (this s) ->
  DataAreaKeyOffset + DataKeyAreaMaxSize <= Size header ->
  rejected truecryptMode header ->
  (Deserialize header ea mode truecryptMode s).1 = Ok (false, (ea, mode)).
Proof.
  intros Hsize Hlen Hrej.
  pose proof (Deserialize_returns_false_exactly header ea mode truecryptMode s Hsize Hlen)
    as [H _].
  apply H, Hrej.
Qed.

End DeserializeFrame.

Section DeserializeOutcome.

Context {env : Environment}.

(** The outcome on an accepted header: the fields parsed, the key area
    copied into [DataAreaKey], and a fresh algorithm and a fresh mode keyed
    from the header from [DataAreaKeyOffset] on by the layout of the
    mode. *)
Lemma Deserialize_accepted (header : list byte) (ea mode : nat) (truecryptMode : bool)
  (s : Machine) (e : EncryptionAlgorithm) (m : EncryptionMode) :
  Size header = EncryptedHeaderDataSize (this s) ->
  DataAreaKeyOffset + DataKeyAreaMaxSize <= Size header ->
  accepted truecryptMode header ->
  DataKeyAreaMaxSize <= Size (DataAreaKey (this s)) ->
  algorithms s !! ea = Some e ->
  modes s !! mode = Some m ->
  keys_fit (mode_type m) (ea_type e) (Size header - DataAreaKeyOffset) ->
  let material := drop (Z.to_nat DataAreaKeyOffset) header in
  Deserialize header ea mode truecryptMode s
  = (Ok (true, (length (algorithms s), length (modes s))),
     mkMachine
       (set_DataAreaKey
          (splice 0 (sub DataAreaKeyOffset DataKeyAreaMaxSize header) (DataAreaKey (this s)))
          (parsed truecryptMode header (this s)))
       (algorithms s
        ++ [mkEA (ea_type e) (layout_cipher_key (mode_type m) (ea_type e) material)
              (Some (length (modes s)))])
       (modes s
        ++ [mkMode (mode_type m) (layout_mode_key (mode_type m) (ea_type e) material)])
       (calls s ++ [DeserializeCall header])).
Proof.
  intros Hsize Hlen [(Hmagic & Hver & Hcrc & Hprog & Hsec & Hplat) Hkey] Hdak Hea Hmode Hfit material.
  apply wp_eq.
  destruct_state s. cbn [this EncryptedHeaderDataSize DataAreaKey algorithms modes calls] in *.
  change (DataAreaKeyOffset + DataKeyAreaMaxSize) with 448 in Hlen.
  pose proof Hmagic as Hmagic'.
  Deserialize_start Hlen Hmagic.
  unfold keys_fit in Hfit. destruct Hfit as [Hks Hfit].
  unfold layout_cipher_key, layout_mode_key. subst material.
  destruct (is_XTS (mode_type m)) eqn:Hxts.
  all: destruct truecryptMode; cbn [negb andb] in *.
  all: wp_store.
  all: state_simpl; fold_wire; path_facts.
  all: unfold_checks.
  all: try destruct (decide (wire_HeaderVersion header < 5)); try lia.
  all: try (exfalso; first [lia | tauto | congruence]).
  all: try (exfalso; destruct Hplat; first [lia | congruence]).
  all: split; [reflexivity|].
  all: rewrite ?list_insert_insert_eq, ?insert_snoc.
  all: rewrite ?sub_drop by layout_lia.
  all: state_norm.
  all: unfold coerced_SectorSize; rewrite ?Z.add_0_r.
  all: change TC_SECTOR_SIZE_LEGACY with 512.
  all: destruct (decide (wire_HeaderVersion header < 5)); try lia.
  all: reflexivity.
Qed.

(** The outcome when every gate has passed and the checksum of the key
    area differs: false, with the fields parsed left in the header
    object. *)
Lemma Deserialize_key_crc_rejected (header : list byte) (ea mode : nat)
  (truecryptMode : bool) (s : Machine) :
  Size header = EncryptedHeaderDataSize (this s) ->
  DataAreaKeyOffset + DataKeyAreaMaxSize <= Size header ->
  gates_passed truecryptMode header ->
  ~ key_crc_matches header ->
  Deserialize header ea mode truecryptMode s
  = (Ok (false, (ea, mode)),
     mkMachine (parsed truecryptMode header (this s)) (algorithms s) (modes s)
       (calls s ++ [DeserializeCall header])).
Proof.
  intros Hsize Hlen (Hmagic & Hver & Hcrc & Hprog & Hsec & Hplat) Hkey.
  apply wp_eq.
  destruct_state s. cbn [this EncryptedHeaderDataSize DataAreaKey algorithms modes calls] in *.
  change (DataAreaKeyOffset + DataKeyAreaMaxSize) with 448 in Hlen.
  pose proof Hmagic as Hmagic'.
  Deserialize_start Hlen Hmagic.
  destruct truecryptMode; cbn [negb andb] in *.
  all: wp_known.
  all: state_simpl; fold_wire; path_facts.
  all: unfold_checks.
  all: try destruct (decide (wire_HeaderVersion header < 5)); try lia.
  all: try (exfalso; first [lia | tauto | congruence]).
  all: try (exfalso; destruct Hplat; first [lia | congruence]).
  all: split; [reflexivity|].
  all: state_norm.
  all: unfold coerced_SectorSize.
  all: change TC_SECTOR_SIZE_LEGACY with 512.
  all: destruct (decide (wire_HeaderVersion header < 5)); try lia.
  all: reflexivity.
Qed.

End DeserializeOutcome.

(** ** The trial-decryption engine: one candidate *)

Section Candidate.

Context {env : Environment}.

Lemma kept_refl (s : Machine) : kept s s.
Proof. constructor; auto. Qed.

Lemma kept_trans (s1 s2 s3 : Machine) : kept s1 s2 -> kept s2 s3 -> kept s1 s3.
Proof.
  intros [] []. constructor; try congruence; auto.
Qed.

(** A run of [Deserialize] that returns false keeps the state. *)
Lemma Deserialize_false_kept (p : list byte) (ea mode : nat) (truecryptMode : bool)
  (s s' : Machine) r :
  Deserialize p ea mode truecryptMode s = (Ok (false, r), s') ->
  kept s s' /\ r = (ea, mode) /\ algorithms s' = algorithms s /\ modes s' = modes s
  /\ calls s' = calls s ++ [DeserializeCall p].
Proof.
  intros Hrun.
  pose proof (Deserialize_frame p ea mode truecryptMode s) as Hf.
  pose proof (Deserialize_false_frame p ea mode truecryptMode s) as Hff.
  unfold wp in Hf, Hff. rewrite Hrun in Hf, Hff. cbn [fst snd] in Hf, Hff.
  destruct Hf as (? & ? & ? & ? & ? & ? & ?).
  destruct (Hff r eq_refl) as (? & ? & Ha & Hm).
  repeat split; try assumption.
  - unfold ea_type_at. rewrite Ha. auto.
  - unfold mode_type_at. rewrite Hm. auto.
Qed.

(** Keying a candidate keeps the state. *)
Lemma keyed_kept (headerKey : list byte) (s : Machine) (ea mode : nat)
  (e : EncryptionAlgorithm) (m : EncryptionMode) :
  algorithms s !! ea = Some e ->
  kept s (keyed headerKey s ea mode e m).2.
Proof.
  intros Hea. unfold keyed. cbn [snd].
  constructor; cbn [this algorithms modes]; try reflexivity.
  - intros p t. unfold ea_type_at. cbn [algorithms].
    destruct (decide (ea = p)) as [<-|Hne].
    + rewrite Hea. cbn. intros [= <-].
      rewrite list_lookup_insert_eq by (eapply lookup_lt_Some; eassumption).
      reflexivity.
    + rewrite list_lookup_insert_ne by assumption. auto.
  - intros q t. unfold mode_type_at. cbn [modes].
    destruct (is_XTS (mode_type m)); [|auto].
    destruct (modes s !! q) as [m'|] eqn:Hq; [|discriminate].
    rewrite (lookup_app_l_Some _ _ _ _ Hq). auto.
Qed.

End Candidate.

Section CandidateRun.

Context {env : Environment} (contracts : Contracts).
Variables (encryptedData : list byte) (truecryptMode : bool) (n : Z).

(** The innermost loop body up to the call of [Deserialize], on a
    candidate the algorithm supports. *)
Lemma Decrypt_algorithm_supported
  (pkcs5 : Pkcs5Kdf) (headerKey : list byte) (mode ea : nat) (s : Machine)
  (e : EncryptionAlgorithm) (m : EncryptionMode) Q :
  EncryptedHeaderDataSize (this s) = n -> 0 <= n ->
  EncryptedHeaderDataOffset + n <= Size encryptedData ->
  algorithms s !! ea = Some e ->
  modes s !! mode = Some m ->
  IsModeSupported (ea_type e) (mode_type m) = true ->
  keys_fit (mode_type m) (ea_type e) (Size headerKey) ->
  (is_XTS (mode_type m) = false ->
   mode_key m = layout_mode_key (mode_type m) (ea_type e) headerKey) ->
  wp (trial_tail truecryptMode pkcs5 headerKey
        (trial encryptedData n headerKey (mode_type m) (ea_type e))
        ea (keyed headerKey s ea mode e m).1)
     Q (keyed headerKey s ea mode e m).2 ->
  wp (Decrypt_algorithm encryptedData truecryptMode (SecureBuffer n) pkcs5 headerKey mode ea)
     Q s.
Proof.
  intros Hn Hn0 Henc Hea Hmode Hsup [Hks Hfit] Hlegacy Htail.
  destruct_state s. cbn [this EncryptedHeaderDataSize algorithms modes calls] in *.
  subst hDataSize.
  unfold keyed, trial, layout_cipher_key, layout_mode_key in *.
  cbn [this EncryptedHeaderDataSize algorithms modes calls fst snd] in *.
  assert (Hins : (ea < length algs)%nat) by (eapply lookup_lt_Some; eassumption).
  unfold Decrypt_algorithm.
  assert (Hsup' : negb (IsModeSupported (ea_type e) (mode_type m)) = false)
    by (rewrite Hsup; reflexivity).
  destruct (is_XTS (mode_type m)) eqn:Hxts.
  all: wp_store.
  all: rewrite ?list_insert_insert_eq, ?insert_snoc.
  all: rewrite splice_full
         by (rewrite Size_sub, Size_SecureBuffer by layout_lia; reflexivity).
  all: try rewrite (Hlegacy eq_refl).
  all: exact Htail.
Qed.

(** The innermost loop body on a candidate the algorithm does not
    support: [continue]. *)
Lemma Decrypt_algorithm_unsupported
  (header : list byte) (pkcs5 : Pkcs5Kdf) (headerKey : list byte) (mode ea : nat)
  (s : Machine) (e : EncryptionAlgorithm) (m : EncryptionMode) :
  algorithms s !! ea = Some e ->
  modes s !! mode = Some m ->
  IsModeSupported (ea_type e) (mode_type m) = false ->
  Decrypt_algorithm encryptedData truecryptMode header pkcs5 headerKey mode ea s
  = (Ok (false, mode), s).
Proof.
  intros Hea Hmode Hsup. apply wp_eq.
  destruct_state s. cbn [algorithms modes] in *.
  unfold Decrypt_algorithm.
  assert (Hsup' : negb (IsModeSupported (ea_type e) (mode_type m)) = true)
    by (rewrite Hsup; reflexivity).
  wp_store. split; reflexivity.
Qed.

Lemma parsed_frame (tc : bool) (p : list byte) (h : VolumeHeader) :
  HeaderSize (parsed tc p h) = HeaderSize h
  /\ EncryptedHeaderDataSize (parsed tc p h) = EncryptedHeaderDataSize h
  /\ EA (parsed tc p h) = EA h
  /\ Pkcs5 (parsed tc p h) = Pkcs5 h
  /\ Salt (parsed tc p h) = Salt h
  /\ HeaderKey (parsed tc p h) = HeaderKey h
  /\ DataAreaKey (parsed tc p h) = DataAreaKey h.
Proof. repeat split; reflexivity. Qed.

Lemma trial_tail_rejected (pkcs5 : Pkcs5Kdf) (headerKey p : list byte) (ea mode : nat)
  (s : Machine) :
  Size p = EncryptedHeaderDataSize (this s) ->
  DataAreaKeyOffset + DataKeyAreaMaxSize <= Size p ->
  rejected truecryptMode p ->
  exists s',
    trial_tail truecryptMode pkcs5 headerKey p ea mode s = (Ok (false, mode), s')
    /\ kept s s' /\ algorithms s' = algorithms s /\ modes s' = modes s
    /\ calls s' = calls s ++ [DeserializeCall p].
Proof.
  intros Hsize Hlen Hrej.
  pose proof (Deserialize_rejected p ea mode truecryptMode s Hsize Hlen Hrej) as Ho.
  unfold trial_tail, bind.
  destruct (Deserialize p ea mode truecryptMode s) as [o s'] eqn:Hrun.
  cbn [fst] in Ho. subst o.
  exists s'. split; [reflexivity|].
  destruct (Deserialize_false_kept _ _ _ _ _ _ _ Hrun) as (? & _ & ? & ? & ?).
  auto.
Qed.

Lemma trial_tail_accepted (pkcs5 : Pkcs5Kdf) (headerKey p : list byte) (ea mode : nat)
  (s : Machine) (e : EncryptionAlgorithm) (m : EncryptionMode) :
  Size p = EncryptedHeaderDataSize (this s) ->
  DataAreaKeyOffset + DataKeyAreaMaxSize <= Size p ->
  accepted truecryptMode p ->
  DataKeyAreaMaxSize <= Size (DataAreaKey (this s)) ->
  Size headerKey <= Size (HeaderKey (this s)) ->
  algorithms s !! ea = Some e ->
  modes s !! mode = Some m ->
  keys_fit (mode_type m) (ea_type e) (Size p - DataAreaKeyOffset) ->
  exists s',
    trial_tail truecryptMode pkcs5 headerKey p ea mode s
    = (Ok (true, length (modes s)), s')
    /\ latched truecryptMode pkcs5 headerKey p (mode_type m) (ea_type e) s s'
    /\ calls s' = calls s ++ [DeserializeCall p].
Proof.
  intros Hsize Hlen Hacc Hdak Hhk Hea Hmode Hfit.
  unfold trial_tail, bind at 1.
  rewrite (Deserialize_accepted p ea mode truecryptMode s e m) by assumption.
  cbv zeta.
  unfold bind, get_this, lift, assign, ret.
  cbn [this algorithms modes calls].
  change (HeaderKey (set_DataAreaKey _ (parsed _ _ ?h))) with (HeaderKey h).
  rewrite CopyFrom_in by assumption.
  eexists. split; [reflexivity|].
  split; [|reflexivity].
  exists (this s), (length (algorithms s)), (length (modes s)).
  cbn [this algorithms modes].
  rewrite !lookup_snoc.
  repeat split; reflexivity.
Qed.

End CandidateRun.

(** ** The trial-decryption engine: the loops *)

Section Search.

Context {env : Environment} (contracts : Contracts).
Variables (encryptedData : list byte) (truecryptMode : bool) (n : Z).
Hypothesis Hn : DataAreaKeyOffset + DataKeyAreaMaxSize <= n.
Hypothesis Henc : EncryptedHeaderDataOffset + n <= Size encryptedData.
Hypothesis Harea : GetLargestSerializedKeySize <= DataKeyAreaMaxSize.

Lemma keys_fit_largest (m : ModeType) (e : EAType) :
  keys_fit m e GetLargestSerializedKeySize.
Proof.
  pose proof (KeySize_range contracts e).
  pose proof (LegacyArea_nonneg contracts).
  unfold keys_fit, GetLargestSerializedKeySize.
  split; [lia|].
  destruct (is_XTS m) eqn:Hx.
  - destruct (decide _); lia.
  - pose proof (ModeKeySize_range contracts m Hx).
    destruct (decide _); lia.
Qed.

Lemma keys_fit_mono (m : ModeType) (e : EAType) (a b : Z) :
  keys_fit m e a -> a <= b -> keys_fit m e b.
Proof.
  unfold keys_fit. intros [H0 H] Hab. split; [assumption|].
  destruct (is_XTS m); lia.
Qed.

Lemma Size_trial (headerKey : list byte) (m : ModeType) (e : EAType) :
  Size (trial encryptedData n headerKey m e) = n.
Proof.
  unfold trial. rewrite (Decrypt_size contracts). apply Size_sub; layout_lia.
Qed.

Lemma layout_mode_key_legacy (m : ModeType) (e : EAType) (headerKey : list byte) :
  is_XTS m = false ->
  layout_mode_key m e headerKey = sub 0 (Mode_GetKeySize m) headerKey.
Proof. unfold layout_mode_key. intros ->. reflexivity. Qed.

Lemma ea_type_at_Some (s : Machine) (p : nat) (t : EAType) :
  ea_type_at s p = Some t <-> exists e, algorithms s !! p = Some e /\ ea_type e = t.
Proof.
  unfold ea_type_at. destruct (algorithms s !! p) as [e|]; cbn.
  - split; [intros [= <-]; eauto | intros (e' & [= <-] & <-); reflexivity].
  - split; [discriminate | intros (e' & [=] & _)].
Qed.

Lemma mode_ready_keyed (headerKey : list byte) (s : Machine) (ea mode : nat)
  (e : EncryptionAlgorithm) (m : EncryptionMode) :
  modes s !! mode = Some m ->
  (is_XTS (mode_type m) = false ->
   mode_key m = sub 0 (Mode_GetKeySize (mode_type m)) headerKey) ->
  modes (keyed headerKey s ea mode e m).2 !! (keyed headerKey s ea mode e m).1
  = Some (mkMode (mode_type m) (layout_mode_key (mode_type m) (ea_type e) headerKey)).
Proof.
  intros Hm Hkey. unfold keyed. cbn [fst snd modes].
  destruct (is_XTS (mode_type m)) eqn:Hx.
  - apply lookup_snoc.
  - rewrite Hm. rewrite layout_mode_key_legacy by exact Hx.
    rewrite <- (Hkey eq_refl). destruct m; reflexivity.
Qed.

Lemma Decrypt_algorithm_passed (pkcs5 : Pkcs5Kdf) (headerKey : list byte) (mode ea : nat)
  (s : Machine) (t : EAType) (mt : ModeType) :
  EncryptedHeaderDataSize (this s) = n ->
  Size headerKey = GetLargestSerializedKeySize ->
  ea_type_at s ea = Some t ->
  mode_ready headerKey mt s mode ->
  (IsModeSupported t mt = true -> rejected truecryptMode (trial encryptedData n headerKey mt t)) ->
  exists mode' s',
    Decrypt_algorithm encryptedData truecryptMode (SecureBuffer n) pkcs5 headerKey mode ea s
    = (Ok (false, mode'), s')
    /\ kept s s'
    /\ mode_ready headerKey mt s' mode'
    /\ calls s' = calls s ++ tried_algorithms encryptedData n headerKey mt [t].
Proof.
  intros Hsize Hhk Hea (m & Hm & <- & Hmkey) Hrej.
  apply ea_type_at_Some in Hea as (e & He & <-).
  unfold tried_algorithms.
  destruct (IsModeSupported (ea_type e) (mode_type m)) eqn:Hsup.
  - rewrite filter_cons_True, filter_nil by assumption. cbn [map].
    pose proof (mode_ready_keyed headerKey s ea mode e m Hm Hmkey) as Hready.
    pose proof (keyed_kept headerKey s ea mode e m He) as Hkept.
    destruct (keyed headerKey s ea mode e m) as [mode1 s1] eqn:Hkeyed.
    cbn [fst snd] in *.
    assert (Hthis : this s1 = this s).
    { unfold keyed in Hkeyed. injection Hkeyed as _ <-. reflexivity. }
    assert (Hcalls : calls s1 = calls s).
    { unfold keyed in Hkeyed. injection Hkeyed as _ <-. reflexivity. }
    destruct (trial_tail_rejected truecryptMode pkcs5 headerKey
                (trial encryptedData n headerKey (mode_type m) (ea_type e)) ea mode1 s1)
      as (s' & Htail & Hk' & Ha' & Hm' & Hc').
    { rewrite Size_trial, Hthis. symmetry. exact Hsize. }
    { rewrite Size_trial. exact Hn. }
    { apply Hrej. reflexivity. }
    exists mode1, s'. split.
    + apply wp_eq.
      eapply Decrypt_algorithm_supported; try eassumption.
      * layout_lia.
      * rewrite Hhk. apply keys_fit_largest.
      * intros Hx. rewrite layout_mode_key_legacy by assumption. auto.
      * rewrite Hkeyed. cbn [fst snd].
        eapply wp_of_eq; [exact Htail | split; reflexivity].
    + split; [eapply kept_trans; eassumption|].
      split.
      * eexists. rewrite Hm'. split; [exact Hready|]. cbn [mode_type mode_key].
        split; [reflexivity|]. intros Hx. apply layout_mode_key_legacy. exact Hx.
      * rewrite Hc', Hcalls. reflexivity.
  - rewrite filter_cons_False, filter_nil by (rewrite Hsup; discriminate).
    cbn [map]. rewrite app_nil_r.
    exists mode, s. split.
    + eapply Decrypt_algorithm_unsupported; eassumption.
    + split; [apply kept_refl|]. split; [|reflexivity].
      exists m. auto.
Qed.

Lemma latched_this (pkcs5 : Pkcs5Kdf) (headerKey p : list byte) (mt : ModeType)
  (t : EAType) (s0 s s' : Machine) :
  HeaderSize (this s) = HeaderSize (this s0) ->
  EncryptedHeaderDataSize (this s) = EncryptedHeaderDataSize (this s0) ->
  Salt (this s) = Salt (this s0) ->
  HeaderKey (this s) = HeaderKey (this s0) ->
  DataAreaKey (this s) = DataAreaKey (this s0) ->
  latched truecryptMode pkcs5 headerKey p mt t s s' ->
  latched truecryptMode pkcs5 headerKey p mt t s0 s'.
Proof.
  intros H1 H2 H3 H4 H5 (h & ea & mode & Hthis & ? & ? & ? & ? & ?).
  exists h, ea, mode. rewrite <- H1, <- H2, <- H3, <- H4, <- H5.
  repeat split; assumption.
Qed.

Lemma latched_kept (pkcs5 : Pkcs5Kdf) (headerKey p : list byte) (mt : ModeType)
  (t : EAType) (s0 s s' : Machine) :
  kept s0 s ->
  latched truecryptMode pkcs5 headerKey p mt t s s' ->
  latched truecryptMode pkcs5 headerKey p mt t s0 s'.
Proof. intros []. apply latched_this; assumption. Qed.

Lemma Decrypt_algorithm_found (pkcs5 : Pkcs5Kdf) (headerKey : list byte) (mode ea : nat)
  (s : Machine) (t : EAType) (mt : ModeType) :
  EncryptedHeaderDataSize (this s) = n ->
  Size headerKey = GetLargestSerializedKeySize ->
  ea_type_at s ea = Some t ->
  mode_ready headerKey mt s mode ->
  IsModeSupported t mt = true ->
  accepted truecryptMode (trial encryptedData n headerKey mt t) ->
  DataKeyAreaMaxSize <= Size (DataAreaKey (this s)) ->
  GetLargestSerializedKeySize <= Size (HeaderKey (this s)) ->
  exists mode' s',
    Decrypt_algorithm encryptedData truecryptMode (SecureBuffer n) pkcs5 headerKey mode ea s
    = (Ok (true, mode'), s')
    /\ latched truecryptMode pkcs5 headerKey (trial encryptedData n headerKey mt t) mt t s s'
    /\ calls s' = calls s ++ [DeserializeCall (trial encryptedData n headerKey mt t)].
Proof.
  intros Hsize Hhk Hea (m & Hm & <- & Hmkey) Hsup Hacc Hdak Hhkbuf.
  apply ea_type_at_Some in Hea as (e & He & <-).
  pose proof (mode_ready_keyed headerKey s ea mode e m Hm Hmkey) as Hready.
  assert (Hlook : algorithms (keyed headerKey s ea mode e m).2 !! ea
                  = Some (mkEA (ea_type e)
                            (layout_cipher_key (mode_type m) (ea_type e) headerKey)
                            (Some (keyed headerKey s ea mode e m).1))).
  { unfold keyed. cbn [fst snd algorithms].
    apply list_lookup_insert_eq. eapply lookup_lt_Some; eassumption. }
  destruct (keyed headerKey s ea mode e m) as [mode1 s1] eqn:Hkeyed.
  cbn [fst snd] in *.
  assert (Hthis : this s1 = this s).
  { unfold keyed in Hkeyed. injection Hkeyed as _ <-. reflexivity. }
  assert (Hcalls : calls s1 = calls s).
  { unfold keyed in Hkeyed. injection Hkeyed as _ <-. reflexivity. }
  destruct (trial_tail_accepted truecryptMode pkcs5 headerKey
              (trial encryptedData n headerKey (mode_type m) (ea_type e)) ea mode1 s1
              (mkEA (ea_type e) (layout_cipher_key (mode_type m) (ea_type e) headerKey)
                 (Some mode1))
              (mkMode (mode_type m) (layout_mode_key (mode_type m) (ea_type e) headerKey)))
    as (s' & Htail & Hl' & Hc').
  { rewrite Size_trial, Hthis. symmetry. exact Hsize. }
  { rewrite Size_trial. exact Hn. }
  { exact Hacc. }
  { rewrite Hthis. exact Hdak. }
  { rewrite Hthis, Hhk. exact Hhkbuf. }
  { exact Hlook. }
  { exact Hready. }
  { cbn [mode_type ea_type]. rewrite Size_trial.
    eapply keys_fit_mono; [apply keys_fit_largest|]. layout_lia. }
  cbn [mode_type ea_type] in Hl'.
  eexists _, s'. split.
  - apply wp_eq.
    eapply Decrypt_algorithm_supported; try eassumption.
    + layout_lia.
    + rewrite Hhk. apply keys_fit_largest.
    + intros Hx. rewrite layout_mode_key_legacy by assumption. auto.
    + rewrite Hkeyed. cbn [fst snd].
      eapply wp_of_eq; [exact Htail | split; reflexivity].
  - split.
    + eapply latched_this; [..|exact Hl']; rewrite Hthis; reflexivity.
    + rewrite Hc', Hcalls. reflexivity.
Qed.

Lemma tried_algorithms_cons (headerKey : list byte) (mt : ModeType) (t : EAType)
  (ts : list EAType) :
  tried_algorithms encryptedData n headerKey mt (t :: ts)
  = tried_algorithms encryptedData n headerKey mt [t]
    ++ tried_algorithms encryptedData n headerKey mt ts.
Proof.
  unfold tried_algorithms. rewrite <- map_app. f_equal.
  change (t :: ts) with ([t] ++ ts). apply list.filter_app.
Qed.

Lemma typed_kept (s s' : Machine) (eas : list nat) (ts : list EAType) :
  kept s s' ->
  Forall2 (fun p t => ea_type_at s p = Some t) eas ts ->
  Forall2 (fun p t => ea_type_at s' p = Some t) eas ts.
Proof.
  intros Hk. apply Forall2_impl. intros p t. apply (kept_ea_types _ _ Hk).
Qed.

Lemma Decrypt_algorithms_passed (pkcs5 : Pkcs5Kdf) (headerKey : list byte) (mt : ModeType)
  (eas : list nat) :
  forall (ts : list EAType) (s : Machine) (mode : nat),
  Forall2 (fun p t => ea_type_at s p = Some t) eas ts ->
  EncryptedHeaderDataSize (this s) = n ->
  Size headerKey = GetLargestSerializedKeySize ->
  mode_ready headerKey mt s mode ->
  Forall (passed truecryptMode encryptedData n headerKey mt) ts ->
  exists s',
    Decrypt_algorithms encryptedData truecryptMode (SecureBuffer n) pkcs5 headerKey mode eas s
    = (Ok false, s')
    /\ kept s s'
    /\ calls s' = calls s ++ tried_algorithms encryptedData n headerKey mt ts.
Proof.
  induction eas as [|ea eas IH]; intros ts s mode Htyped Hsize Hhk Hready Hrej.
  - apply Forall2_nil_inv_l in Htyped as ->.
    exists s. split; [reflexivity|]. split; [apply kept_refl|].
    unfold tried_algorithms. cbn. rewrite app_nil_r. reflexivity.
  - apply Forall2_cons_inv_l in Htyped as (t & ts' & Ht & Hts & ->).
    apply Forall_cons_1 in Hrej as [Hrej1 Hrej'].
    destruct (Decrypt_algorithm_passed pkcs5 headerKey mode ea s t mt
                Hsize Hhk Ht Hready Hrej1)
      as (mode1 & s1 & Hrun & Hk1 & Hready1 & Hc1).
    destruct (IH ts' s1 mode1) as (s' & Hrun' & Hk' & Hc'); try assumption.
    { eapply typed_kept; eassumption. }
    { rewrite (kept_DataSize _ _ Hk1). exact Hsize. }
    exists s'. split.
    + cbn [Decrypt_algorithms]. unfold bind at 1. rewrite Hrun. exact Hrun'.
    + split; [eapply kept_trans; eassumption|].
      rewrite Hc', Hc1, (tried_algorithms_cons headerKey mt t ts'), app_assoc. reflexivity.
Qed.

Lemma Decrypt_algorithms_found (pkcs5 : Pkcs5Kdf) (headerKey : list byte) (mt : ModeType)
  (ea : nat) (t : EAType) (E2 : list nat) (E1 : list nat) :
  forall (T1 : list EAType) (s : Machine) (mode : nat),
  Forall2 (fun p t => ea_type_at s p = Some t) E1 T1 ->
  ea_type_at s ea = Some t ->
  EncryptedHeaderDataSize (this s) = n ->
  Size headerKey = GetLargestSerializedKeySize ->
  mode_ready headerKey mt s mode ->
  Forall (passed truecryptMode encryptedData n headerKey mt) T1 ->
  IsModeSupported t mt = true ->
  accepted truecryptMode (trial encryptedData n headerKey mt t) ->
  DataKeyAreaMaxSize <= Size (DataAreaKey (this s)) ->
  GetLargestSerializedKeySize <= Size (HeaderKey (this s)) ->
  exists s',
    Decrypt_algorithms encryptedData truecryptMode (SecureBuffer n) pkcs5 headerKey mode
      (E1 ++ ea :: E2) s
    = (Ok true, s')
    /\ latched truecryptMode pkcs5 headerKey (trial encryptedData n headerKey mt t) mt t s s'
    /\ calls s' = calls s ++ tried_algorithms encryptedData n headerKey mt T1
                 ++ [DeserializeCall (trial encryptedData n headerKey mt t)].
Proof.
  induction E1 as [|p E1 IH];
    intros T1 s mode Htyped Ht Hsize Hhk Hready Hrej Hsup Hacc Hdak Hhkbuf.
  - apply Forall2_nil_inv_l in Htyped as ->.
    destruct (Decrypt_algorithm_found pkcs5 headerKey mode ea s t mt)
      as (mode1 & s' & Hrun & Hl & Hc); try assumption.
    exists s'. split.
    + cbn [app Decrypt_algorithms]. unfold bind at 1. rewrite Hrun. reflexivity.
    + split; [assumption|]. rewrite Hc. reflexivity.
  - apply Forall2_cons_inv_l in Htyped as (t1 & T1' & Ht1 & Hts & ->).
    apply Forall_cons_1 in Hrej as [Hrej1 Hrej'].
    destruct (Decrypt_algorithm_passed pkcs5 headerKey mode p s t1 mt
                Hsize Hhk Ht1 Hready Hrej1)
      as (mode1 & s1 & Hrun & Hk1 & Hready1 & Hc1).
    destruct (IH T1' s1 mode1) as (s' & Hrun' & Hl' & Hc'); try assumption.
    { eapply typed_kept; eassumption. }
    { apply (kept_ea_types _ _ Hk1). exact Ht. }
    { rewrite (kept_DataSize _ _ Hk1). exact Hsize. }
    { rewrite (kept_DataAreaKey _ _ Hk1). exact Hdak. }
    { rewrite (kept_HeaderKey _ _ Hk1). exact Hhkbuf. }
    exists s'. split.
    + cbn [app Decrypt_algorithms]. unfold bind at 1. rewrite Hrun. exact Hrun'.
    + split; [eapply latched_kept; eassumption|].
      rewrite Hc', Hc1, (tried_algorithms_cons headerKey mt t1 T1'), !app_assoc. reflexivity.
Qed.

Lemma mode_type_at_Some (s : Machine) (q : nat) (t : ModeType) :
  mode_type_at s q = Some t <-> exists m, modes s !! q = Some m /\ mode_type m = t.
Proof.
  unfold mode_type_at. destruct (modes s !! q) as [m|]; cbn.
  - split; [intros [= <-]; eauto | intros (m' & [= <-] & <-); reflexivity].
  - split; [discriminate | intros (m' & [=] & _)].
Qed.

Lemma GetLargestSerializedKeySize_legacy (mt : ModeType) :
  is_XTS mt = false -> 0 <= Mode_GetKeySize mt <= GetLargestSerializedKeySize.
Proof.
  intros Hx. pose proof (ModeKeySize_range contracts mt Hx).
  pose proof (LargestKeySize_nonneg contracts).
  unfold GetLargestSerializedKeySize. destruct (decide _); lia.
Qed.

(** Line 108: the head of the middle loop keys a legacy mode in place. *)
Lemma Decrypt_modes_step (pkcs5 : Pkcs5Kdf) (headerKey : list byte) (eas : list nat)
  (mode : nat) (rest : list nat) (s : Machine) (mt : ModeType) :
  mode_type_at s mode = Some mt ->
  Size headerKey = GetLargestSerializedKeySize ->
  exists s1,
    kept s s1 /\ this s1 = this s /\ calls s1 = calls s
    /\ mode_ready headerKey mt s1 mode
    /\ Decrypt_modes encryptedData truecryptMode (SecureBuffer n) pkcs5 headerKey eas
         (mode :: rest) s
       = (do returned <- Decrypt_algorithms encryptedData truecryptMode (SecureBuffer n)
                           pkcs5 headerKey mode eas;
          if returned : bool then ret true
          else Decrypt_modes encryptedData truecryptMode (SecureBuffer n) pkcs5 headerKey
                 eas rest) s1.
Proof.
  intros Hmt Hhk. apply mode_type_at_Some in Hmt as (m & Hm & <-).
  assert (Hlt : (mode < length (modes s))%nat) by (eapply lookup_lt_Some; eassumption).
  destruct (is_XTS (mode_type m)) eqn:Hx.
  - exists s. split; [apply kept_refl|]. do 2 (split; [reflexivity|]).
    split; [exists m; repeat split; [assumption | congruence]|].
    cbn [Decrypt_modes]. unfold bind at 1 2, Mode_typeid, bind at 1, deref_mode, ret.
    rewrite Hm, Hx. reflexivity.
  - pose proof (GetLargestSerializedKeySize_legacy _ Hx) as Hk.
    exists (mkMachine (this s) (algorithms s)
              (<[mode := mkMode (mode_type m)
                           (sub 0 (Mode_GetKeySize (mode_type m)) headerKey)]> (modes s))
              (calls s)).
    split.
    { constructor; cbn [this algorithms modes]; try reflexivity; [auto|].
      intros q t. unfold mode_type_at. cbn [modes].
      destruct (decide (mode = q)) as [<-|Hne].
      - rewrite Hm. cbn. intros [= <-].
        rewrite list_lookup_insert_eq by assumption. reflexivity.
      - rewrite list_lookup_insert_ne by assumption. auto. }
    do 2 (split; [reflexivity|]).
    split.
    { eexists. cbn [modes]. rewrite list_lookup_insert_eq by assumption.
      split; [reflexivity|]. split; reflexivity. }
    cbn [Decrypt_modes].
    unfold bind at 1 2, Mode_typeid, bind at 1, deref_mode, ret.
    rewrite Hm, Hx. cbn [negb].
    unfold bind at 1 2, lift. rewrite GetRange_in by lia.
    unfold Mode_SetKey, bind at 1, deref_mode, put_mode. rewrite Hm. reflexivity.
Qed.

Lemma modes_typed_kept (s s' : Machine) (pms : list nat) (mts : list ModeType) :
  kept s s' ->
  Forall2 (fun q t => mode_type_at s q = Some t) pms mts ->
  Forall2 (fun q t => mode_type_at s' q = Some t) pms mts.
Proof.
  intros Hk. apply Forall2_impl. intros p t. apply (kept_mode_types _ _ Hk).
Qed.

Lemma Decrypt_modes_passed (pkcs5 : Pkcs5Kdf) (headerKey : list byte)
  (eas : list nat) (ts : list EAType) (pms : list nat) :
  forall (mts : list ModeType) (s : Machine),
  Forall2 (fun q t => mode_type_at s q = Some t) pms mts ->
  Forall2 (fun p t => ea_type_at s p = Some t) eas ts ->
  EncryptedHeaderDataSize (this s) = n ->
  Size headerKey = GetLargestSerializedKeySize ->
  Forall (fun mt => Forall (passed truecryptMode encryptedData n headerKey mt) ts) mts ->
  exists s',
    Decrypt_modes encryptedData truecryptMode (SecureBuffer n) pkcs5 headerKey eas pms s
    = (Ok false, s')
    /\ kept s s'
    /\ calls s' = calls s ++ tried_modes encryptedData n headerKey mts ts.
Proof.
  induction pms as [|mode pms IH]; intros mts s Hmodes Heas Hsize Hhk Hrej.
  - apply Forall2_nil_inv_l in Hmodes as ->.
    exists s. split; [reflexivity|]. split; [apply kept_refl|].
    cbn. rewrite app_nil_r. reflexivity.
  - apply Forall2_cons_inv_l in Hmodes as (mt & mts' & Hmt & Hmts & ->).
    apply Forall_cons_1 in Hrej as [Hrej1 Hrej'].
    destruct (Decrypt_modes_step pkcs5 headerKey eas mode pms s mt Hmt Hhk)
      as (s1 & Hk1 & Hthis1 & Hc1 & Hready & ->).
    destruct (Decrypt_algorithms_passed pkcs5 headerKey mt eas ts s1 mode)
      as (s2 & Hrun2 & Hk2 & Hc2); try assumption.
    { eapply typed_kept; eassumption. }
    { rewrite Hthis1. exact Hsize. }
    pose proof (kept_trans _ _ _ Hk1 Hk2) as Hk12.
    destruct (IH mts' s2) as (s' & Hrun' & Hk' & Hc'); try assumption.
    { eapply modes_typed_kept; eassumption. }
    { eapply typed_kept; eassumption. }
    { rewrite (kept_DataSize _ _ Hk12). exact Hsize. }
    exists s'. split.
    + unfold bind at 1. rewrite Hrun2. exact Hrun'.
    + split; [eapply kept_trans; eassumption|].
      rewrite Hc', Hc2, Hc1. cbn [tried_modes flat_map].
      rewrite app_assoc. reflexivity.
Qed.

Lemma Decrypt_modes_found (pkcs5 : Pkcs5Kdf) (headerKey : list byte)
  (E1 : list nat) (ea : nat) (E2 : list nat) (T1 : list EAType) (t : EAType)
  (T2 : list EAType) (mode : nat) (mt : ModeType) (P2 : list nat) (P1 : list nat) :
  forall (M1 : list ModeType) (s : Machine),
  Forall2 (fun q t => mode_type_at s q = Some t) P1 M1 ->
  mode_type_at s mode = Some mt ->
  Forall2 (fun p t => ea_type_at s p = Some t) E1 T1 ->
  ea_type_at s ea = Some t ->
  Forall2 (fun p t => ea_type_at s p = Some t) E2 T2 ->
  EncryptedHeaderDataSize (this s) = n ->
  Size headerKey = GetLargestSerializedKeySize ->
  Forall (fun mt => Forall (passed truecryptMode encryptedData n headerKey mt) (T1 ++ t :: T2)) M1 ->
  Forall (passed truecryptMode encryptedData n headerKey mt) T1 ->
  IsModeSupported t mt = true ->
  accepted truecryptMode (trial encryptedData n headerKey mt t) ->
  DataKeyAreaMaxSize <= Size (DataAreaKey (this s)) ->
  GetLargestSerializedKeySize <= Size (HeaderKey (this s)) ->
  exists s',
    Decrypt_modes encryptedData truecryptMode (SecureBuffer n) pkcs5 headerKey
      (E1 ++ ea :: E2) (P1 ++ mode :: P2) s
    = (Ok true, s')
    /\ latched truecryptMode pkcs5 headerKey (trial encryptedData n headerKey mt t) mt t s s'
    /\ calls s' = calls s ++ tried_modes encryptedData n headerKey M1 (T1 ++ t :: T2)
                 ++ tried_algorithms encryptedData n headerKey mt T1
                 ++ [DeserializeCall (trial encryptedData n headerKey mt t)].
Proof.
  induction P1 as [|p P1 IH];
    intros M1 s Hmodes Hmt HE1 Hea HE2 Hsize Hhk Hrej Hrej1 Hsup Hacc Hdak Hhkbuf.
  - apply Forall2_nil_inv_l in Hmodes as ->.
    cbn [app].
    destruct (Decrypt_modes_step pkcs5 headerKey (E1 ++ ea :: E2) mode P2 s mt Hmt Hhk)
      as (s1 & Hk1 & Hthis1 & Hc1 & Hready & ->).
    destruct (Decrypt_algorithms_found pkcs5 headerKey mt ea t E2 E1 T1 s1 mode)
      as (s' & Hrun & Hl & Hc); try assumption.
    { eapply typed_kept; eassumption. }
    { apply (kept_ea_types _ _ Hk1). exact Hea. }
    { rewrite Hthis1. exact Hsize. }
    { rewrite Hthis1. exact Hdak. }
    { rewrite Hthis1. exact Hhkbuf. }
    exists s'. split.
    + unfold bind at 1. rewrite Hrun. reflexivity.
    + split; [eapply latched_kept; eassumption|].
      rewrite Hc, Hc1. reflexivity.
  - apply Forall2_cons_inv_l in Hmodes as (m1 & M1' & Hm1 & Hmts & ->).
    apply Forall_cons_1 in Hrej as [Hrejm Hrej'].
    assert (Hall : Forall2 (fun p t => ea_type_at s p = Some t) (E1 ++ ea :: E2) (T1 ++ t :: T2)).
    { apply Forall2_app; [assumption|]. constructor; assumption. }
    cbn [app].
    destruct (Decrypt_modes_step pkcs5 headerKey (E1 ++ ea :: E2) p (P1 ++ mode :: P2) s m1
                Hm1 Hhk)
      as (s1 & Hk1 & Hthis1 & Hc1 & Hready & ->).
    destruct (Decrypt_algorithms_passed pkcs5 headerKey m1 (E1 ++ ea :: E2) (T1 ++ t :: T2) s1 p)
      as (s2 & Hrun2 & Hk2 & Hc2); try assumption.
    { eapply typed_kept; eassumption. }
    { rewrite Hthis1. exact Hsize. }
    pose proof (kept_trans _ _ _ Hk1 Hk2) as Hk12.
    destruct (IH M1' s2) as (s' & Hrun' & Hl' & Hc'); try assumption.
    { eapply modes_typed_kept; eassumption. }
    { apply (kept_mode_types _ _ Hk12). exact Hmt. }
    { eapply typed_kept; eassumption. }
    { apply (kept_ea_types _ _ Hk12). exact Hea. }
    { eapply typed_kept; eassumption. }
    { rewrite (kept_DataSize _ _ Hk12). exact Hsize. }
    { rewrite (kept_DataAreaKey _ _ Hk12). exact Hdak. }
    { rewrite (kept_HeaderKey _ _ Hk12). exact Hhkbuf. }
    exists s'. split.
    + unfold bind at 1. rewrite Hrun2. exact Hrun'.
    + split; [eapply latched_kept; eassumption|].
      rewrite Hc', Hc2, Hc1. cbn [tried_modes flat_map].
      rewrite !app_assoc. reflexivity.
Qed.

Lemma GetLargestSerializedKeySize_nonneg : 0 <= GetLargestSerializedKeySize.
Proof.
  pose proof (LargestKeySize_nonneg contracts).
  pose proof (LegacyArea_nonneg contracts).
  unfold GetLargestSerializedKeySize. destruct (decide _); lia.
Qed.

Lemma Size_derived (k : Pkcs5Kdf) (password : list byte) (pim : Z) (salt : list byte) :
  Size (derived k password pim salt) = GetLargestSerializedKeySize.
Proof. apply (DeriveKey_size contracts), GetLargestSerializedKeySize_nonneg. Qed.

(** Lines 100-103: the head of the outer loop. *)
Lemma Decrypt_kdfs_skip (password : list byte) (pim : Z) (kdf : option Pkcs5Kdf)
  (salt headerKey : list byte) (eas pms : list nat) (k : Pkcs5Kdf) (rest : list Pkcs5Kdf)
  (s : Machine) :
  other_kdf kdf k = true ->
  Decrypt_kdfs encryptedData truecryptMode (SecureBuffer n) password pim kdf salt headerKey
    eas pms (k :: rest) s
  = Decrypt_kdfs encryptedData truecryptMode (SecureBuffer n) password pim kdf salt headerKey
      eas pms rest s.
Proof. intros H. cbn [Decrypt_kdfs]. rewrite H. reflexivity. Qed.

Lemma Decrypt_kdfs_step (password : list byte) (pim : Z) (kdf : option Pkcs5Kdf)
  (salt headerKey : list byte) (eas pms : list nat) (k : Pkcs5Kdf) (rest : list Pkcs5Kdf)
  (s : Machine) :
  other_kdf kdf k = false ->
  Size headerKey = GetLargestSerializedKeySize ->
  Decrypt_kdfs encryptedData truecryptMode (SecureBuffer n) password pim kdf salt headerKey
    eas pms (k :: rest) s
  = (do returned <- Decrypt_modes encryptedData truecryptMode (SecureBuffer n) k
                      (derived k password pim salt) eas pms;
     if returned : bool then ret true
     else Decrypt_kdfs encryptedData truecryptMode (SecureBuffer n) password pim kdf salt
            (derived k password pim salt) eas pms rest)
      (mkMachine (this s) (algorithms s) (modes s) (calls s ++ [DeriveKeyCall k])).
Proof.
  intros H Hhk. cbn [Decrypt_kdfs]. rewrite H.
  unfold bind at 1, Pkcs5_DeriveKey, bind at 1, record, ret. rewrite Hhk. reflexivity.
Qed.

Lemma kept_record (s : Machine) (c : Call) :
  kept s (mkMachine (this s) (algorithms s) (modes s) (calls s ++ [c])).
Proof. constructor; auto. Qed.

Lemma tried_kdfs_cons (password : list byte) (pim : Z) (kdf : option Pkcs5Kdf)
  (salt : list byte) (k : Pkcs5Kdf) (ks : list Pkcs5Kdf) (ms : list ModeType)
  (es : list EAType) :
  tried_kdfs encryptedData n password pim kdf salt (k :: ks) ms es
  = (if other_kdf kdf k then []
     else DeriveKeyCall k :: tried_modes encryptedData n (derived k password pim salt) ms es)
    ++ tried_kdfs encryptedData n password pim kdf salt ks ms es.
Proof. reflexivity. Qed.

Lemma Decrypt_kdfs_passed (password : list byte) (pim : Z) (kdf : option Pkcs5Kdf)
  (salt : list byte) (eas : list nat) (ts : list EAType) (pms : list nat)
  (mts : list ModeType) (kdfs : list Pkcs5Kdf) :
  forall (headerKey : list byte) (s : Machine),
  Forall2 (fun q t => mode_type_at s q = Some t) pms mts ->
  Forall2 (fun p t => ea_type_at s p = Some t) eas ts ->
  EncryptedHeaderDataSize (this s) = n ->
  Size headerKey = GetLargestSerializedKeySize ->
  Forall (kdf_passed truecryptMode encryptedData n password pim kdf salt mts ts) kdfs ->
  exists s',
    Decrypt_kdfs encryptedData truecryptMode (SecureBuffer n) password pim kdf salt headerKey
      eas pms kdfs s
    = (Ok false, s')
    /\ kept s s'
    /\ calls s' = calls s ++ tried_kdfs encryptedData n password pim kdf salt kdfs mts ts.
Proof.
  induction kdfs as [|k kdfs IH]; intros headerKey s Hmodes Heas Hsize Hhk Hrej.
  - exists s. split; [reflexivity|]. split; [apply kept_refl|].
    cbn. rewrite app_nil_r. reflexivity.
  - apply Forall_cons_1 in Hrej as [Hrej1 Hrej'].
    rewrite tried_kdfs_cons.
    destruct (other_kdf kdf k) eqn:Hother.
    + rewrite Decrypt_kdfs_skip by assumption. cbn [app]. apply IH; assumption.
    + rewrite Decrypt_kdfs_step by assumption.
      pose proof (kept_record s (DeriveKeyCall k)) as Hk0.
      destruct (Decrypt_modes_passed k (derived k password pim salt) eas ts pms mts
                  (mkMachine (this s) (algorithms s) (modes s) (calls s ++ [DeriveKeyCall k])))
        as (s1 & Hrun1 & Hk1 & Hc1); try assumption.
      { apply Size_derived. }
      { apply Hrej1. assumption. }
      pose proof (kept_trans _ _ _ Hk0 Hk1) as Hk01.
      destruct (IH (derived k password pim salt) s1) as (s' & Hrun' & Hk' & Hc');
        try assumption.
      { eapply modes_typed_kept; eassumption. }
      { eapply typed_kept; eassumption. }
      { rewrite (kept_DataSize _ _ Hk01). exact Hsize. }
      { apply Size_derived. }
      exists s'. split.
      * unfold bind at 1. rewrite Hrun1. exact Hrun'.
      * split; [eapply kept_trans; eassumption|].
        rewrite Hc', Hc1. cbn [calls]. rewrite <- !app_assoc. reflexivity.
Qed.

Lemma Decrypt_kdfs_found (password : list byte) (pim : Z) (kdf : option Pkcs5Kdf)
  (salt : list byte)
  (E1 : list nat) (ea : nat) (E2 : list nat) (T1 : list EAType) (t : EAType)
  (T2 : list EAType)
  (P1 : list nat) (mode : nat) (P2 : list nat) (M1 : list ModeType) (mt : ModeType)
  (M2 : list ModeType)
  (k : Pkcs5Kdf) (K2 : list Pkcs5Kdf) (K1 : list Pkcs5Kdf) :
  forall (headerKey : list byte) (s : Machine),
  Forall2 (fun q t => mode_type_at s q = Some t) P1 M1 ->
  mode_type_at s mode = Some mt ->
  Forall2 (fun q t => mode_type_at s q = Some t) P2 M2 ->
  Forall2 (fun p t => ea_type_at s p = Some t) E1 T1 ->
  ea_type_at s ea = Some t ->
  Forall2 (fun p t => ea_type_at s p = Some t) E2 T2 ->
  EncryptedHeaderDataSize (this s) = n ->
  Size headerKey = GetLargestSerializedKeySize ->
  Forall (kdf_passed truecryptMode encryptedData n password pim kdf salt (M1 ++ mt :: M2) (T1 ++ t :: T2)) K1 ->
  other_kdf kdf k = false ->
  Forall (fun mt => Forall (passed truecryptMode encryptedData n
                              (derived k password pim salt) mt) (T1 ++ t :: T2)) M1 ->
  Forall (passed truecryptMode encryptedData n (derived k password pim salt) mt) T1 ->
  IsModeSupported t mt = true ->
  accepted truecryptMode (trial encryptedData n (derived k password pim salt) mt t) ->
  DataKeyAreaMaxSize <= Size (DataAreaKey (this s)) ->
  GetLargestSerializedKeySize <= Size (HeaderKey (this s)) ->
  exists s',
    Decrypt_kdfs encryptedData truecryptMode (SecureBuffer n) password pim kdf salt headerKey
      (E1 ++ ea :: E2) (P1 ++ mode :: P2) (K1 ++ k :: K2) s
    = (Ok true, s')
    /\ latched truecryptMode k (derived k password pim salt)
         (trial encryptedData n (derived k password pim salt) mt t) mt t s s'
    /\ calls s'
       = calls s
         ++ tried_kdfs encryptedData n password pim kdf salt K1 (M1 ++ mt :: M2)
              (T1 ++ t :: T2)
         ++ DeriveKeyCall k
            :: tried_modes encryptedData n (derived k password pim salt) M1 (T1 ++ t :: T2)
         ++ tried_algorithms encryptedData n (derived k password pim salt) mt T1
         ++ [DeserializeCall (trial encryptedData n (derived k password pim salt) mt t)].
Proof.
  induction K1 as [|k1 K1 IH];
    intros headerKey s HP1 Hmt HP2 HE1 Hea HE2 Hsize Hhk Hrej Hother HrejM HrejT Hsup Hacc
      Hdak Hhkbuf.
  - cbn [app]. rewrite Decrypt_kdfs_step by assumption.
    pose proof (kept_record s (DeriveKeyCall k)) as Hk0.
    destruct (Decrypt_modes_found k (derived k password pim salt) E1 ea E2 T1 t T2 mode mt
                P2 P1 M1
                (mkMachine (this s) (algorithms s) (modes s) (calls s ++ [DeriveKeyCall k])))
      as (s' & Hrun & Hl & Hc); try assumption.
    { apply Size_derived. }
    exists s'. split.
    + unfold bind at 1. rewrite Hrun. reflexivity.
    + split; [eapply latched_kept; eassumption|].
      rewrite Hc. cbn [calls tried_kdfs flat_map app]. rewrite <- !app_assoc. reflexivity.
  - apply Forall_cons_1 in Hrej as [Hrej1 Hrej'].
    cbn [app]. rewrite tried_kdfs_cons.
    destruct (other_kdf kdf k1) eqn:Hother1.
    + rewrite Decrypt_kdfs_skip by assumption. cbn [app]. apply IH; assumption.
    + rewrite Decrypt_kdfs_step by assumption.
      pose proof (kept_record s (DeriveKeyCall k1)) as Hk0.
      assert (HP : Forall2 (fun q t => mode_type_at s q = Some t)
                     (P1 ++ mode :: P2) (M1 ++ mt :: M2)).
      { apply Forall2_app; [assumption|]. constructor; assumption. }
      assert (HE : Forall2 (fun p t => ea_type_at s p = Some t)
                     (E1 ++ ea :: E2) (T1 ++ t :: T2)).
      { apply Forall2_app; [assumption|]. constructor; assumption. }
      destruct (Decrypt_modes_passed k1 (derived k1 password pim salt) (E1 ++ ea :: E2)
                  (T1 ++ t :: T2) (P1 ++ mode :: P2) (M1 ++ mt :: M2)
                  (mkMachine (this s) (algorithms s) (modes s)
                     (calls s ++ [DeriveKeyCall k1])))
        as (s1 & Hrun1 & Hk1 & Hc1); try assumption.
      { apply Size_derived. }
      { apply Hrej1. assumption. }
      pose proof (kept_trans _ _ _ Hk0 Hk1) as Hk01.
      destruct (IH (derived k1 password pim salt) s1) as (s' & Hrun' & Hl' & Hc');
        try assumption.
      { eapply modes_typed_kept; eassumption. }
      { apply (kept_mode_types _ _ Hk01). exact Hmt. }
      { eapply modes_typed_kept; eassumption. }
      { eapply typed_kept; eassumption. }
      { apply (kept_ea_types _ _ Hk01). exact Hea. }
      { eapply typed_kept; eassumption. }
      { rewrite (kept_DataSize _ _ Hk01). exact Hsize. }
      { apply Size_derived. }
      { rewrite (kept_DataAreaKey _ _ Hk01). exact Hdak. }
      { rewrite (kept_HeaderKey _ _ Hk01). exact Hhkbuf. }
      exists s'. split.
      * unfold bind at 1. rewrite Hrun1. exact Hrun'.
      * split; [eapply latched_kept; eassumption|].
        rewrite Hc', Hc1. cbn [calls]. rewrite <- !app_assoc. reflexivity.
Qed.

(** Lines 90-96: what [Decrypt] does before the loops. *)
Lemma Decrypt_start (password : list byte) (pim : Z) (kdf : option Pkcs5Kdf)
  (kdfs : list Pkcs5Kdf) (eas pms : list nat) (s : Machine) :
  1 <= Size password ->
  EncryptedHeaderDataSize (this s) = n ->
  SaltSize <= Size (Salt (this s)) ->
  Decrypt encryptedData password pim kdf truecryptMode kdfs eas pms s
  = Decrypt_kdfs encryptedData truecryptMode (SecureBuffer n) password pim kdf
      (sub SaltOffset SaltSize encryptedData) (SecureBuffer GetLargestSerializedKeySize)
      eas pms kdfs
      (mkMachine (set_Salt (splice 0 (sub SaltOffset SaltSize encryptedData) (Salt (this s)))
                    (this s))
         (algorithms s) (modes s) (calls s)).
Proof.
  intros Hpw Hsize Hsalt. unfold Decrypt.
  destruct (decide (Size password < 1)); [lia|].
  unfold bind at 1, lift. rewrite GetRange_in by layout_lia.
  unfold bind at 1, get_this. unfold bind at 1, lift.
  rewrite CopyFrom_in by (rewrite Size_sub by layout_lia; exact Hsalt).
  unfold bind at 1, assign. unfold bind at 1. cbn [this EncryptedHeaderDataSize set_Salt].
  rewrite Hsize. reflexivity.
Qed.

(** No candidate matches: [Decrypt] returns false, with the salt of the
    blob in [Salt] and the rest of the state kept. *)
Lemma Decrypt_passed (password : list byte) (pim : Z) (kdf : option Pkcs5Kdf)
  (kdfs : list Pkcs5Kdf) (eas : list nat) (ts : list EAType) (pms : list nat)
  (mts : list ModeType) (s : Machine) :
  1 <= Size password ->
  EncryptedHeaderDataSize (this s) = n ->
  SaltSize <= Size (Salt (this s)) ->
  Forall2 (fun q t => mode_type_at s q = Some t) pms mts ->
  Forall2 (fun p t => ea_type_at s p = Some t) eas ts ->
  Forall (kdf_passed truecryptMode encryptedData n password pim kdf
            (sub SaltOffset SaltSize encryptedData) mts ts) kdfs ->
  exists s',
    Decrypt encryptedData password pim kdf truecryptMode kdfs eas pms s = (Ok false, s')
    /\ EA (this s') = EA (this s)
    /\ Pkcs5 (this s') = Pkcs5 (this s)
    /\ DataAreaKey (this s') = DataAreaKey (this s)
    /\ HeaderKey (this s') = HeaderKey (this s)
    /\ Salt (this s') = splice 0 (sub SaltOffset SaltSize encryptedData) (Salt (this s))
    /\ calls s'
       = calls s ++ tried_kdfs encryptedData n password pim kdf
                      (sub SaltOffset SaltSize encryptedData) kdfs mts ts.
Proof.
  intros Hpw Hsize Hsalt Hmodes Heas Hrej.
  rewrite Decrypt_start by assumption.
  destruct (Decrypt_kdfs_passed password pim kdf (sub SaltOffset SaltSize encryptedData)
              eas ts pms mts kdfs (SecureBuffer GetLargestSerializedKeySize)
              (mkMachine (set_Salt (splice 0 (sub SaltOffset SaltSize encryptedData)
                                      (Salt (this s))) (this s))
                 (algorithms s) (modes s) (calls s)))
    as (s' & Hrun & Hk & Hc); try assumption.
  { apply Size_SecureBuffer, GetLargestSerializedKeySize_nonneg. }
  exists s'. split; [exact Hrun|].
  destruct Hk. cbn [this algorithms modes calls EA Pkcs5 DataAreaKey HeaderKey Salt set_Salt] in *.
  repeat split; assumption.
Qed.

(** A candidate matches after those before it were passed over: [Decrypt]
    returns true with the candidate latched. *)
Lemma Decrypt_found (password : list byte) (pim : Z) (kdf : option Pkcs5Kdf)
  (E1 : list nat) (ea : nat) (E2 : list nat) (T1 : list EAType) (t : EAType)
  (T2 : list EAType)
  (P1 : list nat) (mode : nat) (P2 : list nat) (M1 : list ModeType) (mt : ModeType)
  (M2 : list ModeType)
  (K1 : list Pkcs5Kdf) (k : Pkcs5Kdf) (K2 : list Pkcs5Kdf) (s : Machine) :
  let salt := sub SaltOffset SaltSize encryptedData in
  let headerKey := derived k password pim salt in
  let p := trial encryptedData n headerKey mt t in
  1 <= Size password ->
  EncryptedHeaderDataSize (this s) = n ->
  SaltSize <= Size (Salt (this s)) ->
  DataKeyAreaMaxSize <= Size (DataAreaKey (this s)) ->
  GetLargestSerializedKeySize <= Size (HeaderKey (this s)) ->
  Forall2 (fun q t => mode_type_at s q = Some t) P1 M1 ->
  mode_type_at s mode = Some mt ->
  Forall2 (fun q t => mode_type_at s q = Some t) P2 M2 ->
  Forall2 (fun p t => ea_type_at s p = Some t) E1 T1 ->
  ea_type_at s ea = Some t ->
  Forall2 (fun p t => ea_type_at s p = Some t) E2 T2 ->
  Forall (kdf_passed truecryptMode encryptedData n password pim kdf salt
            (M1 ++ mt :: M2) (T1 ++ t :: T2)) K1 ->
  other_kdf kdf k = false ->
  Forall (fun mt => Forall (passed truecryptMode encryptedData n headerKey mt)
                      (T1 ++ t :: T2)) M1 ->
  Forall (passed truecryptMode encryptedData n headerKey mt) T1 ->
  IsModeSupported t mt = true ->
  accepted truecryptMode p ->
  exists s',
    Decrypt encryptedData password pim kdf truecryptMode (K1 ++ k :: K2)
      (E1 ++ ea :: E2) (P1 ++ mode :: P2) s
    = (Ok true, s')
    /\ latched truecryptMode k headerKey p mt t
         (mkMachine (set_Salt (splice 0 salt (Salt (this s))) (this s))
            (algorithms s) (modes s) (calls s)) s'
    /\ calls s'
       = calls s
         ++ tried_kdfs encryptedData n password pim kdf salt K1 (M1 ++ mt :: M2)
              (T1 ++ t :: T2)
         ++ DeriveKeyCall k
            :: tried_modes encryptedData n headerKey M1 (T1 ++ t :: T2)
         ++ tried_algorithms encryptedData n headerKey mt T1
         ++ [DeserializeCall p].
Proof.
  intros salt headerKey p Hpw Hsize Hsalt Hdak Hhk HP1 Hmt HP2 HE1 Hea HE2 Hrej Hother
    HrejM HrejT Hsup Hacc.
  rewrite Decrypt_start by assumption.
  subst salt headerKey p.
  apply (Decrypt_kdfs_found password pim kdf (sub SaltOffset SaltSize encryptedData)
           E1 ea E2 T1 t T2 P1 mode P2 M1 mt M2 k K2 K1
           (SecureBuffer GetLargestSerializedKeySize)
           (mkMachine (set_Salt (splice 0 (sub SaltOffset SaltSize encryptedData)
                                   (Salt (this s))) (this s))
              (algorithms s) (modes s) (calls s))); try assumption.
  apply Size_SecureBuffer, GetLargestSerializedKeySize_nonneg.
Qed.

End Search.

(** ** The trial-decryption engine: what it leaves alone *)

Section Frame.

Context {env : Environment}.
Variables (encryptedData : list byte) (truecryptMode : bool) (header : list byte).

Lemma unlatched_refl (s : Machine) : unlatched s s.
Proof. repeat split. Qed.

Lemma unlatched_trans (s1 s2 s3 : Machine) :
  unlatched s1 s2 -> unlatched s2 s3 -> unlatched s1 s3.
Proof.
  unfold unlatched. intros (? & ? & ? & ? & ? & ?) (? & ? & ? & ? & ? & ?).
  repeat split; congruence.
Qed.

(** Whatever the candidate and the outcome, the innermost loop body
    leaves the header object unlatched unless it returns true, and
    [DataAreaKey] as it was when it returns false. *)
Lemma Decrypt_algorithm_frame (pkcs5 : Pkcs5Kdf) (headerKey : list byte) (mode ea : nat)
  (s : Machine) :
  wp (Decrypt_algorithm encryptedData truecryptMode header pkcs5 headerKey mode ea)
     (fun o s' =>
        ((forall m, o <> Ok (true, m)) -> unlatched s s')
        /\ (forall m, o = Ok (false, m) ->
            DataAreaKey (this s') = DataAreaKey (this s))) s.
Proof.
  destruct_state s. unfold Decrypt_algorithm.
  wp_all.
  all: try (split; [intros _; repeat split | intros; reflexivity]).
  all: apply wp_bind.
  all: eapply wp_mono;
    [|apply wp_conj; [apply Deserialize_frame | apply Deserialize_false_frame]].
  all: cbn beta; intros o s' [Hf Hff]; state_simpl.
  all: destruct Hf as (? & ? & ? & ? & ? & ? & _).
  all: destruct o as [[[] [ea' mode']]|exn|].
  all: try specialize (Hff _ eq_refl); state_simpl.
  all: wp_all.
  all: split; [|try discriminate].
  all: try (intros Hne; exfalso; eapply Hne; reflexivity).
  all: try (intros _; repeat split; assumption).
  all: intros ? _; apply Hff.
Qed.

Lemma Decrypt_algorithms_frame (pkcs5 : Pkcs5Kdf) (headerKey : list byte)
  (eas : list nat) :
  forall (mode : nat) (s : Machine),
  wp (Decrypt_algorithms encryptedData truecryptMode header pkcs5 headerKey mode eas)
     (fun o s' =>
        (o <> Ok true -> unlatched s s')
        /\ (o = Ok false -> DataAreaKey (this s') = DataAreaKey (this s))) s.
Proof.
  induction eas as [|ea eas IH]; intros mode s; cbn [Decrypt_algorithms].
  - apply wp_ret. split; [intros _; apply unlatched_refl | reflexivity].
  - apply wp_bind. eapply wp_mono; [|apply Decrypt_algorithm_frame].
    cbn beta. intros o s1 [H1 H2].
    destruct o as [[[] mode1]|exn|].
    + apply wp_ret. split; [intros Hne; destruct (Hne eq_refl) | discriminate].
    + eapply wp_mono; [|apply IH]. cbn beta. intros o' s' [H1' H2'].
      assert (unlatched s s1) by (apply H1; discriminate).
      split.
      * intros Hne. eapply unlatched_trans; [eassumption | auto].
      * intros ->. rewrite (H2' eq_refl). eapply H2. reflexivity.
    + split; [intros _; apply H1; discriminate | discriminate].
    + split; [intros _; apply H1; discriminate | discriminate].
Qed.

Lemma unlatched_modes (s : Machine) (ms : list EncryptionMode) :
  unlatched s (mkMachine (this s) (algorithms s) ms (calls s)).
Proof. repeat split. Qed.

Lemma Decrypt_modes_frame (pkcs5 : Pkcs5Kdf) (headerKey : list byte)
  (eas : list nat) (pms : list nat) :
  forall (s : Machine),
  wp (Decrypt_modes encryptedData truecryptMode header pkcs5 headerKey eas pms)
     (fun o s' =>
        (o <> Ok true -> unlatched s s')
        /\ (o = Ok false -> DataAreaKey (this s') = DataAreaKey (this s))) s.
Proof.
  induction pms as [|mode pms IH]; intros s; cbn [Decrypt_modes].
  - apply wp_ret. split; [intros _; apply unlatched_refl | reflexivity].
  - assert (Hloop : forall ms,
      wp (do returned <- Decrypt_algorithms encryptedData truecryptMode header pkcs5
                           headerKey mode eas;
          if returned : bool then ret true
          else Decrypt_modes encryptedData truecryptMode header pkcs5 headerKey eas pms)
         (fun o s' =>
            (o <> Ok true -> unlatched s s')
            /\ (o = Ok false -> DataAreaKey (this s') = DataAreaKey (this s)))
         (mkMachine (this s) (algorithms s) ms (calls s))).
    { intros ms. apply wp_bind. eapply wp_mono; [|apply Decrypt_algorithms_frame].
      cbn beta. intros o s1 [H1 H2]. cbn [this] in H2.
      pose proof (unlatched_modes s ms) as H0.
      destruct o as [[]|exn|].
      - apply wp_ret. split; [intros Hne; destruct (Hne eq_refl) | discriminate].
      - eapply wp_mono; [|apply IH]. cbn beta. intros o' s' [H1' H2'].
        assert (unlatched s s1)
          by (eapply unlatched_trans; [exact H0 | apply H1; discriminate]).
        split.
        + intros Hne. eapply unlatched_trans; [eassumption | auto].
        + intros ->. rewrite (H2' eq_refl). apply H2. reflexivity.
      - split; [|discriminate]. intros _.
        eapply unlatched_trans; [exact H0 | apply H1; discriminate].
      - split; [|discriminate]. intros _.
        eapply unlatched_trans; [exact H0 | apply H1; discriminate]. }
    destruct s as [h algs mds cls]. cbn [this algorithms modes calls] in Hloop.
    wp_all.
    all: try (split; [intros _; apply unlatched_refl | discriminate]).
    all: apply Hloop.
Qed.

Lemma Decrypt_kdfs_frame (password : list byte) (pim : Z) (kdf : option Pkcs5Kdf)
  (salt : list byte) (eas pms : list nat) (kdfs : list Pkcs5Kdf) :
  forall (headerKey : list byte) (s : Machine),
  wp (Decrypt_kdfs encryptedData truecryptMode header password pim kdf salt headerKey
        eas pms kdfs)
     (fun o s' =>
        (o <> Ok true -> unlatched s s')
        /\ (o = Ok false -> DataAreaKey (this s') = DataAreaKey (this s))) s.
Proof.
  induction kdfs as [|k kdfs IH]; intros headerKey s; cbn [Decrypt_kdfs].
  - apply wp_ret. split; [intros _; apply unlatched_refl | reflexivity].
  - destruct (other_kdf kdf k); [apply IH|].
    unfold Pkcs5_DeriveKey.
    apply wp_bind, wp_bind, wp_record, wp_ret.
    apply wp_bind. eapply wp_mono; [|apply Decrypt_modes_frame].
    cbn beta. intros o s1 [H1 H2]. cbn [this] in H2.
    assert (H0 : unlatched s (mkMachine (this s) (algorithms s) (modes s)
                                (calls s ++ [DeriveKeyCall k])))
      by (repeat split).
    destruct o as [[]|exn|].
    + apply wp_ret. split; [intros Hne; destruct (Hne eq_refl) | discriminate].
    + eapply wp_mono; [|apply IH]. cbn beta. intros o' s' [H1' H2'].
      assert (unlatched s s1)
        by (eapply unlatched_trans; [exact H0 | apply H1; discriminate]).
      split.
      * intros Hne. eapply unlatched_trans; [eassumption | auto].
      * intros ->. rewrite (H2' eq_refl). apply H2. reflexivity.
    + split; [|discriminate]. intros _.
      eapply unlatched_trans; [exact H0 | apply H1; discriminate].
    + split; [|discriminate]. intros _.
      eapply unlatched_trans; [exact H0 | apply H1; discriminate].
Qed.

End Frame.

Section DecryptFrame.

Context {env : Environment}.

(** Whatever the arguments: unless [Decrypt] returns true, the sizes, [EA],
    [Pkcs5] and [HeaderKey] of the header object are as they were; and
    when it returns false, so is [DataAreaKey], and [Salt] holds the salt
    of the blob. *)
Lemma Decrypt_frame (encryptedData password : list byte) (pim : Z)
  (kdf : option Pkcs5Kdf) (truecryptMode : bool) (kdfs : list Pkcs5Kdf)
  (eas pms : list nat) (s : Machine) :
  wp (Decrypt encryptedData password pim kdf truecryptMode kdfs eas pms)
     (fun o s' =>
        (o <> Ok true ->
         HeaderSize (this s') = HeaderSize (this s)
         /\ EncryptedHeaderDataSize (this s') = EncryptedHeaderDataSize (this s)
         /\ EA (this s') = EA (this s)
         /\ Pkcs5 (this s') = Pkcs5 (this s)
         /\ HeaderKey (this s') = HeaderKey (this s))
        /\ (o = Ok false ->
            DataAreaKey (this s') = DataAreaKey (this s)
            /\ Salt (this s')
               = splice 0 (sub SaltOffset SaltSize encryptedData) (Salt (this s)))) s.
Proof.
  destruct_state s. unfold Decrypt.
  wp_all.
  all: try (split; [intros _; repeat split | discriminate]).
  all: eapply wp_mono; [|apply Decrypt_kdfs_frame].
  all: cbn beta; intros o s' [H1 H2]; state_simpl; unfold unlatched in H1; state_simpl.
  all: path_facts.
  all: split; [intros Hne; destruct (H1 Hne) as (? & ? & ? & ? & ? & ?); auto|].
  all: intros ->; split; [apply H2; reflexivity|].
  all: destruct H1 as (? & ? & ? & ? & ? & ?); [discriminate | assumption].
Qed.

End DecryptFrame.

(** ** The trial-decryption engine: counting its calls *)

Section Counting.

Context {env : Environment}.
Variables (encryptedData : list byte) (n : Z).

Lemma DeriveKey_calls_app (a b : list Call) :
  DeriveKey_calls (a ++ b) = (DeriveKey_calls a + DeriveKey_calls b)%nat.
Proof. unfold DeriveKey_calls. rewrite List.filter_app, length_app. reflexivity. Qed.

Lemma Deserialize_calls_app (a b : list Call) :
  Deserialize_calls (a ++ b) = (Deserialize_calls a + Deserialize_calls b)%nat.
Proof. unfold Deserialize_calls. rewrite List.filter_app, length_app. reflexivity. Qed.

Lemma skipped_app (ms1 ms2 : list ModeType) (es : list EAType) :
  skipped (ms1 ++ ms2) es = (skipped ms1 es + skipped ms2 es)%nat.
Proof. induction ms1 as [|m ms1 IH]; cbn [app skipped]; lia. Qed.

Lemma tried_algorithms_calls (headerKey : list byte) (m : ModeType) (es : list EAType) :
  DeriveKey_calls (tried_algorithms encryptedData n headerKey m es) = 0%nat
  /\ (Deserialize_calls (tried_algorithms encryptedData n headerKey m es)
      + skipped [m] es = length es)%nat.
Proof.
  unfold tried_algorithms, DeriveKey_calls, Deserialize_calls.
  induction es as [|e es [IH1 IH2]]; [split; reflexivity|].
  cbn [skipped List.filter length] in *.
  destruct (IsModeSupported e m) eqn:Hsup; cbn [negb length].
  - rewrite filter_cons_True by assumption. cbn [map List.filter is_DeriveKey
      is_Deserialize length]. split; [assumption | lia].
  - rewrite filter_cons_False by (rewrite Hsup; discriminate).
    split; [assumption | lia].
Qed.

Lemma tried_modes_calls (headerKey : list byte) (ms : list ModeType) (es : list EAType) :
  DeriveKey_calls (tried_modes encryptedData n headerKey ms es) = 0%nat
  /\ (Deserialize_calls (tried_modes encryptedData n headerKey ms es)
      + skipped ms es = length ms * length es)%nat.
Proof.
  induction ms as [|m ms [IH1 IH2]]; [split; reflexivity|].
  cbn [tried_modes flat_map]. fold (tried_modes encryptedData n headerKey ms es).
  rewrite DeriveKey_calls_app, Deserialize_calls_app.
  destruct (tried_algorithms_calls headerKey m es) as [H1 H2].
  cbn [skipped length] in *. split; lia.
Qed.

Lemma tried_kdfs_calls (password : list byte) (pim : Z) (kdf : option Pkcs5Kdf)
  (salt : list byte) (ks : list Pkcs5Kdf) (ms : list ModeType) (es : list EAType) :
  DeriveKey_calls (tried_kdfs encryptedData n password pim kdf salt ks ms es)
  = length (visited kdf ks)
  /\ (Deserialize_calls (tried_kdfs encryptedData n password pim kdf salt ks ms es)
      + length (visited kdf ks) * skipped ms es
      = length (visited kdf ks) * (length ms * length es))%nat.
Proof.
  induction ks as [|k ks [IH1 IH2]]; [split; reflexivity|].
  cbn [tried_kdfs flat_map visited List.filter].
  fold (tried_kdfs encryptedData n password pim kdf salt ks ms es).
  fold (visited kdf ks).
  destruct (other_kdf kdf k); cbn [negb app length]; [split; assumption|].
  change (DeriveKeyCall k :: ?l ++ ?r) with ([DeriveKeyCall k] ++ l ++ r).
  rewrite !DeriveKey_calls_app, !Deserialize_calls_app.
  destruct (tried_modes_calls (derived k password pim salt) ms es) as [H1 H2].
  change (DeriveKey_calls [DeriveKeyCall k]) with 1%nat.
  change (Deserialize_calls [DeriveKeyCall k]) with 0%nat.
  split; lia.
Qed.

Lemma visited_None (ks : list Pkcs5Kdf) : visited None ks = ks.
Proof.
  unfold visited. induction ks as [|k ks IH]; [reflexivity|].
  cbn [List.filter other_kdf negb]. f_equal. exact IH.
Qed.

End Counting.

(** ** The trial-decryption engine: no candidate matches *)

Section WrongPassword.

Context {env : Environment} (contracts : Contracts).

(** C7, as amended.  For every blob that holds the salt and the encrypted
    area, and every non-empty password under which every candidate the
    loops reach is passed over (the algorithm does not support the mode, or
    [Deserialize] returns false on the plaintext of the candidate),
    [Decrypt] returns false and leaves [EA], [Pkcs5] and [DataAreaKey] of
    the header object as they were before the call. *)
Theorem Decrypt_wrong_password
  (encryptedData password : list byte) (pim : Z) (kdf : option Pkcs5Kdf)
  (truecryptMode : bool) (kdfs : list Pkcs5Kdf) (eas : list nat) (ts : list EAType)
  (pms : list nat) (mts : list ModeType) (s : Machine) :
  1 <= Size password ->
  DataAreaKeyOffset + DataKeyAreaMaxSize <= EncryptedHeaderDataSize (this s) ->
  EncryptedHeaderDataOffset + EncryptedHeaderDataSize (this s) <= Size encryptedData ->
  SaltSize <= Size (Salt (this s)) ->
  Forall2 (fun q t => mode_type_at s q = Some t) pms mts ->
  Forall2 (fun p t => ea_type_at s p = Some t) eas ts ->
  Forall (kdf_passed truecryptMode encryptedData (EncryptedHeaderDataSize (this s))
            password pim kdf (sub SaltOffset SaltSize encryptedData) mts ts) kdfs ->
  exists s',
    Decrypt encryptedData password pim kdf truecryptMode kdfs eas pms s = (Ok false, s')
    /\ EA (this s') = EA (this s)
    /\ Pkcs5 (this s') = Pkcs5 (this s)
    /\ DataAreaKey (this s') = DataAreaKey (this s).
Proof.
  intros Hpw Hn Henc Hsalt Hmodes Heas Hrej.
  destruct (Decrypt_passed contracts encryptedData truecryptMode
              (EncryptedHeaderDataSize (this s)) Hn Henc password pim kdf kdfs eas ts pms
              mts s Hpw eq_refl Hsalt Hmodes Heas Hrej)
    as (s' & Hrun & HEA & HPkcs5 & HDataAreaKey & _).
  exists s'. auto.
Qed.

End WrongPassword.

(** A candidate of the samples is passed over. *)
Ltac sample_passed :=
  let Hsup := fresh in
  intros Hsup;
  first [ vm_compute in Hsup; discriminate Hsup
        | left; vm_compute; congruence ].

Ltac sample_all_passed :=
  repeat first [ apply Forall_nil_2
               | apply Forall_cons_2
               | progress unfold kdf_passed; intros _
               | progress unfold passed; sample_passed ].

Ltac sample_typed :=
  repeat first [ apply Forall2_nil_2 | apply Forall2_cons_2 | reflexivity ].

Lemma Decrypt_wrong_password_witness :
  1 <= Size Sample.wrong_password
  /\ exists s',
       Decrypt (env := Reference.environment) Sample.blob Sample.wrong_password Sample.pim
         None false [Reference.Sha512; Reference.Whirlpool] [1%nat; 0%nat] [0%nat; 1%nat]
         Sample.fresh
       = (Ok false, s')
       /\ EA (this s') = None
       /\ Pkcs5 (this s') = None
       /\ DataAreaKey (this s') = Sample.zeros 256.
Proof.
  split; [by_computation|].
  apply (Decrypt_wrong_password (env := Reference.environment) Reference_contracts
           Sample.blob Sample.wrong_password Sample.pim None false
           [Reference.Sha512; Reference.Whirlpool] [1%nat; 0%nat]
           [Reference.Serpent; Reference.AES] [0%nat; 1%nat]
           [EncryptionModeXTS; EncryptionModeLegacy 0] Sample.fresh).
  - by_computation.
  - by_computation.
  - by_computation.
  - by_computation.
  - sample_typed.
  - sample_typed.
  - sample_all_passed.
Defined.

(** C7, as stated, fails.  The blob holds a header of version 6 under the
    password: on the only candidate [Deserialize] throws, so no candidate
    deserializes successfully, and [Decrypt] throws
    [HigherVersionRequired] instead of returning false. *)
Lemma Decrypt_candidate_throws :
  1 <= Size Sample.password
  /\ (Decrypt (env := Reference.environment) Sample.blob_version6 Sample.password Sample.pim
        None false [Reference.Sha512] [0%nat] [0%nat] Sample.fresh).1
     = Throw HigherVersionRequired
  /\ Deserialize_calls
       (calls (Decrypt (env := Reference.environment) Sample.blob_version6 Sample.password
                 Sample.pim None false [Reference.Sha512] [0%nat] [0%nat] Sample.fresh).2)
     = 1%nat.
Proof. repeat apply conj; by_computation. Qed.

(** ** What a failed attempt leaves behind *)

Section FailureSideEffects.

Context {env : Environment}.

(** C10, as amended.  When [Decrypt] returns false on a blob that holds a
    salt, the [Salt] of the header object (of [SaltSize] bytes) holds the
    bytes [SaltOffset, SaltOffset + SaltSize) of the blob.  And on a
    candidate plaintext that has passed every gate up to the sector size
    (magic, version, header checksum, minimum program version, sector size)
    and fails the checksum of the key area, [Deserialize] returns false
    having assigned the twelve fields as [parsed] tells: the values read
    from the plaintext, but for [RequiredMinProgramVersion] in TrueCrypt
    mode (the current one), [SectorSize] under [HeaderVersion] 5 (512) and
    the volume type (told by the hidden volume size). *)
Theorem Decrypt_failure_side_effects
  (encryptedData password : list byte) (pim : Z) (kdf : option Pkcs5Kdf)
  (truecryptMode : bool) (kdfs : list Pkcs5Kdf) (eas pms : list nat) (s : Machine)
  (header : list byte) (ea mode : nat) (s0 : Machine) :
  (Decrypt encryptedData password pim kdf truecryptMode kdfs eas pms s).1 = Ok false ->
  SaltOffset + SaltSize <= Size encryptedData ->
  Size (Salt (this s)) = SaltSize ->
  Size header = EncryptedHeaderDataSize (this s0) ->
  DataAreaKeyOffset + DataKeyAreaMaxSize <= Size header ->
  gates_passed truecryptMode header ->
  ~ key_crc_matches header ->
  Salt (this (Decrypt encryptedData password pim kdf truecryptMode kdfs eas pms s).2)
  = sub SaltOffset SaltSize encryptedData
  /\ Deserialize header ea mode truecryptMode s0
     = (Ok (false, (ea, mode)),
        mkMachine (parsed truecryptMode header (this s0)) (algorithms s0) (modes s0)
          (calls s0 ++ [DeserializeCall header])).
Proof.
  intros Hrun Henc Hsalt Hsize Hlen Hgates Hkey. split.
  - pose proof (Decrypt_frame encryptedData password pim kdf truecryptMode kdfs eas pms s)
      as [_ Hf].
    destruct (Hf Hrun) as [_ ->].
    apply splice_full. rewrite Size_sub by layout_lia. symmetry. exact Hsalt.
  - apply Deserialize_key_crc_rejected; assumption.
Qed.

End FailureSideEffects.

Lemma Decrypt_failure_side_effects_witness :
  (Decrypt (env := Reference.environment) Sample.blob Sample.wrong_password Sample.pim None
     false [Reference.Sha512; Reference.Whirlpool] [1%nat; 0%nat] [0%nat; 1%nat]
     Sample.fresh).1 = Ok false
  /\ @gates_passed Reference.environment false Sample.bad_key_crc
  /\ ~ @key_crc_matches Reference.environment Sample.bad_key_crc
  /\ Salt (this (Decrypt (env := Reference.environment) Sample.blob Sample.wrong_password
                   Sample.pim None false [Reference.Sha512; Reference.Whirlpool]
                   [1%nat; 0%nat] [0%nat; 1%nat] Sample.fresh).2)
     = sub SaltOffset SaltSize Sample.blob
  /\ Deserialize (env := Reference.environment) Sample.bad_key_crc 0 0 false Sample.fresh
     = (Ok (false, (0%nat, 0%nat)),
        mkMachine (parsed false Sample.bad_key_crc Sample.blank) Sample.store_algorithms
          Sample.store_modes [DeserializeCall Sample.bad_key_crc]).
Proof.
  assert (Hrun : (Decrypt (env := Reference.environment) Sample.blob Sample.wrong_password
                    Sample.pim None false [Reference.Sha512; Reference.Whirlpool]
                    [1%nat; 0%nat] [0%nat; 1%nat] Sample.fresh).1 = Ok false)
    by by_computation.
  assert (Hgates : @gates_passed Reference.environment false Sample.bad_key_crc).
  { unfold gates_passed, version_in_range, program_version_accepted, platform_accepts.
    repeat apply conj; try by_computation.
    left. reflexivity. }
  assert (Hkey : ~ @key_crc_matches Reference.environment Sample.bad_key_crc)
    by by_computation.
  split; [exact Hrun|]. split; [exact Hgates|]. split; [exact Hkey|].
  apply (Decrypt_failure_side_effects (env := Reference.environment)
           Sample.blob Sample.wrong_password Sample.pim None false
           [Reference.Sha512; Reference.Whirlpool] [1%nat; 0%nat] [0%nat; 1%nat]
           Sample.fresh Sample.bad_key_crc 0 0 Sample.fresh Hrun);
    [by_computation | by_computation | by_computation | by_computation
    | exact Hgates | exact Hkey].
Defined.

(** C10, as stated, fails.  Of two plaintexts whose magic, version and
    header checksum pass and whose key-area checksum fails: on the one of
    version 4 [Deserialize] returns false and leaves 512 in [SectorSize],
    not the 4096 of the plaintext; on the one that asks for a newer program
    it throws [HigherVersionRequired] before the key area is looked at, and
    [VolumeKeyAreaCrc32] and the fields after it are as they were. *)
Lemma Deserialize_fields_not_as_parsed :
  (magic_matches false Sample.version4_bad_key_crc
   /\ wire_HeaderVersion Sample.version4_bad_key_crc = 4
   /\ @header_crc_matches Reference.environment Sample.version4_bad_key_crc
   /\ ~ @key_crc_matches Reference.environment Sample.version4_bad_key_crc
   /\ (Deserialize (env := Reference.environment) Sample.version4_bad_key_crc 0 0 false
         Sample.fresh).1 = Ok (false, (0%nat, 0%nat))
   /\ wire_SectorSize Sample.version4_bad_key_crc = 4096
   /\ SectorSize
        (this (Deserialize (env := Reference.environment) Sample.version4_bad_key_crc 0 0
                 false Sample.fresh).2) = 512)
  /\ (magic_matches false Sample.newer_program_bad_key_crc
      /\ wire_HeaderVersion Sample.newer_program_bad_key_crc = 5
      /\ @header_crc_matches Reference.environment Sample.newer_program_bad_key_crc
      /\ ~ @key_crc_matches Reference.environment Sample.newer_program_bad_key_crc
      /\ (Deserialize (env := Reference.environment) Sample.newer_program_bad_key_crc 0 0
            false Sample.fresh).1 = Throw HigherVersionRequired
      /\ wire_VolumeKeyAreaCrc32 Sample.newer_program_bad_key_crc <> 0
      /\ VolumeKeyAreaCrc32
           (this (Deserialize (env := Reference.environment)
                    Sample.newer_program_bad_key_crc 0 0 false Sample.fresh).2) = 0).
Proof. repeat apply conj; by_computation. Qed.

(** ** The trial-decryption engine: the order of the search *)

Section SearchOrder.

Context {env : Environment} (contracts : Contracts).

(** C3, as amended.  [Decrypt] goes through the candidates in the product
    order of its lists, the key-derivation function outermost, the mode in
    the middle, the algorithm innermost; it skips a key-derivation function
    whose name differs from that of the preferred [kdf], when one is given,
    and a pair of a mode and an algorithm that does not support it.  When
    the candidate at position (i, j, l) of the lists is accepted and every
    candidate before it is passed over, [Decrypt] returns true having called
    [DeriveKey] once for each key-derivation function it did not skip, the
    matching one included, that is i + 1 times when no [kdf] is preferred;
    and having called [Deserialize], with i' the number of key-derivation
    functions not skipped before the match, i' * |modes| * |algorithms|
    + j * |algorithms| + l + 1 times less the pairs skipped. *)
Theorem Decrypt_search_order
  (encryptedData password : list byte) (pim : Z) (kdf : option Pkcs5Kdf)
  (truecryptMode : bool)
  (K1 : list Pkcs5Kdf) (k : Pkcs5Kdf) (K2 : list Pkcs5Kdf)
  (P1 : list nat) (mode : nat) (P2 : list nat)
  (M1 : list ModeType) (mt : ModeType) (M2 : list ModeType)
  (E1 : list nat) (ea : nat) (E2 : list nat)
  (T1 : list EAType) (t : EAType) (T2 : list EAType) (s : Machine) :
  let n := EncryptedHeaderDataSize (this s) in
  let salt := sub SaltOffset SaltSize encryptedData in
  let headerKey := derived k password pim salt in
  let ms := M1 ++ mt :: M2 in
  let ts := T1 ++ t :: T2 in
  1 <= Size password ->
  DataAreaKeyOffset + DataKeyAreaMaxSize <= n ->
  EncryptedHeaderDataOffset + n <= Size encryptedData ->
  GetLargestSerializedKeySize <= DataKeyAreaMaxSize ->
  SaltSize <= Size (Salt (this s)) ->
  DataKeyAreaMaxSize <= Size (DataAreaKey (this s)) ->
  GetLargestSerializedKeySize <= Size (HeaderKey (this s)) ->
  Forall2 (fun q t => mode_type_at s q = Some t) (P1 ++ mode :: P2) ms ->
  length P1 = length M1 ->
  Forall2 (fun p t => ea_type_at s p = Some t) (E1 ++ ea :: E2) ts ->
  length E1 = length T1 ->
  Forall (kdf_passed truecryptMode encryptedData n password pim kdf salt ms ts) K1 ->
  other_kdf kdf k = false ->
  Forall (fun m => Forall (passed truecryptMode encryptedData n headerKey m) ts) M1 ->
  Forall (passed truecryptMode encryptedData n headerKey mt) T1 ->
  IsModeSupported t mt = true ->
  accepted truecryptMode (trial encryptedData n headerKey mt t) ->
  exists s' made,
    Decrypt encryptedData password pim kdf truecryptMode (K1 ++ k :: K2)
      (E1 ++ ea :: E2) (P1 ++ mode :: P2) s
    = (Ok true, s')
    /\ calls s' = calls s ++ made
    /\ made
       = tried_kdfs encryptedData n password pim kdf salt K1 ms ts
         ++ DeriveKeyCall k
            :: tried_modes encryptedData n headerKey M1 ts
         ++ tried_algorithms encryptedData n headerKey mt T1
         ++ [DeserializeCall (trial encryptedData n headerKey mt t)]
    /\ DeriveKey_calls made = (length (visited kdf K1) + 1)%nat
    /\ (kdf = None -> DeriveKey_calls made = (length K1 + 1)%nat)
    /\ (Deserialize_calls made
        + (length (visited kdf K1) * skipped ms ts + skipped M1 ts + skipped [mt] T1)
        = length (visited kdf K1) * (length ms * length ts)
          + length M1 * length ts + length T1 + 1)%nat.
Proof.
  intros n salt headerKey ms ts Hpw Hn Henc Harea Hsalt Hdak Hhk Hmodes HlenP Heas HlenE
    Hrej Hother HrejM HrejT Hsup Hacc.
  apply Forall2_app_inv in Hmodes as [HP1 HP2]; [|exact HlenP].
  apply Forall2_cons_1 in HP2 as [Hmt HP2].
  apply Forall2_app_inv in Heas as [HE1 HE2]; [|exact HlenE].
  apply Forall2_cons_1 in HE2 as [Hea HE2].
  destruct (Decrypt_found contracts encryptedData truecryptMode n Hn Henc Harea password pim
              kdf E1 ea E2 T1 t T2 P1 mode P2 M1 mt M2 K1 k K2 s Hpw eq_refl Hsalt Hdak Hhk
              HP1 Hmt HP2 HE1 Hea HE2 Hrej Hother HrejM HrejT Hsup Hacc)
    as (s' & Hrun & _ & Hcalls).
  exists s'. eexists. split; [exact Hrun|]. split; [exact Hcalls|].
  split; [reflexivity|].
  fold salt headerKey ms ts.
  destruct (tried_kdfs_calls encryptedData n password pim kdf salt K1 ms ts) as [Hk1 Hk2].
  destruct (tried_modes_calls encryptedData n headerKey M1 ts) as [Hm1 Hm2].
  destruct (tried_algorithms_calls encryptedData n headerKey mt T1) as [Ha1 Ha2].
  change (DeriveKeyCall k :: ?l ++ ?r) with ([DeriveKeyCall k] ++ l ++ r).
  rewrite !DeriveKey_calls_app, !Deserialize_calls_app.
  change (DeriveKey_calls [DeriveKeyCall k]) with 1%nat.
  change (Deserialize_calls [DeriveKeyCall k]) with 0%nat.
  change (DeriveKey_calls [DeserializeCall ?p]) with 0%nat.
  change (Deserialize_calls [DeserializeCall ?p]) with 1%nat.
  assert (Hcount : (DeriveKey_calls (tried_kdfs encryptedData n password pim kdf salt K1 ms ts)
                    + (1 + (DeriveKey_calls (tried_modes encryptedData n headerKey M1 ts)
                            + (DeriveKey_calls
                                 (tried_algorithms encryptedData n headerKey mt T1) + 0)))
                    = length (visited kdf K1) + 1)%nat) by lia.
  split; [exact Hcount|].
  split; [intros ->; rewrite visited_None in Hcount; exact Hcount|].
  lia.
Qed.

End SearchOrder.

Lemma Decrypt_search_order_witness :
  1 <= Size Sample.password
  /\ (Decrypt (env := Reference.environment) Sample.blob Sample.password Sample.pim None
        false [Reference.Sha512; Reference.Whirlpool] [1%nat; 0%nat] [0%nat; 1%nat]
        Sample.fresh).1 = Ok true
  /\ exists s' made,
       Decrypt (env := Reference.environment) Sample.blob Sample.password Sample.pim None
         false [Reference.Sha512; Reference.Whirlpool] [1%nat; 0%nat] [0%nat; 1%nat]
         Sample.fresh
       = (Ok true, s')
       /\ calls s' = made
       /\ DeriveKey_calls made = 2%nat
       /\ Deserialize_calls made = 6%nat.
Proof.
  split; [by_computation|]. split; [by_computation|].
  destruct (Decrypt_search_order (env := Reference.environment) Reference_contracts
              Sample.blob Sample.password Sample.pim None false
              [Reference.Sha512] Reference.Whirlpool []
              [0%nat] 1%nat [] [EncryptionModeXTS] (EncryptionModeLegacy 0) []
              [1%nat] 0%nat [] [Reference.Serpent] Reference.AES [] Sample.fresh)
    as (s' & made & Hrun & Hcalls & _ & Hderive & _ & Hdeserialize).
  - by_computation.
  - by_computation.
  - by_computation.
  - by_computation.
  - by_computation.
  - by_computation.
  - by_computation.
  - sample_typed.
  - reflexivity.
  - sample_typed.
  - reflexivity.
  - sample_all_passed.
  - reflexivity.
  - sample_all_passed.
  - sample_all_passed.
  - reflexivity.
  - unfold accepted, gates_passed, version_in_range, program_version_accepted,
      platform_accepts.
    repeat apply conj; try by_computation.
    left. reflexivity.
  - exists s', made. split; [exact Hrun|]. split; [exact Hcalls|].
    split; [exact Hderive|].
    cbn in Hdeserialize. lia.
Defined.

(** C3, as stated, fails.  With Whirlpool preferred, the key-derivation
    function at position 0 of the list is skipped: for the match at
    position (1, 0, 0) [DeriveKey] is called once, not twice, and
    [Deserialize] once, not three times. *)
Lemma Decrypt_preferred_kdf_skips :
  (Decrypt (env := Reference.environment)
     (Sample.blob_of Reference.Whirlpool Reference.AES EncryptionModeXTS Sample.good)
     Sample.password Sample.pim (Some Reference.Whirlpool) false
     [Reference.Sha512; Reference.Whirlpool] [0%nat] [0%nat] Sample.fresh).1 = Ok true
  /\ DeriveKey_calls
       (calls (Decrypt (env := Reference.environment)
                 (Sample.blob_of Reference.Whirlpool Reference.AES EncryptionModeXTS
                    Sample.good)
                 Sample.password Sample.pim (Some Reference.Whirlpool) false
                 [Reference.Sha512; Reference.Whirlpool] [0%nat] [0%nat] Sample.fresh).2)
     = 1%nat
  /\ Deserialize_calls
       (calls (Decrypt (env := Reference.environment)
                 (Sample.blob_of Reference.Whirlpool Reference.AES EncryptionModeXTS
                    Sample.good)
                 Sample.password Sample.pim (Some Reference.Whirlpool) false
                 [Reference.Sha512; Reference.Whirlpool] [0%nat] [0%nat] Sample.fresh).2)
     = 1%nat
  /\ (Decrypt (env := Reference.environment)
        (Sample.blob_of Reference.Whirlpool Reference.AES EncryptionModeXTS Sample.good)
        Sample.password Sample.pim (Some Reference.Sha512) false
        [Reference.Sha512; Reference.Whirlpool] [0%nat] [0%nat] Sample.fresh).1 = Ok false.
Proof. repeat apply conj; by_computation. Qed.
